(** * Invoice persistence and sequence numbering: a shallow embedding

    The development follows [services/invoiceService.ts]: the service object
    [invoiceService] with [createInvoice], [getInvoices], [getInvoiceDetails],
    [deleteInvoice], [updateInvoiceNumber] and [checkInvoiceNumberExists],
    over a model of the document store it talks to; and, around the service,
    the handlers of [App.tsx] that call it or stand in for it in a guest's
    session, the rows, totals and submit of [components/InvoiceForm.tsx], and
    the file name of [components/InvoicePrintTemplate.tsx].

    Conventions of the embedding.
    - JavaScript strings are [string].  The counter holds integers, so its
      numbers are [Z]: up to [2^53] every integer is a double, adding 1
      below it is exact and [toString] prints plain decimal digits.  What
      the doubles do from [2^53] on is in [Binary64.nextNumber].
    - Money amounts are JavaScript numbers that carry decimals.  In the
      documents they are [jsnum], a rational or [NaN], with exact
      arithmetic: this tells which operations lead to which field.  The
      values themselves, with the rounding and the overflow of doubles, are
      computed by the same operations on binary64 numbers in [Binary64].
    - An awaited store request either answers or rejects; the rejections of
      one call are given by a fault schedule in the [World].
    - A transaction that commits has run its function on the store as it is
      at the commit; [concurrent_run_serial] derives this from the store's
      optimistic protocol for any interleaving of clients.
    - The state of a component is a record and a handler a function on it,
      in [IO] where the handler awaits the service; what [alert] is called
      with is kept in the state.  [Number] on the text of an input is a
      parameter of the form's functions. *)

From Stdlib Require Import ZArith QArith Qminmax List String Ascii Bool Lia.
From Stdlib Require Import Permutation Sorted Decimal DecimalString DecimalZ DecimalPos.
From Stdlib Require PrimFloat Floats.
Import ListNotations.

Local Open Scope string_scope.
Local Open Scope Z_scope.

(** ** JavaScript primitives used by the service *)

Module JS.

(** [n.toString()] for an integer [n]. *)
Definition toString (n : Z) : string := NilZero.string_of_int (Z.to_int n).

(** The filler of [padStart]: [padString] repeated and cut to [n] characters. *)
Fixpoint filler (padString cur : string) (n : nat) : string :=
  match n with
  | O => EmptyString
  | S n' =>
      match cur with
      | String c rest => String c (filler padString rest n')
      | EmptyString =>
          match padString with
          | String c rest => String c (filler padString rest n')
          | EmptyString => EmptyString
          end
      end
  end.

(** [s.padStart(targetLength, padString)]. *)
Definition padStart (targetLength : nat) (padString s : string) : string :=
  if (targetLength <=? String.length s)%nat then s
  else filler padString padString (targetLength - String.length s) ++ s.

(** [s.slice(start)]: a negative [start] counts from the end. *)
Definition slice (start : Z) (s : string) : string :=
  let len := Z.of_nat (String.length s) in
  let from := if start <? 0 then Z.max (len + start) 0 else Z.min start len in
  substring (Z.to_nat from) (Z.to_nat (len - from)) s.

(** [s.includes(needle)]. *)
Fixpoint includes (needle s : string) : bool :=
  prefix needle s ||
  match s with
  | EmptyString => false
  | String _ rest => includes needle rest
  end.

(** Up to [2^53] in absolute value every integer is a double, and adding 1
    to one of them below [2^53] is exact. *)
Definition twoTo53 : Z := 2 ^ 53.

(** [a || b] on strings: the empty string is falsy. *)
Definition orString (a b : string) : string :=
  match a with EmptyString => b | _ => a end.

(** [a || b] where [a] may be [undefined]. *)
Definition orUndefString (a : option string) (b : string) : string :=
  match a with Some s => orString s b | None => b end.

End JS.

(** ** Decimal amounts *)

Inductive jsnum : Type :=
| Num (q : Q)
| NaN.

Module Num.

Definition zero : jsnum := Num 0.

Definition add (a b : jsnum) : jsnum :=
  match a, b with Num x, Num y => Num (x + y) | _, _ => NaN end.

Definition sub (a b : jsnum) : jsnum :=
  match a, b with Num x, Num y => Num (x - y) | _, _ => NaN end.

Definition mul (a b : jsnum) : jsnum :=
  match a, b with Num x, Num y => Num (x * y) | _, _ => NaN end.

(** Division; the only divisor in the service is the literal [100].  A zero
    divisor (an infinity or NaN in JavaScript) is given as [NaN]. *)
Definition div (a b : jsnum) : jsnum :=
  match a, b with
  | Num x, Num y => if Qeq_bool y 0 then NaN else Num (x / y)
  | _, _ => NaN
  end.

(** [Math.max(a, b)]: [NaN] as soon as one argument is. *)
Definition max (a b : jsnum) : jsnum :=
  match a, b with Num x, Num y => Num (Qmax x y) | _, _ => NaN end.

(** Truthiness of a number: [NaN] and zero are falsy. *)
Definition truthy (a : jsnum) : bool :=
  match a with Num x => negb (Qeq_bool x 0) | NaN => false end.

(** [a || b] on numbers. *)
Definition or (a b : jsnum) : jsnum := if truthy a then a else b.

(** The values compared as numbers: rationals up to [Qeq]. *)
Definition eqv (a b : jsnum) : Prop :=
  match a, b with
  | Num x, Num y => (x == y)%Q
  | NaN, NaN => True
  | _, _ => False
  end.


End Num.

Declare Scope jsnum_scope.
Delimit Scope jsnum_scope with js.
Infix "+" := Num.add : jsnum_scope.
Infix "-" := Num.sub : jsnum_scope.
Infix "*" := Num.mul : jsnum_scope.
Infix "/" := Num.div : jsnum_scope.
Infix "~=" := Num.eqv (at level 70, no associativity) : jsnum_scope.

(** ** The same numbers as binary64 numbers

    The arithmetic of [createInvoice] once more, on the doubles JavaScript
    computes with: the amounts of the header and of the items, where doubles
    round and overflow, and the counter, where adding 1 is exact only below
    [2^53]. *)

Module Binary64.

Import PrimFloat.
Local Open Scope float_scope.

(** Truthiness of a number: [NaN], [+0] and [-0] are falsy. *)
Definition truthy (a : float) : bool := negb (is_nan a || is_zero a).

(** [a || b] *)
Definition or (a b : float) : float := if truthy a then a else b.

(** [Math.max(a, b)] *)
Definition max (a b : float) : float :=
  if is_nan a || is_nan b then nan
  else if a <? b then b
  else if b <? a then a
  else if is_zero a then a + b   (* of two zeros, [+0] is the larger *)
  else a.

(** The double of an integer, exact up to [2^53] in absolute value. *)
Definition ofZ (z : Z) : float :=
  match z with
  | Z0 => 0
  | Zpos _ => of_uint63 (Uint63Axioms.of_Z z)
  | Zneg p => - of_uint63 (Uint63Axioms.of_Z (Zpos p))
  end.

(** [x] is not negative: it is a zero, a positive number, [Infinity] or
    [NaN]. *)
Definition notNegative (x : float) : Prop := (x <? 0) = false.

(** An item of [calculatedItems], given by the quantity and the price of the
    item passed in: its [quantity], [price] and [total]. *)
Definition calculatedItem (item : float * float) : float * float * float :=
  (or (fst item) 0, or (snd item) 0, or (fst item) 0 * or (snd item) 0).

(** [subTotal], [discountAmount] and [grandTotal] for items given by their
    quantity and price; [percent] tells a percentage from a fixed discount. *)
Definition totals (items_ : list (float * float)) (percent : bool) (discountValue_ : float)
    : float * float * float :=
  let calculatedItems := map calculatedItem items_ in
  let subTotal_ := fold_left (fun acc curr => acc + snd curr) calculatedItems 0 in
  let discountAmount_ :=
    if percent then subTotal_ * (discountValue_ / 100) else discountValue_ in
  let grandTotal_ := max 0 (subTotal_ - discountAmount_) in
  (subTotal_, discountAmount_, grandTotal_).

(** [(Number(data.lastInvoiceNumber) || 0) + 1] for a counter document that
    holds the number [last]. *)
Definition nextNumber (last : float) : float := or last 0 + 1.

(** The numbers given to [n] calls that commit one after the other, from a
    counter document that holds [last]: each call writes its number back. *)
Fixpoint minted (n : nat) (last : float) : list float :=
  match n with
  | O => []
  | S n' => nextNumber last :: minted n' (nextNumber last)
  end.

End Binary64.

(** The two readings of the amounts apply the same operations in the same
    order: both are this computation, over the exact numbers for one and
    over the doubles for the other. *)
Record Arith (N : Type) : Type := {
  arithZero : N;
  arithHundred : N;
  arithAdd : N -> N -> N;
  arithSub : N -> N -> N;
  arithMul : N -> N -> N;
  arithDiv : N -> N -> N;
  arithOr : N -> N -> N;        (* [a || b] *)
  arithMax : N -> N -> N        (* [Math.max(a, b)] *)
}.
Arguments arithZero {N}.
Arguments arithHundred {N}.
Arguments arithAdd {N}.
Arguments arithSub {N}.
Arguments arithMul {N}.
Arguments arithDiv {N}.
Arguments arithOr {N}.
Arguments arithMax {N}.

Definition totalsOver {N : Type} (A : Arith N) (items_ : list (N * N)) (percent : bool)
    (discountValue_ : N) : N * N * N :=
  let calculatedItems :=
    map (fun item =>
           (arithOr A (fst item) (arithZero A), arithOr A (snd item) (arithZero A),
            arithMul A (arithOr A (fst item) (arithZero A))
              (arithOr A (snd item) (arithZero A)))) items_ in
  let subTotal_ :=
    fold_left (fun acc curr => arithAdd A acc (snd curr)) calculatedItems (arithZero A) in
  let discountAmount_ :=
    if percent then arithMul A subTotal_ (arithDiv A discountValue_ (arithHundred A))
    else discountValue_ in
  let grandTotal_ := arithMax A (arithZero A) (arithSub A subTotal_ discountAmount_) in
  (subTotal_, discountAmount_, grandTotal_).

Definition exactArith : Arith jsnum :=
  {| arithZero := Num 0; arithHundred := Num 100;
     arithAdd := Num.add; arithSub := Num.sub; arithMul := Num.mul; arithDiv := Num.div;
     arithOr := Num.or; arithMax := Num.max |}.

Definition binary64Arith : Arith PrimFloat.float :=
  {| arithZero := PrimFloat.zero; arithHundred := Binary64.ofZ 100;
     arithAdd := PrimFloat.add; arithSub := PrimFloat.sub; arithMul := PrimFloat.mul;
     arithDiv := PrimFloat.div;
     arithOr := Binary64.or; arithMax := Binary64.max |}.

(** ** Documents *)

(** A JavaScript error: the store's errors carry a [code], the service's own
    [new Error(msg)] only a message. *)
Record JsError : Type := { code : option string; message : option string }.

Definition Error (msg : string) : JsError :=
  {| code := None; message := Some msg |}.

Inductive Result (A : Type) : Type :=
| Ok (a : A)
| Err (e : JsError).
Arguments Ok {A} a.
Arguments Err {A} e.

(** A store timestamp, given by its instant in nanoseconds since the epoch;
    [seconds] and [nanoseconds] are the two fields of the SDK's class, the
    latter within [0, 10^9). *)
Record Timestamp : Type := { instant : Z }.

Module Timestamp.

Definition seconds (t : Timestamp) : Z := instant t / 1000000000.
Definition nanoseconds (t : Timestamp) : Z := instant t mod 1000000000.

(** [Timestamp.fromMillis(ms)] *)
Definition fromMillis (ms : Z) : Timestamp := {| instant := ms * 1000000 |}.

(** [t.toMillis()]: [seconds * 1000 + nanoseconds / 1e6], as the exact
    number.  The SDK computes it on doubles: the same number for a timestamp
    of whole milliseconds within [2^53] milliseconds of the epoch, a
    rounding of it otherwise. *)
Definition toMillis (t : Timestamp) : Q :=
  (inject_Z (seconds t) * 1000 + inject_Z (nanoseconds t) / 1000000)%Q.

End Timestamp.

(** The [createdAt] of an invoice object, [Timestamp | Date]. *)
Inductive CreatedAt : Type :=
| StoreTimestamp (t : Timestamp)
| DateLike (ms : Z).

Inductive DiscountType : Type := fixed | percentage.

Record InvoiceItem : Type := {
  description : string;
  quantity : jsnum;
  price : jsnum;
  total : jsnum
}.

(** The fields of a header document, as [createInvoice] writes them. *)
Record InvoiceDoc : Type := {
  invoiceNumber : string;
  invoiceDate : string;
  customerName : string;
  customerAddress : string;
  customerPhone : string;
  currencySymbol : string;
  subTotal : jsnum;
  discountType : DiscountType;
  discountValue : jsnum;
  discountAmount : jsnum;
  grandTotal : jsnum;
  createdAt : Timestamp;
  userId : string
}.

(** An invoice as the service returns it: [{ id: doc.id, ...doc.data() }]. *)
Record Invoice : Type := { id : string; data : InvoiceDoc }.

Definition Invoice_createdAt (inv : Invoice) : CreatedAt :=
  StoreTimestamp (createdAt (data inv)).

(** What the model lets the field of the counter document hold: of the values
    a document field can have, those that [Number] reads as an integer or as
    NaN.  (Numbers with a fraction, strings other than plain numerals and the
    store's own classes are not among them.) *)
#[warnings="-register-all"]
Inductive JsValue : Type :=
| VUndefined            (* the field is missing *)
| VNull                 (* [null] *)
| VBool (b : bool)      (* [true], [false] *)
| VNumber (n : Z)       (* the number [n] *)
| VNaN                  (* the number [NaN] *)
| VDigits (n : Z)       (* the string of the decimal numeral of [n], as ["12"] *)
| VMap                  (* a map: a plain object *)
| VArray (l : list JsValue).

Record InvoiceCounter : Type := { lastInvoiceNumber : JsValue }.

(** [Number(v)]; [None] is NaN.  [null] and [false] read as 0, [true] as 1,
    a numeral as its number, a plain object as NaN.  An array reads as its
    elements joined by commas do: the empty array as 0, an array of one
    element as what the text of that element reads as ([null] and
    [undefined] giving the empty text, so 0; [true] the text ["true"], so
    NaN), a longer array as NaN. *)
Fixpoint Number (v : JsValue) : option Z :=
  match v with
  | VUndefined | VNaN | VMap => None
  | VNull => Some 0
  | VBool b => Some (if b then 1 else 0)
  | VNumber n | VDigits n => Some n
  | VArray [] => Some 0
  | VArray [x] =>
      match x with
      | VUndefined | VNull => Some 0
      | VBool _ => None
      | _ => Number x
      end
  | VArray _ => None
  end.

(** [n || 0] on a number that may be NaN. *)
Definition orZero (n : option Z) : Z :=
  match n with
  | Some z => if z =? 0 then 0 else z
  | None => 0
  end.

(** ** Collections: documents by key, in key order *)

Section Collection.

Context {K V : Type} (cmp : K -> K -> comparison).

Fixpoint get (k : K) (c : list (K * V)) : option V :=
  match c with
  | [] => None
  | (k', v') :: rest =>
      match cmp k k' with
      | Eq => Some v'
      | _ => get k rest
      end
  end.

Fixpoint set (k : K) (v : V) (c : list (K * V)) : list (K * V) :=
  match c with
  | [] => [(k, v)]
  | (k', v') :: rest =>
      match cmp k k' with
      | Lt => (k, v) :: c
      | Eq => (k, v) :: rest
      | Gt => (k', v') :: set k v rest
      end
  end.

Definition remove (k : K) (c : list (K * V)) : list (K * V) :=
  filter (fun kv => match cmp k (fst kv) with Eq => false | _ => true end) c.

End Collection.

(** Item documents live under their header: the key is (header id, item id). *)
Definition cmpItemKey (a b : string * string) : comparison :=
  match String.compare (fst a) (fst b) with
  | Eq => String.compare (snd a) (snd b)
  | c => c
  end.

Record Store : Type := {
  counter : option InvoiceCounter;                    (* counters/invoices *)
  invoices : list (string * InvoiceDoc);              (* invoices/{id} *)
  items : list ((string * string) * InvoiceItem)      (* invoices/{id}/items/{itemId} *)
}.

Definition emptyStore : Store := {| counter := None; invoices := []; items := [] |}.

Definition withCounter (c : option InvoiceCounter) (s : Store) : Store :=
  {| counter := c; invoices := invoices s; items := items s |}.

Definition withInvoices (l : list (string * InvoiceDoc)) (s : Store) : Store :=
  {| counter := counter s; invoices := l; items := items s |}.

Definition withItems (l : list ((string * string) * InvoiceItem)) (s : Store) : Store :=
  {| counter := counter s; invoices := invoices s; items := l |}.

(** ** Requests, rejections and the transaction primitive *)

(** The store and the rejections still to come: each awaited request takes
    the head of [faults]; [Some e] rejects it with [e], [None] (or an empty
    schedule) lets the store answer. *)
Record World : Type := { store : Store; faults : list (option JsError) }.

Definition IO (A : Type) : Type := World -> Result A * World.

Definition ret {A} (a : A) : IO A := fun w => (Ok a, w).

Definition throw {A} (e : JsError) : IO A := fun w => (Err e, w).

Definition bind {A B} (m : IO A) (k : A -> IO B) : IO B :=
  fun w =>
    match m w with
    | (Ok a, w') => k a w'
    | (Err e, w') => (Err e, w')
    end.

(** [try { m } catch (e) { h e }] *)
Definition tryCatch {A} (m : IO A) (h : JsError -> IO A) : IO A :=
  fun w =>
    match m w with
    | (Ok a, w') => (Ok a, w')
    | (Err e, w') => h e w'
    end.

Declare Scope io_scope.
Delimit Scope io_scope with io.
Notation "x <- m ;; k" := (bind m (fun x => k))
  (at level 61, m at next level, right associativity) : io_scope.
Notation "m ;; k" := (bind m (fun _ => k))
  (at level 61, right associativity) : io_scope.

(** [await request]: one round trip to the store. *)
Definition await {A} (request : Store -> Result A * Store) : IO A :=
  fun w =>
    match faults w with
    | Some e :: rest => (Err e, {| store := store w; faults := rest |})
    | None :: rest =>
        let (r, s) := request (store w) in (r, {| store := s; faults := rest |})
    | [] =>
        let (r, s) := request (store w) in (r, {| store := s; faults := [] |})
    end.

(** [Promise.all(ps)]: every request has been issued and runs to its end;
    the first rejection, if any, is the outcome. *)
Fixpoint promiseAll (ps : list (IO unit)) : IO unit :=
  match ps with
  | [] => ret tt
  | p :: rest =>
      fun w =>
        let (r, w1) := p w in
        let (r', w2) := promiseAll rest w1 in
        (match r with Err e => Err e | Ok _ => r' end, w2)
  end.

(** Writes buffered by a transaction. *)
Inductive Write : Type :=
| SetInvoice (ref : string) (d : InvoiceDoc)
| SetItem (parent ref : string) (item : InvoiceItem)
| SetCounter (c : InvoiceCounter).

Definition applyWrite (s : Store) (w : Write) : Store :=
  match w with
  | SetInvoice ref d => withInvoices (set String.compare ref d (invoices s)) s
  | SetItem parent ref item => withItems (set cmpItemKey (parent, ref) item (items s)) s
  | SetCounter c => withCounter (Some c) s
  end.

(** The body of a transaction reads the snapshot and buffers its writes. *)
Definition Tx (A : Type) : Type := Store -> list Write -> A * list Write.

Definition txRet {A} (a : A) : Tx A := fun _ ws => (a, ws).

Definition txBind {A B} (m : Tx A) (k : A -> Tx B) : Tx B :=
  fun s ws => let (a, ws') := m s ws in k a s ws'.

Declare Scope tx_scope.
Delimit Scope tx_scope with tx.
Notation "x <- m ;; k" := (txBind m (fun x => k))
  (at level 61, m at next level, right associativity) : tx_scope.
Notation "m ;; k" := (txBind m (fun _ => k))
  (at level 61, right associativity) : tx_scope.

(** [transaction.get(counterRef)] *)
Definition txGetCounter : Tx (option InvoiceCounter) := fun s ws => (counter s, ws).

(** [transaction.set(ref, data)] *)
Definition txSet (w : Write) : Tx unit := fun _ ws => (tt, (ws ++ [w])%list).

(** [l.forEach(f)], the callback also given the position for its fresh id. *)
Fixpoint txForEach {A} (f : nat -> A -> Tx unit) (i : nat) (l : list A) : Tx unit :=
  match l with
  | [] => txRet tt
  | x :: rest => (f i x ;; txForEach f (S i) rest)%tx
  end.

(** [runTransaction(db, body)]: the transaction that commits ran its body on
    the store as it is at the commit and applies all its writes at once; a
    transaction that fails applies none. *)
Definition runTransaction {A} (body : Tx A) : IO A :=
  await (fun s => let (a, ws) := body s [] in (Ok a, fold_left applyWrite ws s)).

(** ** Store requests *)

(** [getDoc(doc(db, 'invoices', id))]: [None] when [!snapshot.exists()]. *)
Definition getDoc (ref : string) (s : Store) : Result (option InvoiceDoc) * Store :=
  (Ok (get String.compare ref (invoices s)), s).

(** [getDocs(query)] over the headers. *)
Definition getDocs (q : list (string * InvoiceDoc) -> list (string * InvoiceDoc))
    (s : Store) : Result (list (string * InvoiceDoc)) * Store :=
  (Ok (q (invoices s)), s).

(** [getDocs(collection(db, 'invoices', id, 'items'))] *)
Definition getItemDocs (parent : string) (s : Store)
    : Result (list (string * InvoiceItem)) * Store :=
  (Ok (map (fun kv => (snd (fst kv), snd kv))
         (filter (fun kv => String.eqb (fst (fst kv)) parent) (items s))), s).

(** [deleteDoc(ref)]; deleting a missing document succeeds. *)
Definition deleteInvoiceDoc (ref : string) (s : Store) : Result unit * Store :=
  (Ok tt, withInvoices (remove String.compare ref (invoices s)) s).

Definition deleteItemDoc (parent ref : string) (s : Store) : Result unit * Store :=
  (Ok tt, withItems (remove cmpItemKey (parent, ref) (items s)) s).

Definition withInvoiceNumber (n : string) (d : InvoiceDoc) : InvoiceDoc :=
  {| invoiceNumber := n;
     invoiceDate := invoiceDate d;
     customerName := customerName d;
     customerAddress := customerAddress d;
     customerPhone := customerPhone d;
     currencySymbol := currencySymbol d;
     subTotal := subTotal d;
     discountType := discountType d;
     discountValue := discountValue d;
     discountAmount := discountAmount d;
     grandTotal := grandTotal d;
     createdAt := createdAt d;
     userId := userId d |}.

(** [updateDoc(ref, { invoiceNumber })]; the store rejects the update of a
    missing document. *)
Definition updateDoc (ref : string) (newInvoiceNumber : string) (s : Store)
    : Result unit * Store :=
  match get String.compare ref (invoices s) with
  | Some d =>
      (Ok tt, withInvoices
                (set String.compare ref (withInvoiceNumber newInvoiceNumber d) (invoices s)) s)
  | None =>
      (Err {| code := Some "not-found"; message := Some "No document to update" |}, s)
  end.

(** ** Sorting and queries *)

Section StableSort.

Context {A : Type} (after : A -> A -> bool).

(** [x] is put behind every element it must come after, and in front of the
    first one it need not: equal elements keep their order. *)
Fixpoint insertSorted (x : A) (l : list A) : list A :=
  match l with
  | [] => [x]
  | y :: rest => if after x y then y :: insertSorted x rest else x :: l
  end.

Definition stableSort (l : list A) : list A := fold_right insertSorted [] l.

End StableSort.

(** [l.sort(compareFn)]: [a] comes after [b] when [compareFn(a, b) > 0];
    the sort is stable. *)
Definition Array_sort {A} (compareFn : A -> A -> Q) (l : list A) : list A :=
  stableSort (fun a b => negb (Qle_bool (compareFn a b) 0)) l.

(** [where('userId', '==', userId)] *)
Definition whereUserId (uid : string) (c : list (string * InvoiceDoc))
    : list (string * InvoiceDoc) :=
  filter (fun d => String.eqb (userId (snd d)) uid) c.

(** [where('invoiceNumber', '==', n)] *)
Definition whereInvoiceNumber (n : string) (c : list (string * InvoiceDoc))
    : list (string * InvoiceDoc) :=
  filter (fun d => String.eqb (invoiceNumber (snd d)) n) c.

(** [orderBy('createdAt', 'desc')] as the store evaluates it: newest first,
    and documents of equal [createdAt] by document id, in the direction of
    the ordering, so descending too. *)
Definition storeAfterDesc (a b : string * InvoiceDoc) : bool :=
  match instant (createdAt (snd a)) ?= instant (createdAt (snd b)) with
  | Lt => true
  | Eq => match String.compare (fst a) (fst b) with Lt => true | _ => false end
  | Gt => false
  end.

Definition orderByCreatedAtDesc (c : list (string * InvoiceDoc))
    : list (string * InvoiceDoc) :=
  stableSort storeAfterDesc c.

Definition toInvoice (d : string * InvoiceDoc) : Invoice :=
  {| id := fst d; data := snd d |}.

(** [c instanceof Timestamp ? c.toMillis() : new Date(c).getTime()] *)
Definition createdAtTime (c : CreatedAt) : Q :=
  match c with
  | StoreTimestamp t => Timestamp.toMillis t
  | DateLike ms => inject_Z ms
  end.

(** ** The service *)

(** What a call of [createInvoice] takes from its surroundings. *)
Record Env : Type := {
  yearNow : Z;                 (* new Date().getFullYear() *)
  timestampNow : Timestamp;    (* Timestamp.now() *)
  autoInvoiceId : string;      (* doc(collection(db, 'invoices')).id *)
  autoItemId : nat -> string   (* the id of the n-th doc(collection(ref, 'items')) *)
}.

Module invoiceService.

Definition calculatedItem (item : InvoiceItem) : InvoiceItem :=
  {| description := description item;
     quantity := Num.or (quantity item) (Num 0);
     price := Num.or (price item) (Num 0);
     total := (Num.or (quantity item) (Num 0) * Num.or (price item) (Num 0))%js |}.

Definition sumTotals (calculatedItems : list InvoiceItem) : jsnum :=
  fold_left (fun acc curr => (acc + total curr)%js) calculatedItems (Num 0).

Definition discountOf (subTotal : jsnum) (discountType : DiscountType)
    (discountValue : jsnum) : jsnum :=
  match discountType with
  | percentage => (subTotal * (discountValue / Num 100))%js
  | fixed => discountValue
  end.

(** The minted number: [`BILL/${currentYearShort}/${paddedNumber}`]. *)
Definition formatInvoiceNumber (year nextNumber : Z) : string :=
  let currentYearShort := JS.slice (-2) (JS.toString year) in
  let paddedNumber := JS.padStart 3 "0" (JS.toString nextNumber) in
  "BILL/" ++ currentYearShort ++ "/" ++ paddedNumber.

(** [nextNumber] as the transaction computes it from the counter document.
    The sum is the one of the integers: that of the doubles as long as the
    number read is within [2^53] and below it; for the sum of the doubles
    beyond, see [Binary64.nextNumber]. *)
Definition nextNumberOf (counterDoc : option InvoiceCounter) : Z :=
  match counterDoc with
  | Some data => orZero (Number (lastInvoiceNumber data)) + 1
  | None => 1
  end.

(** The function given to [runTransaction]; what it closes over is passed
    along. *)
Definition createInvoiceTransaction (env : Env)
    (uid customerName_ invoiceDate_ : string)
    (customerAddress_ customerPhone_ : option string) (currencySymbol_ : string)
    (calculatedItems : list InvoiceItem) (discountType_ : DiscountType)
    (discountValue_ subTotal_ discountAmount_ grandTotal_ : jsnum) : Tx string :=
  (counterDoc <- txGetCounter ;;
   let nextNumber := nextNumberOf counterDoc in
   let invoiceNumber_ := formatInvoiceNumber (yearNow env) nextNumber in
   let newInvoiceRef := autoInvoiceId env in
   txSet (SetInvoice newInvoiceRef
            {| invoiceNumber := invoiceNumber_;
               invoiceDate := invoiceDate_;
               customerName := JS.orString customerName_ "Unknown Customer";
               customerAddress := JS.orUndefString customerAddress_ EmptyString;
               customerPhone := JS.orUndefString customerPhone_ EmptyString;
               currencySymbol := currencySymbol_;
               subTotal := subTotal_;
               discountType := discountType_;
               discountValue := discountValue_;
               discountAmount := discountAmount_;
               grandTotal := grandTotal_;
               createdAt := timestampNow env;
               userId := uid |}) ;;
   txForEach (fun i item => txSet (SetItem newInvoiceRef (autoItemId env i) item))
     0%nat calculatedItems ;;
   txSet (SetCounter {| lastInvoiceNumber := VNumber nextNumber |}) ;;
   txRet newInvoiceRef)%tx.

Definition createInvoice (env : Env)
    (uid : string) (customerName_ : string) (invoiceDate_ : string)
    (items_ : list InvoiceItem) (discountType_ : DiscountType) (discountValue_ : jsnum)
    (customerAddress_ customerPhone_ : option string) (currencySymbol_ : option string)
    : IO string :=
  let currencySymbol_ := match currencySymbol_ with Some c => c | None => "₹" end in
  let calculatedItems := map calculatedItem items_ in
  let subTotal_ := sumTotals calculatedItems in
  let discountAmount_ := discountOf subTotal_ discountType_ discountValue_ in
  let grandTotal_ := Num.max (Num 0) (subTotal_ - discountAmount_)%js in
  tryCatch
    (runTransaction
       (createInvoiceTransaction env uid customerName_ invoiceDate_
          customerAddress_ customerPhone_ currencySymbol_
          calculatedItems discountType_ discountValue_
          subTotal_ discountAmount_ grandTotal_))
    (fun error => throw error).

(** [error.code === 'failed-precondition' || error.message?.includes('index')] *)
Definition isIndexError (error : JsError) : bool :=
  match code error with
  | Some c => String.eqb c "failed-precondition"
  | None => false
  end
  || match message error with
     | Some m => JS.includes "index" m
     | None => false
     end.

Definition getInvoices (uid : string) : IO (list Invoice) :=
  tryCatch
    (querySnapshot <-
       await (getDocs (fun c => orderByCreatedAtDesc (whereUserId uid c))) ;;
     ret (map toInvoice querySnapshot))%io
    (fun error =>
       (* the inner [try] either returns the sorted list or falls through *)
       (returned <-
          (if isIndexError error then
             tryCatch
               (fallbackSnapshot <- await (getDocs (whereUserId uid)) ;;
                let fallbackInvoices := map toInvoice fallbackSnapshot in
                ret (Some (Array_sort
                             (fun a b =>
                                let aTime := createdAtTime (Invoice_createdAt a) in
                                let bTime := createdAtTime (Invoice_createdAt b) in
                                (bTime - aTime)%Q)
                             fallbackInvoices)))
               (fun fallbackError => ret None)
           else ret None) ;;
        match returned with
        | Some fallbackInvoices => ret fallbackInvoices
        | None => throw error
        end)%io).

Definition deleteInvoice (invoiceId uid : string) : IO unit :=
  tryCatch
    (invoiceDoc <- await (getDoc invoiceId) ;;
     match invoiceDoc with
     | None => throw (Error "Invoice not found")
     | Some d =>
         if negb (String.eqb (userId d) uid)
         then throw (Error "Unauthorized to delete this invoice")
         else
           itemsSnapshot <- await (getItemDocs invoiceId) ;;
           promiseAll
             (map (fun itemDoc => await (deleteItemDoc invoiceId (fst itemDoc)))
                itemsSnapshot) ;;
           await (deleteInvoiceDoc invoiceId) ;;
           ret tt
     end)%io
    (fun error => throw error).

Definition updateInvoiceNumber (invoiceId uid newInvoiceNumber : string) : IO unit :=
  tryCatch
    (invoiceDoc <- await (getDoc invoiceId) ;;
     match invoiceDoc with
     | None => throw (Error "Invoice not found")
     | Some d =>
         if negb (String.eqb (userId d) uid)
         then throw (Error "Unauthorized to edit this invoice")
         else
           querySnapshot <-
             await (getDocs (fun c => whereInvoiceNumber newInvoiceNumber
                                        (whereUserId uid c))) ;;
           (* [!querySnapshot.empty && querySnapshot.docs[0].id !== invoiceId] *)
           (if match querySnapshot with
               | [] => false
               | doc0 :: _ => negb (String.eqb (fst doc0) invoiceId)
               end
            then throw (Error "Invoice number already exists")
            else ret tt) ;;
           await (updateDoc invoiceId newInvoiceNumber)
     end)%io
    (fun error => throw error).

(** [if (excludeInvoiceId)]: [undefined] and the empty string are falsy. *)
Definition provided (excludeInvoiceId : option string) : option string :=
  match excludeInvoiceId with
  | Some EmptyString | None => None
  | Some s => Some s
  end.

Definition checkInvoiceNumberExists (uid invoiceNumber_ : string)
    (excludeInvoiceId : option string) : IO bool :=
  tryCatch
    (querySnapshot <-
       await (getDocs (fun c => whereInvoiceNumber invoiceNumber_ (whereUserId uid c))) ;;
     match querySnapshot with
     | [] => ret false
     | doc0 :: _ =>
         match provided excludeInvoiceId with
         | Some ex => ret (negb (String.eqb (fst doc0) ex))
         | None => ret true
         end
     end)%io
    (fun error => ret false).

(** The invoice with its items: [{ id, ...data, items }], each item as
    [{ id: doc.id, ...doc.data() }], here the pair of the id and the data. *)
Definition getInvoiceDetails (invoiceId : string)
    : IO (Invoice * list (string * InvoiceItem)) :=
  (invoiceDoc <- await (getDoc invoiceId) ;;
   match invoiceDoc with
   | None => throw (Error "Invoice not found")
   | Some d =>
       itemsSnapshot <- await (getItemDocs invoiceId) ;;
       ret ({| id := invoiceId; data := d |}, itemsSnapshot)
   end)%io.

End invoiceService.

(** ** Vocabulary of the properties *)

(** One call of [createInvoice] together with what its surroundings supply
    and with the outcome of its transaction: [Some e] when the store gives
    it up with [e], [None] when it commits. *)
Record CreateCall : Type := {
  callEnv : Env;
  callUser : string;
  callCustomer : string;
  callDate : string;
  callItems : list InvoiceItem;
  callDiscountType : DiscountType;
  callDiscountValue : jsnum;
  callAddress : option string;
  callPhone : option string;
  callCurrency : option string;
  callOutcome : option JsError
}.

(** The transaction function of a call. *)
Definition transactionOf (c : CreateCall) : Tx string :=
  let currencySymbol_ := match callCurrency c with Some x => x | None => "₹" end in
  let calculatedItems := map invoiceService.calculatedItem (callItems c) in
  let subTotal_ := invoiceService.sumTotals calculatedItems in
  let discountAmount_ :=
    invoiceService.discountOf subTotal_ (callDiscountType c) (callDiscountValue c) in
  let grandTotal_ := Num.max (Num 0) (subTotal_ - discountAmount_)%js in
  invoiceService.createInvoiceTransaction (callEnv c) (callUser c) (callCustomer c)
    (callDate c) (callAddress c) (callPhone c) currencySymbol_
    calculatedItems (callDiscountType c) (callDiscountValue c)
    subTotal_ discountAmount_ grandTotal_.

Definition commits (c : CreateCall) : bool :=
  match callOutcome c with None => true | Some _ => false end.

Definition runCreate (c : CreateCall) (s : Store) : Result string * Store :=
  let (r, w) :=
    invoiceService.createInvoice (callEnv c) (callUser c) (callCustomer c) (callDate c)
      (callItems c) (callDiscountType c) (callDiscountValue c)
      (callAddress c) (callPhone c) (callCurrency c)
      {| store := s; faults := [callOutcome c] |} in
  (r, store w).

(** The calls in the order in which the store serialises their transactions. *)
Definition runCreates (cs : list CreateCall) (s : Store) : Store :=
  fold_left (fun s c => snd (runCreate c s)) cs s.

(** The last issued number as the allocator reads it from the store. *)
Definition lastIssued (s : Store) : Z :=
  match counter s with
  | Some data => orZero (Number (lastInvoiceNumber data))
  | None => 0
  end.

(** The header stored under the id a call was given. *)
Definition headerOf (c : CreateCall) (s : Store) : option InvoiceDoc :=
  get String.compare (autoInvoiceId (callEnv c)) (invoices s).

Definition numberOf (c : CreateCall) (s : Store) : option string :=
  option_map invoiceNumber (headerOf c s).

(** The calls that commit, the ids they were given, and the numbers found
    under these ids in a store. *)
Definition committed (cs : list CreateCall) : list CreateCall := filter commits cs.

Definition committedIds (cs : list CreateCall) : list string :=
  map (fun c => autoInvoiceId (callEnv c)) (committed cs).

Definition mintedNumbers (cs : list CreateCall) (s : Store) : list (option string) :=
  map (fun c => numberOf c s) (committed cs).

(** The numbers the allocator is to mint for the calls, from [K+1] on. *)
Fixpoint expectedNumbers (K : Z) (cs : list CreateCall) : list string :=
  match cs with
  | [] => []
  | c :: rest =>
      invoiceService.formatInvoiceNumber (yearNow (callEnv c)) (K + 1)
        :: expectedNumbers (K + 1) rest
  end.

(** *** Concurrent clients

    How the store runs the transactions of several clients.  A client runs
    its transaction function on the store as it is: an attempt, holding the
    counter document read and the writes buffered.  When the attempt reaches
    the store, it commits if the document read is still the same, and is
    thrown away otherwise, for the client to run the function again or to
    give up.  (The store compares versions; documents of one version have one
    content, so comparing contents refuses no commit the store accepts.) *)

Record Attempt : Type := {
  attemptCall : CreateCall;
  readCounter : option InvoiceCounter;
  buffered : list Write
}.

Inductive Event : Type :=
| Runs (client : nat) (c : CreateCall)   (* the client runs the function of [c] *)
| Arrives (client : nat).                (* its attempt reaches the store *)

Record System : Type := {
  sysStore : Store;
  inFlight : list (nat * Attempt);
  commitLog : list Attempt                (* committed attempts, oldest first *)
}.

Fixpoint valueEqb (a b : JsValue) : bool :=
  match a, b with
  | VUndefined, VUndefined | VNull, VNull | VNaN, VNaN | VMap, VMap => true
  | VBool x, VBool y => Bool.eqb x y
  | VNumber x, VNumber y | VDigits x, VDigits y => x =? y
  | VArray l, VArray m =>
      (fix all2 (l m : list JsValue) : bool :=
         match l, m with
         | [], [] => true
         | x :: l', y :: m' => valueEqb x y && all2 l' m'
         | _, _ => false
         end) l m
  | _, _ => false
  end.

Definition counterEqb (a b : option InvoiceCounter) : bool :=
  match a, b with
  | None, None => true
  | Some x, Some y => valueEqb (lastInvoiceNumber x) (lastInvoiceNumber y)
  | _, _ => false
  end.

Definition withoutClient (i : nat) (l : list (nat * Attempt)) : list (nat * Attempt) :=
  filter (fun ia => negb (Nat.eqb (fst ia) i)) l.

Definition attemptOfClient (i : nat) (l : list (nat * Attempt)) : option Attempt :=
  option_map snd (find (fun ia => Nat.eqb (fst ia) i) l).

Definition step (sys : System) (ev : Event) : System :=
  match ev with
  | Runs i c =>
      {| sysStore := sysStore sys;
         inFlight :=
           (i, {| attemptCall := c;
                  readCounter := counter (sysStore sys);
                  buffered := snd (transactionOf c (sysStore sys) []) |})
             :: withoutClient i (inFlight sys);
         commitLog := commitLog sys |}
  | Arrives i =>
      match attemptOfClient i (inFlight sys) with
      | None => sys
      | Some a =>
          if counterEqb (readCounter a) (counter (sysStore sys))
          then {| sysStore := fold_left applyWrite (buffered a) (sysStore sys);
                  inFlight := withoutClient i (inFlight sys);
                  commitLog := (commitLog sys ++ [a])%list |}
          else {| sysStore := sysStore sys;
                  inFlight := withoutClient i (inFlight sys);
                  commitLog := commitLog sys |}
      end
  end.

Definition runEvents (evs : list Event) (sys : System) : System := fold_left step evs sys.

Definition idle (s : Store) : System :=
  {| sysStore := s; inFlight := []; commitLog := [] |}.

(** The call of an attempt, as one that commits. *)
Definition committing (a : Attempt) : CreateCall :=
  let c := attemptCall a in
  {| callEnv := callEnv c;
     callUser := callUser c;
     callCustomer := callCustomer c;
     callDate := callDate c;
     callItems := callItems c;
     callDiscountType := callDiscountType c;
     callDiscountValue := callDiscountValue c;
     callAddress := callAddress c;
     callPhone := callPhone c;
     callCurrency := callCurrency c;
     callOutcome := None |}.

(** The text behind the last ['/'] of a string, if it has one. *)
Fixpoint afterLastSlash (s : string) : option string :=
  match s with
  | EmptyString => None
  | String c rest =>
      match afterLastSlash rest with
      | Some t => Some t
      | None => if Ascii.eqb c "/" then Some rest else None
      end
  end.

(** The numeric suffix of an invoice number. *)
Definition invoiceSuffix (n : string) : option Z :=
  match afterLastSlash n with
  | Some t => option_map Z.of_uint (NilZero.uint_of_string t)
  | None => None
  end.

(** [K+1, ..., K+n] *)
Definition run (K : Z) (n : nat) : list Z :=
  map (fun i => K + 1 + Z.of_nat i) (seq 0 n).

(** The spec's names for the service's errors. *)
Definition NotFound : JsError := Error "Invoice not found".
Definition UnauthorizedDelete : JsError := Error "Unauthorized to delete this invoice".
Definition DuplicateNumber : JsError := Error "Invoice number already exists".

(** The header fetch of a call is answered (not rejected by the store). *)
Definition answered (fs : list (option JsError)) : Prop :=
  match fs with Some _ :: _ => False | _ => True end.

(** The instant an invoice was created at. *)
Definition createdInstant (inv : Invoice) : Z := instant (createdAt (data inv)).

(** A timestamp of whole milliseconds, as [Timestamp.now()] gives them, not
    further than [2^53] milliseconds from the epoch: of these [toMillis] is
    the exact number of milliseconds as a double too. *)
Definition wholeMillis (t : Timestamp) : Prop :=
  instant t mod 1000000 = 0
  /\ - JS.twoTo53 <= instant t / 1000000 <= JS.twoTo53.

(** Newest first: no invoice is older than one behind it. *)
Definition newestFirst (l : list Invoice) : Prop :=
  StronglySorted (fun a b => createdInstant b <= createdInstant a) l.

(** The headers of one owner, as invoices. *)
Definition ownedBy (uid : string) (s : Store) : list Invoice :=
  map toInvoice (whereUserId uid (invoices s)).

(** A caller-supplied amount that is not negative ([NaN] is coerced to 0). *)
Definition notNegative (a : jsnum) : Prop :=
  match a with Num x => (0 <= x)%Q | NaN => True end.

(** ** Sample data *)

Definition sampleEnv (year ms : Z) (ref : string) : Env :=
  {| yearNow := year;
     timestampNow := Timestamp.fromMillis ms;
     autoInvoiceId := ref;
     autoItemId := fun n => "item" ++ JS.toString (Z.of_nat n) |}.

Definition sampleItem (q p : Q) : InvoiceItem :=
  {| description := "work"; quantity := Num q; price := Num p; total := Num (q * p) |}.

Definition sampleCall (year ms : Z) (ref uid : string) (items_ : list InvoiceItem)
    (dt : DiscountType) (dv : Q) (outcome : option JsError) : CreateCall :=
  {| callEnv := sampleEnv year ms ref;
     callUser := uid;
     callCustomer := "Acme";
     callDate := "2025-03-01";
     callItems := items_;
     callDiscountType := dt;
     callDiscountValue := Num dv;
     callAddress := None;
     callPhone := None;
     callCurrency := None;
     callOutcome := outcome |}.

Definition scenarioItems : list InvoiceItem := [sampleItem 2 100; sampleItem 1 50].

Definition unavailable : JsError :=
  {| code := Some "unavailable"; message := Some "The service is currently unavailable." |}.

Definition missingIndex : JsError :=
  {| code := Some "failed-precondition"; message := Some "The query requires an index." |}.


(** One owner's store after: a first invoice "a" is created ("BILL/25/001"),
    renamed to "BILL/25/002", and a second invoice "b" is created, to which
    the allocator gives "BILL/25/002". *)
Definition duplicateStore : Store :=
  let s1 := snd (runCreate (sampleCall 2025 1000 "a" "u1" scenarioItems fixed 0 None)
                   emptyStore) in
  let s2 := store (snd (invoiceService.updateInvoiceNumber "a" "u1" "BILL/25/002"
                          {| store := s1; faults := [] |})) in
  snd (runCreate (sampleCall 2025 2000 "b" "u1" scenarioItems fixed 0 None) s2).

(** Two invoices of one owner created within the same millisecond. *)
Definition tieStore : Store :=
  runCreates
    [ sampleCall 2025 1000 "a" "u1" scenarioItems fixed 0 None;
      sampleCall 2025 1000 "b" "u1" scenarioItems fixed 0 None ]
    emptyStore.

(** Invoices of two owners, not created in the order of their ids. *)
Definition historyStore : Store :=
  runCreates
    [ sampleCall 2025 1000 "a" "u1" scenarioItems fixed 0 None;
      sampleCall 2025 3000 "b" "u1" scenarioItems fixed 0 None;
      sampleCall 2025 2500 "c" "u2" scenarioItems fixed 0 None;
      sampleCall 2025 2000 "d" "u1" scenarioItems fixed 0 None ]
    emptyStore.

(** Two clients race: both run on the empty store, the first to arrive
    commits, the second is refused, runs again and commits. *)
Definition raceEvents : list Event :=
  [ Runs 1 (sampleCall 2025 1000 "a" "u1" scenarioItems fixed 0 None);
    Runs 2 (sampleCall 2025 1001 "b" "u2" scenarioItems fixed 0 None);
    Arrives 2;
    Arrives 1;
    Runs 1 (sampleCall 2025 1002 "c" "u1" scenarioItems fixed 0 None);
    Arrives 1 ].

(** Three calls by two owners across a change of year; the second fails. *)
Definition sampleCalls : list CreateCall :=
  [ sampleCall 2025 1000 "a" "u1" scenarioItems percentage 10 None;
    sampleCall 2025 2000 "b" "u2" scenarioItems fixed 5 (Some unavailable);
    sampleCall 2026 3000 "c" "u2" scenarioItems fixed 5 None ].

(** ** Around the service: the form, the application, the print template *)

(** The user of the application: the local guest ([GUEST_USER], told by
    ['isGuest' in user]) or a signed-in user with the uid of the identity
    provider. *)
Inductive AppUser : Type :=
| GuestUser
| FirebaseUser (uid : string).

Definition uidOf (u : AppUser) : string :=
  match u with
  | GuestUser => "guest_session"
  | FirebaseUser uid => uid
  end.

(** What the form hands over for a guest's invoice. *)
Record GuestData : Type := {
  gdCustomerName : string;
  gdCustomerAddress : string;
  gdCustomerPhone : string;
  gdInvoiceDate : string;
  gdCurrencySymbol : string;
  gdDiscountType : DiscountType;
  gdDiscountValue : jsnum;
  gdSubTotal : jsnum;
  gdDiscountAmount : jsnum;
  gdItems : list InvoiceItem;
  gdGrandTotal : jsnum
}.

(** A guest's invoice, kept in the state of the application:
    [{ id, invoiceNumber, ...guestData, createdAt: new Date(), userId }]. *)
Record GuestInvoice : Type := {
  guestId : string;
  guestInvoiceNumber : string;
  guestData : GuestData;
  guestCreatedAt : Z;
  guestUserId : string
}.

Module InvoiceForm.

(** A row of the form; the inputs hold text. *)
Record FormItem : Type := {
  itemDescription : string;
  itemQuantity : string;
  itemPrice : string
}.

Inductive Field : Type := FDescription | FQuantity | FPrice.   (* keyof FormItem *)

Record FormState : Type := {
  fCustomerName : string;
  fCustomerAddress : string;
  fCustomerPhone : string;
  fCurrencySymbol : string;
  fDiscountType : DiscountType;
  fDiscountValue : string;
  fInvoiceDate : string;
  fItems : list FormItem;
  fIsSubmitting : bool;
  fError : option string
}.

(** The form as it opens, [today] being [new Date().toISOString().split('T')[0]]. *)
Definition initialState (today : string) : FormState :=
  {| fCustomerName := EmptyString;
     fCustomerAddress := EmptyString;
     fCustomerPhone := EmptyString;
     fCurrencySymbol := "₹";
     fDiscountType := percentage;
     fDiscountValue := "0";
     fInvoiceDate := today;
     fItems := [{| itemDescription := EmptyString; itemQuantity := "1"; itemPrice := "0" |}];
     fIsSubmitting := false;
     fError := None |}.

Definition withItemsOf (l : list FormItem) (st : FormState) : FormState :=
  {| fCustomerName := fCustomerName st;
     fCustomerAddress := fCustomerAddress st;
     fCustomerPhone := fCustomerPhone st;
     fCurrencySymbol := fCurrencySymbol st;
     fDiscountType := fDiscountType st;
     fDiscountValue := fDiscountValue st;
     fInvoiceDate := fInvoiceDate st;
     fItems := l;
     fIsSubmitting := fIsSubmitting st;
     fError := fError st |}.

(** [setError(e); setIsSubmitting(b)] *)
Definition withOutcome (e : option string) (b : bool) (st : FormState) : FormState :=
  {| fCustomerName := fCustomerName st;
     fCustomerAddress := fCustomerAddress st;
     fCustomerPhone := fCustomerPhone st;
     fCurrencySymbol := fCurrencySymbol st;
     fDiscountType := fDiscountType st;
     fDiscountValue := fDiscountValue st;
     fInvoiceDate := fInvoiceDate st;
     fItems := fItems st;
     fIsSubmitting := b;
     fError := e |}.

Definition addItem (st : FormState) : FormState :=
  withItemsOf
    (fItems st ++ [{| itemDescription := EmptyString; itemQuantity := "1"; itemPrice := "0" |}])
    st.

(** [items.filter((_, i) => i !== index)], [i] counting from [from]. *)
Fixpoint filterIndex (from index : nat) (l : list FormItem) : list FormItem :=
  match l with
  | [] => []
  | x :: rest =>
      if Nat.eqb from index then filterIndex (S from) index rest
      else x :: filterIndex (S from) index rest
  end.

Definition removeItem (index : nat) (st : FormState) : FormState :=
  if (1 <? List.length (fItems st))%nat
  then withItemsOf (filterIndex 0 index (fItems st)) st
  else st.

Definition setField (field : Field) (value : string) (item : FormItem) : FormItem :=
  match field with
  | FDescription =>
      {| itemDescription := value; itemQuantity := itemQuantity item;
         itemPrice := itemPrice item |}
  | FQuantity =>
      {| itemDescription := itemDescription item; itemQuantity := value;
         itemPrice := itemPrice item |}
  | FPrice =>
      {| itemDescription := itemDescription item; itemQuantity := itemQuantity item;
         itemPrice := value |}
  end.

Fixpoint setNth (index : nat) (f : FormItem -> FormItem) (l : list FormItem)
    : list FormItem :=
  match l, index with
  | [], _ => []
  | x :: rest, O => f x :: rest
  | x :: rest, S i => x :: setNth i f rest
  end.

(** [newItems[index][field] = value]; without a row at [index] the
    assignment throws and the state stays ([None]). *)
Definition updateItem (index : nat) (field : Field) (value : string) (st : FormState)
    : option FormState :=
  match nth_error (fItems st) index with
  | Some _ => Some (withItemsOf (setNth index (setField field value) (fItems st)) st)
  | None => None
  end.

Section WithNumber.

(** [Number(text)] of JavaScript, on the text of an input. *)
Variable Number_ : string -> jsnum.

(** The totals the form shows. *)
Definition totals (st : FormState) : jsnum * jsnum * jsnum :=
  let subTotal_ :=
    fold_left (fun acc item =>
                 (acc + Number_ (itemQuantity item) * Number_ (itemPrice item))%js)
      (fItems st) (Num 0) in
  let dVal := Num.or (Number_ (fDiscountValue st)) (Num 0) in
  let discountAmount_ :=
    match fDiscountType st with
    | percentage => (subTotal_ * (dVal / Num 100))%js
    | fixed => dVal
    end in
  let grandTotal_ := Num.max (Num 0) (subTotal_ - discountAmount_)%js in
  (subTotal_, discountAmount_, grandTotal_).

Definition formattedItems (st : FormState) : list InvoiceItem :=
  map (fun i =>
         {| description := itemDescription i;
            quantity := Number_ (itemQuantity i);
            price := Number_ (itemPrice i);
            total := (Number_ (itemQuantity i) * Number_ (itemPrice i))%js |})
    (fItems st).

Definition isEmpty (s : string) : bool :=
  match s with EmptyString => true | _ => false end.

(** [handleSubmit]: the new state of the form and, if it came to that, the
    arguments [onSuccess] is called with.  [env] is what [createInvoice]
    takes from its surroundings, [dateNow] is [Date.now()]. *)
Definition handleSubmit (user : AppUser) (env : Env) (dateNow : Z) (st : FormState)
    : IO (FormState * option (string * option GuestData)) :=
  if isEmpty (fCustomerName st) || existsb (fun i => isEmpty (itemDescription i)) (fItems st)
  then ret (withOutcome (Some "Please fill in customer name and all item descriptions.")
              (fIsSubmitting st) st, None)
  else
    tryCatch
      (match user with
       | GuestUser =>
           let '(subTotal_, discountAmount_, grandTotal_) := totals st in
           ret (withOutcome None false st,
                Some ("guest_" ++ JS.toString dateNow,
                      Some {| gdCustomerName := fCustomerName st;
                              gdCustomerAddress := fCustomerAddress st;
                              gdCustomerPhone := fCustomerPhone st;
                              gdInvoiceDate := fInvoiceDate st;
                              gdCurrencySymbol := fCurrencySymbol st;
                              gdDiscountType := fDiscountType st;
                              gdDiscountValue := Number_ (fDiscountValue st);
                              gdSubTotal := subTotal_;
                              gdDiscountAmount := discountAmount_;
                              gdItems := formattedItems st;
                              gdGrandTotal := grandTotal_ |}))
       | FirebaseUser uid =>
           (newId <- invoiceService.createInvoice env uid (fCustomerName st)
                       (fInvoiceDate st) (formattedItems st) (fDiscountType st)
                       (Number_ (fDiscountValue st))
                       (Some (fCustomerAddress st)) (Some (fCustomerPhone st))
                       (Some (fCurrencySymbol st)) ;;
            ret (withOutcome None false st, Some (newId, None)))%io
       end)
      (fun err =>
         ret (withOutcome (Some (JS.orUndefString (message err) "Failed to create invoice."))
                false st, None)).

End WithNumber.

End InvoiceForm.

Module App.

(** The invoice shown: [Invoice & { items }], read from the store or a
    guest's. *)
Inductive Selected : Type :=
| SelectedStored (details : Invoice * list (string * InvoiceItem))
| SelectedGuest (inv : GuestInvoice).

Record AppState : Type := {
  appInvoices : list Invoice;
  appGuestInvoices : list GuestInvoice;
  appSelectedInvoice : option Selected;
  appAutoPrintMode : bool;
  appInvoicesLoading : bool;
  appAlerts : list string          (* what [alert] was called with, oldest first *)
}.

Definition setInvoices (l : list Invoice) (st : AppState) : AppState :=
  {| appInvoices := l;
     appGuestInvoices := appGuestInvoices st;
     appSelectedInvoice := appSelectedInvoice st;
     appAutoPrintMode := appAutoPrintMode st;
     appInvoicesLoading := appInvoicesLoading st;
     appAlerts := appAlerts st |}.

Definition setGuestInvoices (l : list GuestInvoice) (st : AppState) : AppState :=
  {| appInvoices := appInvoices st;
     appGuestInvoices := l;
     appSelectedInvoice := appSelectedInvoice st;
     appAutoPrintMode := appAutoPrintMode st;
     appInvoicesLoading := appInvoicesLoading st;
     appAlerts := appAlerts st |}.

Definition setSelectedInvoice (x : option Selected) (st : AppState) : AppState :=
  {| appInvoices := appInvoices st;
     appGuestInvoices := appGuestInvoices st;
     appSelectedInvoice := x;
     appAutoPrintMode := appAutoPrintMode st;
     appInvoicesLoading := appInvoicesLoading st;
     appAlerts := appAlerts st |}.

Definition setAutoPrintMode (b : bool) (st : AppState) : AppState :=
  {| appInvoices := appInvoices st;
     appGuestInvoices := appGuestInvoices st;
     appSelectedInvoice := appSelectedInvoice st;
     appAutoPrintMode := b;
     appInvoicesLoading := appInvoicesLoading st;
     appAlerts := appAlerts st |}.

Definition setInvoicesLoading (b : bool) (st : AppState) : AppState :=
  {| appInvoices := appInvoices st;
     appGuestInvoices := appGuestInvoices st;
     appSelectedInvoice := appSelectedInvoice st;
     appAutoPrintMode := appAutoPrintMode st;
     appInvoicesLoading := b;
     appAlerts := appAlerts st |}.

Definition alert (msg : string) (st : AppState) : AppState :=
  {| appInvoices := appInvoices st;
     appGuestInvoices := appGuestInvoices st;
     appSelectedInvoice := appSelectedInvoice st;
     appAutoPrintMode := appAutoPrintMode st;
     appInvoicesLoading := appInvoicesLoading st;
     appAlerts := (appAlerts st ++ [msg])%list |}.

Definition fetchInvoices (uid : string) (st : AppState) : IO AppState :=
  if String.eqb uid "guest_session" then ret st
  else
    (st' <- tryCatch
              (data <- invoiceService.getInvoices uid ;;
               ret (setInvoices data (setInvoicesLoading true st)))
              (fun error => ret (setInvoicesLoading true st)) ;;
     ret (setInvoicesLoading false st'))%io.

(** [year] is [new Date().getFullYear()], [dateNow] is [new Date()].  The
    read of the invoice is not caught: when it rejects so does the handler,
    the state being the one given with the automatic print off. *)
Definition handleInvoiceSuccess (user : option AppUser) (year dateNow : Z)
    (invoiceId : string) (guestData_ : option GuestData) (st : AppState) : IO AppState :=
  match user with
  | None => ret st
  | Some u =>
      let st := setAutoPrintMode false st in
      match u, guestData_ with
      | GuestUser, Some gd =>
          let currentYearShort := JS.slice (-2) (JS.toString year) in
          let paddedNumber :=
            JS.padStart 3 "0"
              (JS.toString (Z.of_nat (List.length (appGuestInvoices st)) + 1)) in
          let invoiceNumber_ := "BILL/" ++ currentYearShort ++ "/" ++ paddedNumber in
          let newInvoice :=
            {| guestId := invoiceId;
               guestInvoiceNumber := invoiceNumber_;
               guestData := gd;
               guestCreatedAt := dateNow;
               guestUserId := uidOf u |} in
          ret (setSelectedInvoice (Some (SelectedGuest newInvoice))
                 (setGuestInvoices (newInvoice :: appGuestInvoices st) st))
      | GuestUser, None => ret st
      | FirebaseUser uid, _ =>
          (details <- invoiceService.getInvoiceDetails invoiceId ;;
           fetchInvoices uid (setSelectedInvoice (Some (SelectedStored details)) st))%io
      end
  end.

(** [confirmed] is the answer to [window.confirm]. *)
Definition handleDeleteInvoice (user : option AppUser) (confirmed : bool)
    (invoiceId : string) (st : AppState) : IO AppState :=
  match user with
  | None => ret st
  | Some u =>
      if negb confirmed then ret st
      else
        tryCatch
          (match u with
           | GuestUser =>
               ret (setGuestInvoices
                      (filter (fun inv => negb (String.eqb (guestId inv) invoiceId))
                         (appGuestInvoices st)) st)
           | FirebaseUser uid =>
               (invoiceService.deleteInvoice invoiceId uid ;;
                fetchInvoices uid st)%io
           end)
          (fun error =>
             ret (alert (JS.orUndefString (message error) "Failed to delete invoice") st))
  end.

Definition renamed (newNumber : string) (inv : GuestInvoice) : GuestInvoice :=
  {| guestId := guestId inv;
     guestInvoiceNumber := newNumber;
     guestData := guestData inv;
     guestCreatedAt := guestCreatedAt inv;
     guestUserId := guestUserId inv |}.

Definition handleEditInvoiceNumber (user : option AppUser)
    (invoiceId newNumber : string) (st : AppState) : IO AppState :=
  match user with
  | None => ret st
  | Some u =>
      tryCatch
        (match u with
         | GuestUser =>
             let existingInvoice :=
               find (fun inv => String.eqb (guestInvoiceNumber inv) newNumber
                                && negb (String.eqb (guestId inv) invoiceId))
                 (appGuestInvoices st) in
             match existingInvoice with
             | Some _ =>
                 ret (alert "Invoice number already exists. Please use a different number."
                        st)
             | None =>
                 ret (setGuestInvoices
                        (map (fun inv => if String.eqb (guestId inv) invoiceId
                                          then renamed newNumber inv else inv)
                           (appGuestInvoices st)) st)
             end
         | FirebaseUser uid =>
             (invoiceService.updateInvoiceNumber invoiceId uid newNumber ;;
              fetchInvoices uid st)%io
         end)
        (fun error =>
           match message error with
           | Some "Invoice number already exists" =>
               ret (alert "This invoice number already exists in your history. Please use a different number." st)
           | _ =>
               ret (alert (JS.orUndefString (message error) "Failed to update invoice number")
                      st)
           end)
  end.

End App.

Module InvoicePrintTemplate.

(** [s.replace(/\//g, '-')] *)
Fixpoint replaceSlashes (s : string) : string :=
  match s with
  | EmptyString => EmptyString
  | String c rest =>
      String (if Ascii.eqb c "/" then "-"%char else c) (replaceSlashes rest)
  end.

(** [`Invoice_${invoice.invoiceNumber.replace(/\//g, '-')}.pdf`] *)
Definition fileName (invoiceNumber_ : string) : string :=
  "Invoice_" ++ replaceSlashes invoiceNumber_ ++ ".pdf".

End InvoicePrintTemplate.

(** ** Vocabulary of the further properties *)

(** The item documents under a header, as a query of its [items] collection
    lists them. *)
Definition itemsUnder (parent : string) (s : Store) : list (string * InvoiceItem) :=
  map (fun kv => (snd (fst kv), snd kv))
    (filter (fun kv => String.eqb (fst (fst kv)) parent) (items s)).

(** The item documents of the other headers. *)
Definition itemsElsewhere (parent : string) (s : Store)
    : list ((string * string) * InvoiceItem) :=
  filter (fun kv => negb (String.eqb (fst (fst kv)) parent)) (items s).

(** The writes of [calculatedItems.forEach], the callback counting from [i]. *)
Fixpoint itemWritesOf (ref : string) (ids : nat -> string) (i : nat)
    (l : list InvoiceItem) : list Write :=
  match l with
  | [] => []
  | x :: rest => SetItem ref (ids i) x :: itemWritesOf ref ids (S i) rest
  end.

(** The item documents these writes put down. *)
Fixpoint itemDocsOf (ids : nat -> string) (i : nat) (l : list InvoiceItem)
    : list (string * InvoiceItem) :=
  match l with
  | [] => []
  | x :: rest => (ids i, x) :: itemDocsOf ids (S i) rest
  end.

(** The ids the store hands out for the items of a call are pairwise
    different. *)
Definition freshItemIds (c : CreateCall) : Prop :=
  NoDup (map (autoItemId (callEnv c)) (seq 0 (List.length (callItems c)))).

(** *** Any calls of the service, one after the other *)

Inductive ServiceCall : Type :=
| Creates (c : CreateCall)
| Deletes (invoiceId uid : string) (fs : list (option JsError))
| Renames (invoiceId uid newInvoiceNumber : string) (fs : list (option JsError))
| Lists (uid : string) (fs : list (option JsError))
| Reads (invoiceId : string) (fs : list (option JsError))
| Checks (uid n : string) (excludeInvoiceId : option string) (fs : list (option JsError)).

(** The store a call leaves; [fs] is what the store rejects during it. *)
Definition afterCall (s : Store) (call : ServiceCall) : Store :=
  match call with
  | Creates c => snd (runCreate c s)
  | Deletes i u fs =>
      store (snd (invoiceService.deleteInvoice i u {| store := s; faults := fs |}))
  | Renames i u n fs =>
      store (snd (invoiceService.updateInvoiceNumber i u n {| store := s; faults := fs |}))
  | Lists u fs =>
      store (snd (invoiceService.getInvoices u {| store := s; faults := fs |}))
  | Reads i fs =>
      store (snd (invoiceService.getInvoiceDetails i {| store := s; faults := fs |}))
  | Checks u n ex fs =>
      store (snd (invoiceService.checkInvoiceNumberExists u n ex
                    {| store := s; faults := fs |}))
  end.

Definition afterCalls (calls : list ServiceCall) (s : Store) : Store :=
  fold_left afterCall calls s.

(** The call is a [createInvoice] that commits and was given the id [k]. *)
Definition createsAt (k : string) (call : ServiceCall) : bool :=
  match call with
  | Creates c => commits c && String.eqb (autoInvoiceId (callEnv c)) k
  | _ => false
  end.

(** The call is a delete or a rename of the invoice [k] made by [u]. *)
Definition mutatesAs (k u : string) (call : ServiceCall) : bool :=
  match call with
  | Deletes i v _ | Renames i v _ _ => String.eqb i k && String.eqb v u
  | _ => false
  end.

(** The number of calls of [createInvoice] that commit. *)
Definition committedCreates (calls : list ServiceCall) : nat :=
  List.length
    (filter (fun call => match call with Creates c => commits c | _ => false end) calls).

(** *** The form and the application *)

(** What the user does with the rows of the form. *)
Inductive RowAction : Type :=
| AddsRow
| RemovesRow (index : nat)
| UpdatesRow (index : nat) (field : InvoiceForm.Field) (value : string).

(** The form after an action; an [updateItem] that throws leaves it as it is. *)
Definition afterRowAction (st : InvoiceForm.FormState) (a : RowAction)
    : InvoiceForm.FormState :=
  match a with
  | AddsRow => InvoiceForm.addItem st
  | RemovesRow i => InvoiceForm.removeItem i st
  | UpdatesRow i f v =>
      match InvoiceForm.updateItem i f v st with
      | Some st' => st'
      | None => st
      end
  end.

Definition afterRowActions (acts : list RowAction) (st : InvoiceForm.FormState)
    : InvoiceForm.FormState :=
  fold_left afterRowAction acts st.

(** The form passes the check of [handleSubmit]: a customer name and a
    description in every row. *)
Definition filledIn (st : InvoiceForm.FormState) : bool :=
  negb (InvoiceForm.isEmpty (InvoiceForm.fCustomerName st)
        || existsb (fun i => InvoiceForm.isEmpty (InvoiceForm.itemDescription i))
             (InvoiceForm.fItems st)).

(** A text that [Number] reads as a number. *)
Definition numeric (Number_ : string -> jsnum) (text : string) : Prop :=
  Number_ text <> NaN.

(** Every quantity and every price of the form reads as a number. *)
Definition numericRows (Number_ : string -> jsnum) (st : InvoiceForm.FormState) : Prop :=
  Forall (fun i => numeric Number_ (InvoiceForm.itemQuantity i)
                   /\ numeric Number_ (InvoiceForm.itemPrice i))
    (InvoiceForm.fItems st).

(** The call of [createInvoice] that [handleSubmit] makes for a signed-in
    user, with the outcome of its transaction. *)
Definition callOfForm (Number_ : string -> jsnum) (uid : string) (env : Env)
    (st : InvoiceForm.FormState) (outcome : option JsError) : CreateCall :=
  {| callEnv := env;
     callUser := uid;
     callCustomer := InvoiceForm.fCustomerName st;
     callDate := InvoiceForm.fInvoiceDate st;
     callItems := InvoiceForm.formattedItems Number_ st;
     callDiscountType := InvoiceForm.fDiscountType st;
     callDiscountValue := Number_ (InvoiceForm.fDiscountValue st);
     callAddress := Some (InvoiceForm.fCustomerAddress st);
     callPhone := Some (InvoiceForm.fCustomerPhone st);
     callCurrency := Some (InvoiceForm.fCurrencySymbol st);
     callOutcome := outcome |}.

(** The header a call writes when the counter gives it the number [n]. *)
Definition headerWritten (c : CreateCall) (n : Z) : InvoiceDoc :=
  let calculatedItems := map invoiceService.calculatedItem (callItems c) in
  let subTotal_ := invoiceService.sumTotals calculatedItems in
  let discountAmount_ :=
    invoiceService.discountOf subTotal_ (callDiscountType c) (callDiscountValue c) in
  {| invoiceNumber := invoiceService.formatInvoiceNumber (yearNow (callEnv c)) n;
     invoiceDate := callDate c;
     customerName := JS.orString (callCustomer c) "Unknown Customer";
     customerAddress := JS.orUndefString (callAddress c) EmptyString;
     customerPhone := JS.orUndefString (callPhone c) EmptyString;
     currencySymbol := match callCurrency c with Some x => x | None => "₹" end;
     subTotal := subTotal_;
     discountType := callDiscountType c;
     discountValue := callDiscountValue c;
     discountAmount := discountAmount_;
     grandTotal := Num.max (Num 0) (subTotal_ - discountAmount_)%js;
     createdAt := timestampNow (callEnv c);
     userId := callUser c |}.

(** The numbers and the ids of a guest's invoices, newest first. *)
Definition guestNumbers (st : App.AppState) : list string :=
  map guestInvoiceNumber (App.appGuestInvoices st).

Definition guestIds (st : App.AppState) : list string :=
  map guestId (App.appGuestInvoices st).

(** The number [handleInvoiceSuccess] gives the [n]-th invoice of a guest. *)
Definition guestNumber (year : Z) (n : nat) : string :=
  invoiceService.formatInvoiceNumber year (Z.of_nat n).

(** What a guest does with the invoices of the session: a submit of the
    form accepted by [handleInvoiceSuccess], a confirmed delete, a rename. *)
Inductive GuestAction : Type :=
| GuestCreates (invoiceId : string) (gd : GuestData) (year dateNow : Z)
| GuestDeletes (invoiceId : string)
| GuestRenames (invoiceId newNumber : string).

(** The handler of an action. *)
Definition guestHandler (a : GuestAction) : App.AppState -> IO App.AppState :=
  match a with
  | GuestCreates i gd year dateNow =>
      App.handleInvoiceSuccess (Some GuestUser) year dateNow i (Some gd)
  | GuestDeletes i => App.handleDeleteInvoice (Some GuestUser) true i
  | GuestRenames i n => App.handleEditInvoiceNumber (Some GuestUser) i n
  end.

(** The state the handler leaves, run on a store [s] that rejects [fs]; a
    handler that rejects leaves the state it was given. *)
Definition afterGuestActionOn (s : Store) (fs : list (option JsError))
    (st : App.AppState) (a : GuestAction) : App.AppState :=
  match fst (guestHandler a st {| store := s; faults := fs |}) with
  | Ok st' => st'
  | Err _ => st
  end.

Definition afterGuestAction : App.AppState -> GuestAction -> App.AppState :=
  afterGuestActionOn emptyStore [].

Definition afterGuestActions (acts : list GuestAction) (st : App.AppState)
    : App.AppState :=
  fold_left afterGuestAction acts st.

(** The action is a creation in the year [year]. *)
Definition createsIn (year : Z) (a : GuestAction) : Prop :=
  match a with
  | GuestCreates _ _ y _ => y = year
  | _ => False
  end.

(** *** Sample data of the form and the application *)

(** A reading of decimal digits for the examples: [Number("12")] is 12,
    [Number("")] is 0, a text with any other character is [NaN]. *)
Definition sampleNumber (text : string) : jsnum :=
  match text with
  | EmptyString => Num 0
  | _ =>
      match NilEmpty.uint_of_string text with
      | Some u => Num (inject_Z (Z.of_uint u))
      | None => NaN
      end
  end.

Definition sampleRow (d q p : string) : InvoiceForm.FormItem :=
  {| InvoiceForm.itemDescription := d;
     InvoiceForm.itemQuantity := q;
     InvoiceForm.itemPrice := p |}.

Definition sampleForm (rows : list InvoiceForm.FormItem) : InvoiceForm.FormState :=
  {| InvoiceForm.fCustomerName := "Acme";
     InvoiceForm.fCustomerAddress := "1 Main St";
     InvoiceForm.fCustomerPhone := "555";
     InvoiceForm.fCurrencySymbol := "$";
     InvoiceForm.fDiscountType := percentage;
     InvoiceForm.fDiscountValue := "10";
     InvoiceForm.fInvoiceDate := "2025-03-01";
     InvoiceForm.fItems := rows;
     InvoiceForm.fIsSubmitting := false;
     InvoiceForm.fError := None |}.

Definition sampleRows : list InvoiceForm.FormItem :=
  [sampleRow "work" "2" "100"; sampleRow "more" "1" "50"].

Definition sampleGuestData : GuestData :=
  {| gdCustomerName := "Acme";
     gdCustomerAddress := EmptyString;
     gdCustomerPhone := EmptyString;
     gdInvoiceDate := "2025-03-01";
     gdCurrencySymbol := "$";
     gdDiscountType := fixed;
     gdDiscountValue := Num 0;
     gdSubTotal := Num 250;
     gdDiscountAmount := Num 0;
     gdItems := scenarioItems;
     gdGrandTotal := Num 250 |}.

Definition sampleGuestInvoice (ref number : string) : GuestInvoice :=
  {| guestId := ref;
     guestInvoiceNumber := number;
     guestData := sampleGuestData;
     guestCreatedAt := 1000;
     guestUserId := "guest_session" |}.

Definition emptyApp : App.AppState :=
  {| App.appInvoices := [];
     App.appGuestInvoices := [];
     App.appSelectedInvoice := None;
     App.appAutoPrintMode := false;
     App.appInvoicesLoading := false;
     App.appAlerts := [] |}.

(** * Properties *)

(** ** The primitives on small inputs *)

Example toString_7 : JS.toString 7 = "7".
Proof. reflexivity. Qed.

Example padStart_7 : JS.padStart 3 "0" (JS.toString 7) = "007".
Proof. reflexivity. Qed.

Example padStart_1000 : JS.padStart 3 "0" (JS.toString 1000) = "1000".
Proof. reflexivity. Qed.

Example padStart_cycle : JS.padStart 7 "ab" "xyz" = "ababxyz".
Proof. reflexivity. Qed.

Example slice_2025 : JS.slice (-2) (JS.toString 2025) = "25".
Proof. reflexivity. Qed.

Example slice_short : JS.slice (-2) "7" = "7".
Proof. reflexivity. Qed.

Example isIndexError_message :
  invoiceService.isIndexError (Error "The query requires an index.") = true
  /\ invoiceService.isIndexError missingIndex = true
  /\ invoiceService.isIndexError unavailable = false.
Proof. repeat split; reflexivity. Qed.

Example Array_sort_stable :
  Array_sort (fun a b => inject_Z (fst b - fst a)) [(1, "x"); (3, "y"); (1, "z"); (2, "w")]
  = [(3, "y"); (2, "w"); (1, "x"); (1, "z")].
Proof. reflexivity. Qed.

(** ** Keys and collections *)

Lemma ascii_compare_refl (a : ascii) : Ascii.compare a a = Eq.
Proof. unfold Ascii.compare. apply N.compare_refl. Qed.

Lemma string_compare_refl (s : string) : String.compare s s = Eq.
Proof.
  induction s as [|a s IH]; simpl; [reflexivity|].
  now rewrite ascii_compare_refl.
Qed.

Lemma string_compare_Eq (s t : string) : String.compare s t = Eq <-> s = t.
Proof.
  split; [apply String.compare_eq_iff | intros ->; apply string_compare_refl].
Qed.

Section CollectionFacts.

Context {V : Type}.
Implicit Types (c : list (string * V)) (k : string) (v : V).

Lemma get_set_same k v c : get String.compare k (set String.compare k v c) = Some v.
Proof.
  induction c as [|[k' v'] c IH]; simpl.
  - now rewrite string_compare_refl.
  - destruct (String.compare k k') eqn:E; simpl.
    + now rewrite string_compare_refl.
    + now rewrite string_compare_refl.
    + now rewrite E.
Qed.

Lemma get_set_other k k' v c :
  k' <> k -> get String.compare k' (set String.compare k v c) = get String.compare k' c.
Proof.
  intros Hne.
  assert (Hk : String.compare k' k <> Eq) by (now rewrite string_compare_Eq).
  induction c as [|[k0 v0] c IH]; simpl.
  - now destruct (String.compare k' k).
  - destruct (String.compare k k0) eqn:E; simpl.
    + apply string_compare_Eq in E. subst k0.
      now destruct (String.compare k' k).
    + now destruct (String.compare k' k).
    + now rewrite IH.
Qed.

Lemma get_In k v c : get String.compare k c = Some v -> In (k, v) c.
Proof.
  induction c as [|[k' v'] c IH]; simpl; [discriminate|].
  destruct (String.compare k k') eqn:E; intros H.
  - apply string_compare_Eq in E. injection H as ->. subst. now left.
  - right. now apply IH.
  - right. now apply IH.
Qed.

End CollectionFacts.

(** ** Printing the counter *)

Lemma filler_zero (n : nat) :
  JS.filler "0" "0" n = NilEmpty.string_of_uint (Nat.iter n D0 Nil)
  /\ JS.filler "0" EmptyString n = NilEmpty.string_of_uint (Nat.iter n D0 Nil).
Proof.
  induction n as [|n [IH0 IH1]]; simpl; [split; reflexivity|].
  now rewrite IH1.
Qed.

Lemma string_of_uint_zeros (k : nat) (d : uint) :
  NilEmpty.string_of_uint (Nat.iter k D0 d)
  = NilEmpty.string_of_uint (Nat.iter k D0 Nil) ++ NilEmpty.string_of_uint d.
Proof. induction k as [|k IH]; simpl; [reflexivity | now rewrite IH]. Qed.

(** Padding digits puts zeros in front of them. *)
Lemma padStart_digits (d : uint) :
  exists k, JS.padStart 3 "0" (NilEmpty.string_of_uint d)
            = NilEmpty.string_of_uint (Nat.iter k D0 d).
Proof.
  unfold JS.padStart.
  destruct (3 <=? String.length (NilEmpty.string_of_uint d))%nat.
  - now exists 0%nat.
  - exists (3 - String.length (NilEmpty.string_of_uint d))%nat.
    rewrite string_of_uint_zeros. f_equal. apply filler_zero.
Qed.

Lemma toString_pos (p : positive) :
  JS.toString (Z.pos p) = NilEmpty.string_of_uint (Pos.to_uint p).
Proof.
  unfold JS.toString. simpl.
  pose proof (DecimalPos.Unsigned.to_uint_nonnil p) as H.
  now destruct (Pos.to_uint p).
Qed.

Lemma of_uint_zeros (k : nat) (d : uint) : Z.of_uint (Nat.iter k D0 d) = Z.of_uint d.
Proof. induction k as [|k IH]; simpl; [reflexivity | exact IH]. Qed.

Lemma afterLastSlash_digits (d : uint) :
  afterLastSlash (NilEmpty.string_of_uint d) = None.
Proof. induction d; simpl; try rewrite IHd; reflexivity. Qed.

Lemma afterLastSlash_app (pre t : string) :
  afterLastSlash t = None -> afterLastSlash (pre ++ String "/" t) = Some t.
Proof.
  intros Ht. induction pre as [|a pre IH]; cbn [append afterLastSlash].
  - now rewrite Ht.
  - now rewrite IH.
Qed.

Lemma string_of_uint_nonempty (d : uint) :
  d <> Nil -> NilEmpty.string_of_uint d <> EmptyString.
Proof. destruct d; simpl; congruence. Qed.

(** The suffix of a minted number reads back as the number. *)
Lemma invoiceSuffix_format (year n : Z) :
  0 < n -> invoiceSuffix (invoiceService.formatInvoiceNumber year n) = Some n.
Proof.
  intros Hn. destruct n as [|p|p]; try lia.
  unfold invoiceService.formatInvoiceNumber, invoiceSuffix.
  rewrite toString_pos.
  destruct (padStart_digits (Pos.to_uint p)) as [k ->].
  change ("BILL/" ++ JS.slice (-2) (JS.toString year) ++ "/"
            ++ NilEmpty.string_of_uint (Nat.iter k D0 (Pos.to_uint p)))
    with (String "B" (String "I" (String "L" (String "L" (String "/"
            (JS.slice (-2) (JS.toString year)
               ++ String "/" (NilEmpty.string_of_uint (Nat.iter k D0 (Pos.to_uint p))))))))).
  cbn [afterLastSlash].
  rewrite afterLastSlash_app by apply afterLastSlash_digits.
  assert (Hne : Nat.iter k D0 (Pos.to_uint p) <> Nil).
  { destruct k; simpl; [apply DecimalPos.Unsigned.to_uint_nonnil | discriminate]. }
  unfold NilZero.uint_of_string.
  destruct (NilEmpty.string_of_uint (Nat.iter k D0 (Pos.to_uint p))) eqn:E.
  - now apply string_of_uint_nonempty in E.
  - rewrite <- E, NilEmpty.usu. simpl.
    rewrite of_uint_zeros. unfold Z.of_uint.
    now rewrite DecimalPos.Unsigned.of_to.
Qed.

(** ** One call of [createInvoice] *)

Lemma txForEach_items (ref : string) (ids : nat -> string) (l : list InvoiceItem) :
  forall i : nat,
  exists ws',
    Forall (fun w => match w with SetItem _ _ _ => True | _ => False end) ws'
    /\ forall (s : Store) (ws : list Write),
         txForEach (fun i item => txSet (SetItem ref (ids i) item)) i l s ws
         = (tt, (ws ++ ws')%list).
Proof.
  induction l as [|x l IH]; intros i.
  - exists []. split; [constructor|]. intros s ws. simpl. now rewrite app_nil_r.
  - destruct (IH (S i)) as (ws' & F & E).
    exists (SetItem ref (ids i) x :: ws'). split; [now constructor|].
    intros s ws. simpl. unfold txBind, txSet at 1.
    rewrite E, <- app_assoc. reflexivity.
Qed.

Lemma applyWrite_items (ws : list Write) :
  Forall (fun w => match w with SetItem _ _ _ => True | _ => False end) ws ->
  forall s, counter (fold_left applyWrite ws s) = counter s
            /\ invoices (fold_left applyWrite ws s) = invoices s.
Proof.
  induction 1 as [|w ws Hw _ IH]; intros s; simpl; [now split|].
  destruct w; try contradiction.
  destruct (IH (applyWrite s (SetItem parent ref item))) as [-> ->]. now split.
Qed.

(** What the transaction function of a call buffers: the header, the items,
    the counter, with the number read off the counter document. *)
Lemma transactionOf_writes (c : CreateCall) :
  exists (header : Z -> InvoiceDoc) (itemWrites : list Write),
    Forall (fun w => match w with SetItem _ _ _ => True | _ => False end) itemWrites
    /\ (forall s,
           transactionOf c s []
           = (autoInvoiceId (callEnv c),
              SetInvoice (autoInvoiceId (callEnv c))
                (header (invoiceService.nextNumberOf (counter s)))
              :: itemWrites
              ++ [SetCounter
                    {| lastInvoiceNumber :=
                         VNumber (invoiceService.nextNumberOf (counter s)) |}])%list)
    /\ (forall n,
           invoiceNumber (header n)
           = invoiceService.formatInvoiceNumber (yearNow (callEnv c)) n
           /\ subTotal (header n)
              = invoiceService.sumTotals (map invoiceService.calculatedItem (callItems c))
           /\ discountType (header n) = callDiscountType c
           /\ discountValue (header n) = callDiscountValue c
           /\ discountAmount (header n)
              = invoiceService.discountOf (subTotal (header n))
                  (callDiscountType c) (callDiscountValue c)
           /\ grandTotal (header n)
              = Num.max (Num 0) (subTotal (header n) - discountAmount (header n))%js
           /\ createdAt (header n) = timestampNow (callEnv c)
           /\ userId (header n) = callUser c).
Proof.
  destruct (txForEach_items (autoInvoiceId (callEnv c)) (autoItemId (callEnv c))
              (map invoiceService.calculatedItem (callItems c)) 0)
    as (ws' & F & E).
  exists (fun n =>
            {| invoiceNumber := invoiceService.formatInvoiceNumber (yearNow (callEnv c)) n;
               invoiceDate := callDate c;
               customerName := JS.orString (callCustomer c) "Unknown Customer";
               customerAddress := JS.orUndefString (callAddress c) EmptyString;
               customerPhone := JS.orUndefString (callPhone c) EmptyString;
               currencySymbol := match callCurrency c with Some x => x | None => "₹" end;
               subTotal :=
                 invoiceService.sumTotals (map invoiceService.calculatedItem (callItems c));
               discountType := callDiscountType c;
               discountValue := callDiscountValue c;
               discountAmount :=
                 invoiceService.discountOf
                   (invoiceService.sumTotals
                      (map invoiceService.calculatedItem (callItems c)))
                   (callDiscountType c) (callDiscountValue c);
               grandTotal :=
                 Num.max (Num 0)
                   (invoiceService.sumTotals
                      (map invoiceService.calculatedItem (callItems c))
                    - invoiceService.discountOf
                        (invoiceService.sumTotals
                           (map invoiceService.calculatedItem (callItems c)))
                        (callDiscountType c) (callDiscountValue c))%js;
               createdAt := timestampNow (callEnv c);
               userId := callUser c |}), ws'.
  split; [exact F|]. split.
  - intros s. unfold transactionOf, invoiceService.createInvoiceTransaction.
    unfold txBind at 1. unfold txGetCounter at 1.
    unfold txBind at 1. unfold txSet at 1.
    unfold txBind at 1. rewrite E.
    unfold txBind, txSet, txRet. cbn [app]. rewrite <- app_assoc. reflexivity.
  - intros n. cbn. repeat split; reflexivity.
Qed.

Lemma runCreate_abort (c : CreateCall) (s : Store) (e : JsError) :
  callOutcome c = Some e -> runCreate c s = (Err e, s).
Proof.
  intros H. unfold runCreate, invoiceService.createInvoice, tryCatch, runTransaction, await.
  simpl. now rewrite H.
Qed.

Lemma runCreate_transactionOf (c : CreateCall) (s : Store) :
  callOutcome c = None ->
  runCreate c s
  = (Ok (fst (transactionOf c s [])), fold_left applyWrite (snd (transactionOf c s [])) s).
Proof.
  intros H. unfold runCreate, invoiceService.createInvoice, tryCatch, runTransaction, await.
  cbn [faults store]. rewrite H. fold (transactionOf c).
  now destruct (transactionOf c s []).
Qed.

Lemma runCreate_commit (c : CreateCall) (s : Store) :
  callOutcome c = None ->
  exists d its,
    runCreate c s
    = (Ok (autoInvoiceId (callEnv c)),
       {| counter :=
            Some {| lastInvoiceNumber := VNumber (invoiceService.nextNumberOf (counter s)) |};
          invoices := set String.compare (autoInvoiceId (callEnv c)) d (invoices s);
          items := its |})
    /\ invoiceNumber d
       = invoiceService.formatInvoiceNumber (yearNow (callEnv c))
           (invoiceService.nextNumberOf (counter s))
    /\ subTotal d
       = invoiceService.sumTotals (map invoiceService.calculatedItem (callItems c))
    /\ discountType d = callDiscountType c
    /\ discountValue d = callDiscountValue c
    /\ discountAmount d
       = invoiceService.discountOf (subTotal d) (callDiscountType c) (callDiscountValue c)
    /\ grandTotal d = Num.max (Num 0) (subTotal d - discountAmount d)%js
    /\ createdAt d = timestampNow (callEnv c)
    /\ userId d = callUser c.
Proof.
  intros H. rewrite (runCreate_transactionOf c s H).
  destruct (transactionOf_writes c) as (header & ws' & F & E & Hh).
  rewrite E. cbn [fst snd fold_left]. rewrite fold_left_app. cbn [fold_left].
  match goal with
  | |- context [fold_left applyWrite ws' ?s0] =>
      destruct (applyWrite_items ws' F s0) as [Ec Ei]; set (s1 := s0) in *
  end.
  exists (header (invoiceService.nextNumberOf (counter s))). eexists. split.
  - cbn [applyWrite]. unfold withCounter. rewrite Ei. subst s1.
    cbn [applyWrite withInvoices invoices]. reflexivity.
  - apply Hh.
Qed.

(** ** Sequences of calls *)

Lemma orZero_Some (n : Z) : orZero (Some n) = n.
Proof. unfold orZero. destruct (Z.eqb_spec n 0); congruence. Qed.

Lemma nextNumberOf_lastIssued (s : Store) :
  invoiceService.nextNumberOf (counter s) = lastIssued s + 1.
Proof. unfold lastIssued, invoiceService.nextNumberOf. now destruct (counter s). Qed.

Lemma lastIssued_commit (c : CreateCall) (s : Store) :
  callOutcome c = None -> lastIssued (snd (runCreate c s)) = lastIssued s + 1.
Proof.
  intros H. destruct (runCreate_commit c s H) as (d & its & -> & _).
  rewrite nextNumberOf_lastIssued.
  unfold lastIssued at 1. cbn [snd counter lastInvoiceNumber Number].
  apply orZero_Some.
Qed.

Lemma numberOf_commit (c : CreateCall) (s : Store) :
  callOutcome c = None ->
  numberOf c (snd (runCreate c s))
  = Some (invoiceService.formatInvoiceNumber (yearNow (callEnv c)) (lastIssued s + 1)).
Proof.
  intros H. destruct (runCreate_commit c s H) as (d & its & -> & Hn & _).
  unfold numberOf, headerOf. cbn [snd invoices].
  rewrite get_set_same. cbn [option_map]. now rewrite Hn, nextNumberOf_lastIssued.
Qed.

(** A call leaves the headers under other ids as they are. *)
Lemma runCreate_frame (c : CreateCall) (s : Store) (k : string) :
  k <> autoInvoiceId (callEnv c) ->
  get String.compare k (invoices (snd (runCreate c s))) = get String.compare k (invoices s).
Proof.
  intros Hk. destruct (callOutcome c) as [e|] eqn:H.
  - now rewrite (runCreate_abort c s e H).
  - destruct (runCreate_commit c s H) as (d & its & -> & _).
    cbn [snd invoices]. now apply get_set_other.
Qed.

Lemma runCreates_frame (cs : list CreateCall) (k : string) :
  ~ In k (committedIds cs) ->
  forall s, get String.compare k (invoices (runCreates cs s)) = get String.compare k (invoices s).
Proof.
  unfold committedIds, committed, runCreates.
  induction cs as [|c cs IH]; intros Hk s; [reflexivity|].
  cbn [fold_left]. cbn [filter] in Hk.
  destruct (commits c) eqn:Hc.
  - cbn [map] in Hk. rewrite IH by (intros Hin; apply Hk; now right).
    apply runCreate_frame. intros ->. apply Hk. now left.
  - rewrite IH by exact Hk.
    unfold commits in Hc. destruct (callOutcome c) as [e|] eqn:H; [|discriminate].
    now rewrite (runCreate_abort c s e H).
Qed.

(** The committed calls receive the numbers that follow the counter, in the
    order of their commits, and the counter ends on the last of them. *)
Lemma runCreates_numbers (cs : list CreateCall) :
  NoDup (committedIds cs) ->
  forall s,
    mintedNumbers cs (runCreates cs s)
    = map Some (expectedNumbers (lastIssued s) (committed cs))
    /\ lastIssued (runCreates cs s) = lastIssued s + Z.of_nat (List.length (committed cs)).
Proof.
  unfold mintedNumbers, committedIds, committed.
  induction cs as [|c cs IH]; intros Hnd s.
  - cbn. split; [reflexivity | lia].
  - cbn [filter] in *. change (runCreates (c :: cs) s) with (runCreates cs (snd (runCreate c s))).
    destruct (commits c) eqn:Hc.
    + assert (H : callOutcome c = None).
      { unfold commits in Hc. now destruct (callOutcome c). }
      cbn [map] in Hnd. inversion Hnd as [|k l Hnotin Hnd']; subst.
      destruct (IH Hnd' (snd (runCreate c s))) as [IHn IHc].
      rewrite lastIssued_commit in IHn, IHc by exact H.
      cbn [map expectedNumbers List.length]. split.
      * f_equal; [|exact IHn].
        unfold numberOf, headerOf.
        rewrite (runCreates_frame cs _ Hnotin).
        apply (numberOf_commit c s H).
      * rewrite IHc. lia.
    + assert (H : exists e, callOutcome c = Some e).
      { unfold commits in Hc. destruct (callOutcome c) as [e|]; [now exists e | discriminate]. }
      destruct H as [e H]. rewrite (runCreate_abort c s e H). cbn [snd].
      now apply IH.
Qed.

Lemma expectedNumbers_suffix (cs : list CreateCall) :
  forall K, 0 <= K ->
  map invoiceSuffix (expectedNumbers K cs) = map Some (run K (List.length cs)).
Proof.
  unfold run.
  induction cs as [|c cs IH]; intros K HK; [reflexivity|].
  cbn [expectedNumbers List.length seq map].
  rewrite invoiceSuffix_format by lia. f_equal; [f_equal; lia|].
  rewrite IH by lia. rewrite <- seq_shift, !map_map.
  apply map_ext. intros i. f_equal. lia.
Qed.

Lemma run_NoDup (K : Z) (n : nat) : NoDup (run K n).
Proof.
  unfold run. generalize 0%nat as b. induction n as [|n IH]; intros b; cbn [seq map].
  - constructor.
  - constructor; [|apply IH].
    rewrite in_map_iff. intros (i & Hi & Hin). apply in_seq in Hin. lia.
Qed.

Lemma commits_None (c : CreateCall) : commits c = true <-> callOutcome c = None.
Proof. unfold commits. destruct (callOutcome c); split; congruence. Qed.

(** C1, as the code has it.  Take any calls of [createInvoice], by any
    owners, in the order in which the store serialises their transactions,
    some committing and some failing, from a store whose counter reads [K],
    the [N] calls that commit not leading it beyond [2^53], up to where
    adding 1 to a double is exact.  The numbers of the calls that commit are
    pairwise different, their numeric suffixes are [K+1, ..., K+N], the
    counter ends at [K+N], and a call whose transaction fails leaves the
    store, the counter with it, as it was. *)
Theorem createInvoice_numbers_contiguous (K : Z) (cs : list CreateCall) (s : Store) :
  0 <= K ->
  K + Z.of_nat (List.length (committed cs)) <= JS.twoTo53 ->
  lastIssued s = K ->
  NoDup (committedIds cs) ->
  (exists nums : list string,
      mintedNumbers cs (runCreates cs s) = map Some nums
      /\ NoDup nums
      /\ map invoiceSuffix nums = map Some (run K (List.length (committed cs))))
  /\ lastIssued (runCreates cs s) = K + Z.of_nat (List.length (committed cs))
  /\ (forall c s0 e, In c cs -> callOutcome c = Some e -> runCreate c s0 = (Err e, s0)).
Proof.
  intros HK _ Hs Hnd.
  destruct (runCreates_numbers cs Hnd s) as [Hn Hc]. rewrite Hs in Hn, Hc.
  split; [|split; [exact Hc | intros c s0 e _; apply runCreate_abort]].
  exists (expectedNumbers K (committed cs)).
  pose proof (expectedNumbers_suffix (committed cs) K HK) as Hsuf.
  split; [exact Hn | split; [|exact Hsuf]].
  apply (NoDup_map_inv invoiceSuffix). rewrite Hsuf.
  apply NoDup_map_NoDup_ForallPairs; [|apply run_NoDup].
  intros a b _ _; congruence.
Qed.

Lemma lastIssued_counter (s : Store) (K : Z) :
  counter s = Some {| lastInvoiceNumber := VNumber K |} -> lastIssued s = K.
Proof. intros H. unfold lastIssued. rewrite H. apply orZero_Some. Qed.

Lemma createInvoice_numbers_contiguous_witness :
  let s := withCounter (Some {| lastInvoiceNumber := VNumber 41 |}) emptyStore in
  (exists nums : list string,
      mintedNumbers sampleCalls (runCreates sampleCalls s) = map Some nums
      /\ NoDup nums
      /\ map invoiceSuffix nums = map Some (run 41 (List.length (committed sampleCalls))))
  /\ lastIssued (runCreates sampleCalls s)
     = 41 + Z.of_nat (List.length (committed sampleCalls))
  /\ (forall c s0 e,
         In c sampleCalls -> callOutcome c = Some e -> runCreate c s0 = (Err e, s0)).
Proof.
  intros s.
  apply (createInvoice_numbers_contiguous 41 sampleCalls s).
  - lia.
  - vm_compute. discriminate.
  - reflexivity.
  - repeat constructor; simpl; intuition discriminate.
Defined.

Example sampleCalls_numbers :
  mintedNumbers sampleCalls (runCreates sampleCalls emptyStore)
  = [Some "BILL/25/001"; Some "BILL/26/002"]
  /\ map invoiceSuffix ["BILL/25/001"; "BILL/26/002"] = [Some 1; Some 2]
  /\ counter (runCreates sampleCalls emptyStore) = Some {| lastInvoiceNumber := VNumber 2 |}.
Proof. repeat split; reflexivity. Qed.

(** ** Totals *)


(** Two units at 100 and one at 50 with a 10 percent discount, on binary64
    numbers: the results are the doubles 250, 25 and 225. *)
Module Binary64Facts.

Import PrimFloat.

Example scenario_binary64 :
  Binary64.totals [(2, 100); (1, 50)]%float true 10%float = (250, 25, 225)%float.
Proof. reflexivity. Qed.

Example max_zero_negative : Binary64.max 0%float (-95)%float = 0%float.
Proof. reflexivity. Qed.

(** On doubles the grouping of the percentage matters in the last bit; the
    program divides the discount value by 100 first. *)
Example grouping_binary64 :
  Binary64.totals [(3, 1)]%float true 10%float
  = (3, 0x1.3333333333334p-2, 0x1.599999999999ap+1)%float   (* 0.30000000000000004, 2.7 *)
  /\ (3 * 10 / 100 =? 0x1.3333333333334p-2)%float = false
  /\ (3 * 10 / 100 =? 0x1.3333333333333p-2)%float = true.        (* 0.3 *)
Proof. repeat split; reflexivity. Qed.

End Binary64Facts.

Lemma or_zero_Num (a : jsnum) :
  exists x, Num.or a (Num 0) = Num x /\ (notNegative a -> (0 <= x)%Q).
Proof.
  destruct a as [x|]; unfold Num.or; cbn.
  - destruct (Qeq_bool x 0); cbn; [exists 0%Q | exists x]; split; auto.
    intros _. apply Qle_refl.
  - exists 0%Q. split; [reflexivity | intros _; apply Qle_refl].
Qed.

(** ** Amounts on doubles *)

Section Doubles.

Import PrimFloat SpecFloat FloatOps FloatAxioms.

















(** The amounts of the header a committed call stores and the amounts on
    doubles are one computation, over the exact numbers and over the
    doubles. *)
Lemma totals_same_operations :
  (forall (c : CreateCall) (s : Store),
      callOutcome c = None ->
      exists d : InvoiceDoc,
        headerOf c (snd (runCreate c s)) = Some d
        /\ (subTotal d, discountAmount d, grandTotal d)
           = totalsOver exactArith
               (map (fun item => (quantity item, price item)) (callItems c))
               (match callDiscountType c with percentage => true | fixed => false end)
               (callDiscountValue c))
  /\ (forall (items_ : list (float * float)) (percent : bool) (discountValue_ : float),
         Binary64.totals items_ percent discountValue_
         = totalsOver binary64Arith items_ percent discountValue_).
Proof.
  split; [|reflexivity].
  intros c s H.
  destruct (runCreate_commit c s H)
    as (d & its & E & _ & Hst & _ & _ & Hda & Hgt & _).
  exists d. unfold headerOf. rewrite E. cbn [snd invoices]. rewrite get_set_same.
  split; [reflexivity|].
  assert (Hsub : subTotal d
                 = fst (fst (totalsOver exactArith
                               (map (fun item => (quantity item, price item)) (callItems c))
                               (match callDiscountType c with
                                | percentage => true | fixed => false end)
                               (callDiscountValue c)))).
  { rewrite Hst. unfold totalsOver, invoiceService.sumTotals. cbn [fst snd exactArith
      arithZero arithAdd arithOr arithMul].
    assert (Hfold : forall (l : list InvoiceItem) (acc : jsnum),
               fold_left (fun a curr => (a + total curr)%js)
                 (map invoiceService.calculatedItem l) acc
               = fold_left (fun a (curr : jsnum * jsnum * jsnum) => (a + snd curr)%js)
                   (map (fun item : jsnum * jsnum =>
                           (Num.or (fst item) (Num 0), Num.or (snd item) (Num 0),
                            (Num.or (fst item) (Num 0) * Num.or (snd item) (Num 0))%js))
                      (map (fun item => (quantity item, price item)) l)) acc).
    { induction l as [|item l IH]; intros acc; cbn [map fold_left]; [reflexivity|].
      rewrite IH. reflexivity. }
    apply Hfold. }
  unfold totalsOver in *. cbn [fst snd] in Hsub.
  rewrite Hgt, Hda, Hsub.
  destruct (callDiscountType c); reflexivity.
Qed.




(** Overflow: a quantity near the largest double at the price 10 gives
    [Infinity] as total and subtotal; a discount of 50 percent is then
    [Infinity] too and the grand total [NaN]; a discount of 0 percent is
    [NaN] itself. *)
Example createInvoice_amounts_overflow :
  Binary64.totals [(0x1p1023, 10)]%float true 50%float = (infinity, infinity, nan)
  /\ Binary64.totals [(0x1p1023, 10)]%float true 0%float = (infinity, nan, nan).
Proof. split; reflexivity. Qed.

(** C1 as stated fails from [2^53] on: there the double of the counter no
    longer moves when 1 is added, and two calls that commit one after the
    other are both given 9007199254740992.  One below, the counter still
    moves. *)
Lemma createInvoice_numbers_repeat_from_two_to_53 :
  Binary64.minted 2 (Binary64.ofZ JS.twoTo53)
  = [Binary64.ofZ JS.twoTo53; Binary64.ofZ JS.twoTo53]
  /\ Binary64.ofZ JS.twoTo53 = 9007199254740992%float
  /\ invoiceService.formatInvoiceNumber 2025 JS.twoTo53 = "BILL/25/9007199254740992"
  /\ Binary64.minted 2 (Binary64.ofZ (JS.twoTo53 - 2))
     = [Binary64.ofZ (JS.twoTo53 - 1); Binary64.ofZ JS.twoTo53].
Proof. repeat split; reflexivity. Qed.

End Doubles.


(** ** The counter document *)

Lemma runCreates_lastIssued (cs : list CreateCall) :
  forall s, lastIssued (runCreates cs s) = lastIssued s + Z.of_nat (List.length (committed cs)).
Proof.
  unfold committed.
  induction cs as [|c cs IH]; intros s; [cbn; lia|].
  change (runCreates (c :: cs) s) with (runCreates cs (snd (runCreate c s))).
  rewrite IH. cbn [filter]. destruct (commits c) eqn:Hc.
  - apply commits_None in Hc. rewrite lastIssued_commit by exact Hc.
    cbn [List.length]. lia.
  - unfold commits in Hc. destruct (callOutcome c) as [e|] eqn:H; [|discriminate].
    now rewrite (runCreate_abort c s e H).
Qed.

Lemma applyWrite_items_agree (ws : list Write) :
  Forall (fun w => match w with SetItem _ _ _ => True | _ => False end) ws ->
  forall s1 s2,
    invoices s1 = invoices s2 -> items s1 = items s2 ->
    invoices (fold_left applyWrite ws s1) = invoices (fold_left applyWrite ws s2)
    /\ items (fold_left applyWrite ws s1) = items (fold_left applyWrite ws s2).
Proof.
  induction 1 as [|w ws Hw _ IH]; intros s1 s2 Hi Ht; cbn [fold_left]; [now split|].
  destruct w; try contradiction.
  apply IH; cbn; congruence.
Qed.

(** A committed call reads the store's counter only through [nextNumberOf]. *)
Lemma runCreate_same_next (c : CreateCall) (s1 s2 : Store) :
  callOutcome c = None ->
  invoiceService.nextNumberOf (counter s1) = invoiceService.nextNumberOf (counter s2) ->
  invoices s1 = invoices s2 ->
  items s1 = items s2 ->
  runCreate c s1 = runCreate c s2.
Proof.
  intros H Hn Hi Ht. rewrite !runCreate_transactionOf by exact H.
  destruct (transactionOf_writes c) as (header & ws' & F & E & _).
  rewrite !E, Hn. cbn [fst snd fold_left]. rewrite !fold_left_app. cbn [fold_left].
  f_equal. cbn [applyWrite]. unfold withCounter.
  f_equal;
    [ refine (proj1 (applyWrite_items_agree ws' F _ _ _ _))
    | refine (proj2 (applyWrite_items_agree ws' F _ _ _ _)) ];
    cbn [applyWrite withInvoices invoices items]; congruence.
Qed.

(** C6.  In 2025 the first committed call on a store without a counter
    document is given "BILL/25/001", and the call that follows 999 committed
    ones is given "BILL/25/1000": the padding to three digits cuts nothing. *)
Theorem createInvoice_first_and_thousandth
    (cs : list CreateCall) (c : CreateCall) (s : Store) :
  counter s = None ->
  callOutcome c = None ->
  yearNow (callEnv c) = 2025 ->
  (committed cs = [] ->
   numberOf c (snd (runCreate c (runCreates cs s))) = Some "BILL/25/001")
  /\ (List.length (committed cs) = 999%nat ->
      numberOf c (snd (runCreate c (runCreates cs s))) = Some "BILL/25/1000").
Proof.
  intros Hs Hc Hy.
  assert (H0 : lastIssued s = 0) by (unfold lastIssued; now rewrite Hs).
  split; intros Hn; rewrite (numberOf_commit _ _ Hc), runCreates_lastIssued, H0, Hn, Hy;
    reflexivity.
Qed.

Lemma createInvoice_first_and_thousandth_witness :
  numberOf (sampleCall 2025 1000 "a" "u1" scenarioItems fixed 0 None)
    (snd (runCreate (sampleCall 2025 1000 "a" "u1" scenarioItems fixed 0 None)
            (runCreates [] emptyStore)))
  = Some "BILL/25/001"
  /\ numberOf (sampleCall 2025 1000 "a" "u1" scenarioItems fixed 0 None)
       (snd (runCreate (sampleCall 2025 1000 "a" "u1" scenarioItems fixed 0 None)
               (runCreates
                  (repeat (sampleCall 2025 500 "b" "u2" [] fixed 0 None) 999)
                  emptyStore)))
     = Some "BILL/25/1000".
Proof.
  split.
  - apply (createInvoice_first_and_thousandth []
             (sampleCall 2025 1000 "a" "u1" scenarioItems fixed 0 None) emptyStore);
      reflexivity.
  - apply (createInvoice_first_and_thousandth
             (repeat (sampleCall 2025 500 "b" "u2" [] fixed 0 None) 999)
             (sampleCall 2025 1000 "a" "u1" scenarioItems fixed 0 None) emptyStore);
      reflexivity.
Defined.

(** C9, as the code has it.  When the counter document exists and [Number]
    reads its [lastInvoiceNumber] as NaN or as 0 (the field is missing, or
    holds [null], [false], 0, NaN, the string "0", an empty array or a map),
    a call does not fail: it commits exactly as on a store without the
    counter document, is given the suffix "001", and leaves the counter at
    1.  A value that [Number] reads as another number [n] is counted from,
    number or not: the call is given [n + 1] and leaves the counter there. *)
Theorem createInvoice_counter_not_numeric (c : CreateCall) (s : Store) (v : JsValue) :
  callOutcome c = None ->
  let s' := withCounter (Some {| lastInvoiceNumber := v |}) s in
  (Number v = None \/ Number v = Some 0 ->
   runCreate c s' = runCreate c (withCounter None s)
   /\ fst (runCreate c s') = Ok (autoInvoiceId (callEnv c))
   /\ numberOf c (snd (runCreate c s'))
      = Some ("BILL/" ++ JS.slice (-2) (JS.toString (yearNow (callEnv c))) ++ "/001")
   /\ counter (snd (runCreate c s')) = Some {| lastInvoiceNumber := VNumber 1 |})
  /\ (forall n : Z,
         Number v = Some n -> n <> 0 -> - JS.twoTo53 <= n < JS.twoTo53 ->
         fst (runCreate c s') = Ok (autoInvoiceId (callEnv c))
         /\ numberOf c (snd (runCreate c s'))
            = Some (invoiceService.formatInvoiceNumber (yearNow (callEnv c)) (n + 1))
         /\ counter (snd (runCreate c s'))
            = Some {| lastInvoiceNumber := VNumber (n + 1) |}).
Proof.
  intros Hc s'. split.
  - intros Hv.
    assert (Hn : invoiceService.nextNumberOf (counter s') = 1).
    { cbn. destruct Hv as [-> | ->]; reflexivity. }
    split; [apply runCreate_same_next; auto|].
    rewrite (numberOf_commit _ _ Hc).
    destruct (runCreate_commit c s' Hc) as (d & its & -> & _).
    rewrite Hn. repeat split.
    unfold lastIssued. cbn [s' withCounter counter lastInvoiceNumber].
    destruct Hv as [-> | ->]; reflexivity.
  - intros n Hv Hn0 _.
    assert (Hn : invoiceService.nextNumberOf (counter s') = n + 1).
    { cbn. rewrite Hv. now rewrite orZero_Some. }
    assert (Hl : lastIssued s' = n).
    { unfold lastIssued. cbn [s' withCounter counter lastInvoiceNumber]. rewrite Hv.
      apply orZero_Some. }
    rewrite (numberOf_commit _ _ Hc), Hl.
    destruct (runCreate_commit c s' Hc) as (d & its & -> & _).
    rewrite Hn. repeat split.
Qed.

Lemma createInvoice_counter_not_numeric_witness :
  let c := sampleCall 2025 1000 "a" "u1" scenarioItems fixed 0 None in
  let s' := withCounter (Some {| lastInvoiceNumber := VMap |}) emptyStore in
  runCreate c s' = runCreate c (withCounter None emptyStore)
  /\ fst (runCreate c s') = Ok "a"
  /\ numberOf c (snd (runCreate c s')) = Some "BILL/25/001"
  /\ counter (snd (runCreate c s')) = Some {| lastInvoiceNumber := VNumber 1 |}.
Proof.
  intros c.
  apply (createInvoice_counter_not_numeric c emptyStore VMap eq_refl). now left.
Defined.

(** C9 as stated fails on values that are not numbers and that [Number]
    reads as one: with [true] in the counter the call is given "002", with
    the string "12" it is given "013", with the array [[5]] "006"; none of
    them commits as on a store without the counter document. *)
Lemma createInvoice_counts_from_what_Number_reads :
  let c := sampleCall 2025 1000 "a" "u1" scenarioItems fixed 0 None in
  let on v := snd (runCreate c (withCounter (Some {| lastInvoiceNumber := v |}) emptyStore)) in
  numberOf c (on (VBool true)) = Some "BILL/25/002"
  /\ numberOf c (on (VDigits 12)) = Some "BILL/25/013"
  /\ numberOf c (on (VArray [VNumber 5])) = Some "BILL/25/006"
  /\ numberOf c (snd (runCreate c (withCounter None emptyStore))) = Some "BILL/25/001".
Proof. repeat split; reflexivity. Qed.




(** ** The existence check *)

(** C8.  Whatever the owner, the number and the excluded id, when the store
    rejects the query, for whatever reason, [checkInvoiceNumberExists]
    resolves to [false] and the error goes no further. *)
Theorem checkInvoiceNumberExists_fails_open
    (uid n : string) (excludeInvoiceId : option string)
    (s : Store) (e : JsError) (rest : list (option JsError)) :
  invoiceService.checkInvoiceNumberExists uid n excludeInvoiceId
    {| store := s; faults := Some e :: rest |}
  = (Ok false, {| store := s; faults := rest |}).
Proof. reflexivity. Qed.

Example checkInvoiceNumberExists_answers :
  invoiceService.checkInvoiceNumberExists "u1" "BILL/25/002" None
    {| store := duplicateStore; faults := [] |}
  = (Ok true, {| store := duplicateStore; faults := [] |})
  /\ invoiceService.checkInvoiceNumberExists "u1" "BILL/25/002" (Some "a")
       {| store := duplicateStore; faults := [] |}
     = (Ok false, {| store := duplicateStore; faults := [] |})
  /\ invoiceService.checkInvoiceNumberExists "u1" "BILL/25/002" None
       {| store := duplicateStore; faults := [Some unavailable] |}
     = (Ok false, {| store := duplicateStore; faults := [] |}).
Proof. repeat split; reflexivity. Qed.

(** ** Deleting *)

(** C5.  For a header that exists and a caller who is not its owner,
    [deleteInvoice] fails and the store, the header and every item with it,
    is as before; the failure is [Unauthorized] whenever the store answers
    the fetch of the header.  For a header that does not exist the call
    fails with [NotFound]. *)
Theorem deleteInvoice_non_owner
    (invoiceId uid : string) (s : Store) (fs : list (option JsError)) :
  let r := invoiceService.deleteInvoice invoiceId uid {| store := s; faults := fs |} in
  (forall d,
      get String.compare invoiceId (invoices s) = Some d ->
      userId d <> uid ->
      (exists e, fst r = Err e /\ (answered fs -> e = UnauthorizedDelete))
      /\ store (snd r) = s)
  /\ (get String.compare invoiceId (invoices s) = None ->
      answered fs ->
      fst r = Err NotFound /\ store (snd r) = s).
Proof.
  intros r. subst r.
  unfold invoiceService.deleteInvoice, tryCatch, bind, await, getDoc, throw.
  cbn [faults store]. split.
  - intros d Hd Hne. apply String.eqb_neq in Hne.
    destruct fs as [|[e|] rest]; cbn [fst snd store answered];
      try rewrite Hd; try rewrite Hne; cbn [negb fst snd store].
    + split; [exists UnauthorizedDelete; now split | reflexivity].
    + split; [exists e; split; [reflexivity | intros []] | reflexivity].
    + split; [exists UnauthorizedDelete; now split | reflexivity].
  - intros Hd Ha.
    destruct fs as [|[e|] rest]; cbn [answered] in Ha; try contradiction;
      rewrite Hd; now split.
Qed.

Lemma deleteInvoice_non_owner_witness :
  fst (invoiceService.deleteInvoice "a" "u2" {| store := duplicateStore; faults := [] |})
  = Err UnauthorizedDelete
  /\ store (snd (invoiceService.deleteInvoice "a" "u2"
                   {| store := duplicateStore; faults := [] |})) = duplicateStore
  /\ fst (invoiceService.deleteInvoice "zz" "u2" {| store := duplicateStore; faults := [] |})
     = Err NotFound.
Proof.
  destruct (deleteInvoice_non_owner "a" "u2" duplicateStore []) as [Ha _].
  destruct (deleteInvoice_non_owner "zz" "u2" duplicateStore []) as [_ Hz].
  destruct (Ha _ eq_refl) as [(e & He & Hu) Hs]; [discriminate|].
  rewrite (Hu I) in He. destruct (Hz eq_refl I) as [Hz1 _].
  repeat split; assumption.
Defined.

Example deleteInvoice_owner :
  let r := invoiceService.deleteInvoice "a" "u1" {| store := duplicateStore; faults := [] |} in
  fst r = Ok tt
  /\ map fst (invoices (store (snd r))) = ["b"]
  /\ map fst (items (store (snd r))) = [("b", "item0"); ("b", "item1")].
Proof. repeat split; reflexivity. Qed.

(** ** Renaming *)

Section Rename.

Variables (invoiceId uid newInvoiceNumber : string) (s : Store) (d : InvoiceDoc).
Hypothesis Hexists : get String.compare invoiceId (invoices s) = Some d.
Hypothesis Howner : userId d = uid.

Let matches : list (string * InvoiceDoc) :=
  whereInvoiceNumber newInvoiceNumber (whereUserId uid (invoices s)).

Let w : World := {| store := s; faults := [] |}.

(** When the first header the query returns is another one, the rename fails
    with [DuplicateNumber] and writes nothing. *)
Lemma updateInvoiceNumber_first_match_other (doc0 : string * InvoiceDoc) rest :
  matches = doc0 :: rest ->
  fst doc0 <> invoiceId ->
  invoiceService.updateInvoiceNumber invoiceId uid newInvoiceNumber w
  = (Err DuplicateNumber, w).
Proof.
  intros Hm Hne. apply String.eqb_neq in Hne.
  unfold invoiceService.updateInvoiceNumber, tryCatch, bind, await, getDoc, getDocs, throw.
  cbn [w faults store]. rewrite Hexists, Howner, String.eqb_refl. cbn [negb faults store].
  fold matches. rewrite Hm, Hne. reflexivity.
Qed.

(** When no other header of the caller carries the number, the rename
    succeeds and the header carries the new number. *)
Lemma updateInvoiceNumber_no_other :
  (forall k d', In (k, d') (invoices s) -> userId d' = uid ->
                invoiceNumber d' = newInvoiceNumber -> k = invoiceId) ->
  exists s',
    invoiceService.updateInvoiceNumber invoiceId uid newInvoiceNumber w
    = (Ok tt, {| store := s'; faults := [] |})
    /\ get String.compare invoiceId (invoices s')
       = Some (withInvoiceNumber newInvoiceNumber d).
Proof.
  intros Hno.
  unfold invoiceService.updateInvoiceNumber, tryCatch, bind, await, getDoc, getDocs, throw.
  cbn [w faults store]. rewrite Hexists, Howner, String.eqb_refl. cbn [negb faults store].
  fold matches.
  assert (Hhd : match matches with
                | [] => false
                | doc0 :: _ => negb (String.eqb (fst doc0) invoiceId)
                end = false).
  { destruct matches as [|[k d'] rest] eqn:Em; [reflexivity|].
    assert (Hin : In (k, d') matches) by (rewrite Em; now left).
    unfold matches, whereInvoiceNumber, whereUserId in Hin.
    rewrite !filter_In in Hin. destruct Hin as [[Hin Hu] Hn]. cbn [snd] in Hu, Hn.
    apply String.eqb_eq in Hu, Hn.
    rewrite (Hno k d' Hin Hu Hn). cbn [fst]. now rewrite String.eqb_refl. }
  rewrite Hhd. unfold ret, updateDoc. cbn [store]. rewrite Hexists.
  eexists. split; [reflexivity|]. cbn [invoices withInvoices]. apply get_set_same.
Qed.

End Rename.

(** C3, where the code departs from it.  In [duplicateStore] the header "b"
    of owner "u1" carries "BILL/25/002"; renaming the same owner's header "a"
    to "BILL/25/002" nevertheless succeeds, because the query returns "a"
    itself first and only the first match is compared with the renamed id. *)
Theorem updateInvoiceNumber_checks_first_match_only :
  (exists da db,
      get String.compare "a" (invoices duplicateStore) = Some da
      /\ get String.compare "b" (invoices duplicateStore) = Some db
      /\ userId da = "u1" /\ userId db = "u1"
      /\ invoiceNumber db = "BILL/25/002")
  /\ map fst (whereInvoiceNumber "BILL/25/002" (whereUserId "u1" (invoices duplicateStore)))
     = ["a"; "b"]
  /\ invoiceService.updateInvoiceNumber "a" "u1" "BILL/25/002"
       {| store := duplicateStore; faults := [] |}
     = (Ok tt, {| store := duplicateStore; faults := [] |})
  /\ invoiceService.updateInvoiceNumber "b" "u1" "BILL/25/002"
       {| store := duplicateStore; faults := [] |}
     = (Err DuplicateNumber, {| store := duplicateStore; faults := [] |}).
Proof.
  split; [do 2 eexists; repeat split; reflexivity|].
  repeat split; reflexivity.
Qed.

(** ** Sorting *)

Section StableSortFacts.

Context {A : Type} (key : A -> Z).

Lemma insertSorted_perm (after : A -> A -> bool) (x : A) (l : list A) :
  Permutation (insertSorted after x l) (x :: l).
Proof.
  induction l as [|y l IH]; cbn [insertSorted]; [reflexivity|].
  destruct (after x y); [|reflexivity].
  rewrite IH. apply perm_swap.
Qed.

Lemma stableSort_perm (after : A -> A -> bool) (l : list A) :
  Permutation (stableSort after l) l.
Proof.
  induction l as [|x l IH]; cbn [stableSort fold_right]; [reflexivity|].
  fold (stableSort after l). rewrite insertSorted_perm. now constructor.
Qed.

Lemma insertSorted_sorted (after : A -> A -> bool) (x : A) (l : list A) :
  (forall a b, after a b = true <-> key a < key b) ->
  StronglySorted (fun a b => key b <= key a) l ->
  StronglySorted (fun a b => key b <= key a) (insertSorted after x l).
Proof.
  intros Hafter. induction 1 as [|y l Hs IH Hy]; cbn [insertSorted].
  - repeat constructor.
  - destruct (after x y) eqn:E.
    + apply Hafter in E. constructor; [exact IH|].
      apply Forall_forall. intros z Hz.
      apply (Permutation_in _ (insertSorted_perm after x l)) in Hz.
      destruct Hz as [<-|Hz]; [lia|].
      rewrite Forall_forall in Hy. now apply Hy.
    + assert (Hle : key y <= key x).
      { destruct (Z_lt_le_dec (key x) (key y)) as [Hlt|]; [|assumption].
        apply Hafter in Hlt. congruence. }
      constructor; [now constructor|].
      constructor; [exact Hle|].
      rewrite Forall_forall in Hy |- *. intros z Hz. specialize (Hy z Hz). lia.
Qed.

Lemma stableSort_sorted (after : A -> A -> bool) (l : list A) :
  (forall a b, after a b = true <-> key a < key b) ->
  StronglySorted (fun a b => key b <= key a) (stableSort after l).
Proof.
  intros Hafter. induction l as [|x l IH]; cbn [stableSort fold_right]; [constructor|].
  now apply insertSorted_sorted.
Qed.

(** Two orders that agree on elements of different keys sort a list of
    pairwise different keys alike. *)
Lemma stableSort_agree (after1 after2 : A -> A -> bool) (l : list A) :
  (forall a b, key a <> key b -> after1 a b = after2 a b) ->
  NoDup (map key l) ->
  stableSort after1 l = stableSort after2 l.
Proof.
  intros Hag. induction l as [|x l IH]; intros Hnd; [reflexivity|].
  cbn [stableSort fold_right]. fold (stableSort after1 l) (stableSort after2 l).
  cbn [map] in Hnd. inversion Hnd as [|? ? Hx Hnd']; subst.
  rewrite (IH Hnd').
  assert (Hin : forall y, In y (stableSort after2 l) -> key x <> key y).
  { intros y Hy Heq. apply Hx. rewrite Heq. apply in_map.
    now apply (Permutation_in _ (stableSort_perm after2 l)). }
  revert Hin. generalize (stableSort after2 l) as r.
  induction r as [|y r IHr]; intros Hin; [reflexivity|].
  cbn [insertSorted]. rewrite (Hag x y) by (apply Hin; now left).
  destruct (after2 x y); [|reflexivity].
  f_equal. apply IHr. intros z Hz. apply Hin. now right.
Qed.

(** The sort is stable: elements of one key keep the order they had. *)
Lemma insertSorted_ties (after : A -> A -> bool) (x : A) (l : list A) (t : Z) :
  (forall a b, after a b = true -> key a <> key b) ->
  filter (fun y => key y =? t) (insertSorted after x l)
  = filter (fun y => key y =? t) (x :: l).
Proof.
  intros Hafter. induction l as [|y l IH]; [reflexivity|].
  cbn [insertSorted]. destruct (after x y) eqn:E; [|reflexivity].
  apply Hafter in E. cbn [filter] in IH |- *. rewrite IH.
  destruct (Z.eqb_spec (key x) t) as [Hx|Hx], (Z.eqb_spec (key y) t) as [Hy|Hy];
    try reflexivity.
  congruence.
Qed.

Lemma stableSort_ties (after : A -> A -> bool) (l : list A) (t : Z) :
  (forall a b, after a b = true -> key a <> key b) ->
  filter (fun y => key y =? t) (stableSort after l) = filter (fun y => key y =? t) l.
Proof.
  intros Hafter. induction l as [|x l IH]; [reflexivity|].
  cbn [stableSort fold_right]. fold (stableSort after l).
  rewrite insertSorted_ties by exact Hafter. cbn [filter]. now rewrite IH.
Qed.

End StableSortFacts.

Lemma stableSort_map {A B : Type} (f : A -> B)
    (after : A -> A -> bool) (after' : B -> B -> bool) (l : list A) :
  (forall a b, after' (f a) (f b) = after a b) ->
  stableSort after' (map f l) = map f (stableSort after l).
Proof.
  intros Hf. induction l as [|x l IH]; [reflexivity|].
  cbn [map stableSort fold_right]. fold (stableSort after' (map f l)) (stableSort after l).
  rewrite IH. generalize (stableSort after l) as r.
  induction r as [|y r IHr]; [reflexivity|].
  cbn [map insertSorted]. rewrite Hf. destruct (after x y); [|reflexivity].
  cbn [map]. now rewrite IHr.
Qed.

(** ** Timestamps *)

Lemma toMillis_instant (t : Timestamp) :
  (Timestamp.toMillis t == inject_Z (instant t) / 1000000)%Q.
Proof.
  unfold Timestamp.toMillis, Timestamp.seconds, Timestamp.nanoseconds.
  remember (instant t) as i eqn:Ei. clear Ei.
  assert (H : i = 1000000000 * (i / 1000000000) + i mod 1000000000)
    by (apply Z.div_mod; lia).
  set (q := i / 1000000000) in *. set (r := i mod 1000000000) in *.
  rewrite H at 1. rewrite inject_Z_plus, inject_Z_mult. field.
Qed.

(** The comparison of the client-side sort, [bTime - aTime > 0], holds
    exactly when [a] is older than [b]. *)
Lemma compareFn_older (a b : Invoice) :
  negb (Qle_bool (createdAtTime (Invoice_createdAt b)
                  - createdAtTime (Invoice_createdAt a)) 0) = true
  <-> createdInstant a < createdInstant b.
Proof.
  unfold Invoice_createdAt, createdAtTime, createdInstant.
  rewrite negb_true_iff, <- not_true_iff_false, Qle_bool_iff, !toMillis_instant.
  unfold Qle, Qminus, Qplus, Qopp, Qdiv, Qmult, Qinv, inject_Z. cbn.
  lia.
Qed.

(** ** Listing *)

Lemma storeAfterDesc_older (a b : string * InvoiceDoc) :
  createdInstant (toInvoice a) <> createdInstant (toInvoice b) ->
  storeAfterDesc a b
  = negb (Qle_bool (createdAtTime (Invoice_createdAt (toInvoice b))
                    - createdAtTime (Invoice_createdAt (toInvoice a))) 0).
Proof.
  intros Hne.
  destruct (negb _) eqn:E.
  - apply compareFn_older in E. unfold createdInstant, toInvoice in E. cbn [data] in E.
    unfold storeAfterDesc. apply Z.compare_lt_iff in E. now rewrite E.
  - assert (H : ~ createdInstant (toInvoice a) < createdInstant (toInvoice b)).
    { intros H. apply compareFn_older in H. congruence. }
    unfold createdInstant, toInvoice in H, Hne. cbn [data] in H, Hne.
    unfold storeAfterDesc.
    destruct (Z.compare_spec (instant (createdAt (snd a))) (instant (createdAt (snd b))));
      [contradiction | contradiction | reflexivity].
Qed.

Lemma getInvoices_primary (uid : string) (s : Store) (fs : list (option JsError)) :
  answered fs ->
  invoiceService.getInvoices uid {| store := s; faults := fs |}
  = (Ok (map toInvoice (orderByCreatedAtDesc (whereUserId uid (invoices s)))),
     {| store := s; faults := tl fs |}).
Proof.
  intros Ha. unfold invoiceService.getInvoices, tryCatch, bind, await, getDocs, ret.
  cbn [faults store].
  destruct fs as [|[e|] rest]; cbn [answered] in Ha; [reflexivity | contradiction | reflexivity].
Qed.

Lemma getInvoices_degraded (uid : string) (s : Store) (e : JsError)
    (fs : list (option JsError)) :
  invoiceService.isIndexError e = true ->
  answered fs ->
  invoiceService.getInvoices uid {| store := s; faults := Some e :: fs |}
  = (Ok (Array_sort
           (fun a b => (createdAtTime (Invoice_createdAt b)
                        - createdAtTime (Invoice_createdAt a))%Q)
           (ownedBy uid s)),
     {| store := s; faults := tl fs |}).
Proof.
  intros He Ha. unfold invoiceService.getInvoices, tryCatch, bind, await, getDocs, ret.
  cbn [faults store]. rewrite He. cbn [faults store].
  destruct fs as [|[e2|] rest]; cbn [answered] in Ha; [reflexivity | contradiction | reflexivity].
Qed.

Lemma getInvoices_degraded_fails (uid : string) (s : Store) (e e2 : JsError)
    (rest : list (option JsError)) :
  invoiceService.isIndexError e = true ->
  invoiceService.getInvoices uid {| store := s; faults := Some e :: Some e2 :: rest |}
  = (Err e, {| store := s; faults := rest |}).
Proof.
  intros He. unfold invoiceService.getInvoices, tryCatch, bind, await, getDocs, ret, throw.
  cbn [faults store]. now rewrite He.
Qed.

Lemma In_ownedBy (uid : string) (s : Store) (inv : Invoice) :
  In inv (ownedBy uid s)
  <-> In (id inv, data inv) (invoices s) /\ userId (data inv) = uid.
Proof.
  unfold ownedBy, whereUserId. rewrite in_map_iff. split.
  - intros ([k d] & <- & Hin). apply filter_In in Hin. cbn [snd] in Hin.
    destruct Hin as [Hin Hu]. apply String.eqb_eq in Hu. now split.
  - intros [Hin Hu]. exists (id inv, data inv). split; [now destruct inv|].
    apply filter_In. split; [exact Hin|]. cbn [snd]. now apply String.eqb_eq.
Qed.

(** C4, as the code has it.  When the primary query is rejected with a
    missing-index error and the store answers the query by owner alone,
    [getInvoices] returns exactly the owner's headers.  When their
    [createdAt] are of whole milliseconds, as [createInvoice] writes them,
    the list is newest first, headers of equal [createdAt] staying in the
    order of the unsorted query; it is the list the primary path returns
    whenever no two of these headers have the same [createdAt].  When the
    store rejects the second query too, the error thrown is the first
    one. *)
Theorem getInvoices_degraded_path
    (uid : string) (s : Store) (e : JsError) (fs : list (option JsError)) :
  invoiceService.isIndexError e = true ->
  (answered fs ->
   exists l : list Invoice,
     invoiceService.getInvoices uid {| store := s; faults := Some e :: fs |}
     = (Ok l, {| store := s; faults := tl fs |})
     /\ Permutation l (ownedBy uid s)
     /\ (forall inv, In inv l
                     <-> In (id inv, data inv) (invoices s) /\ userId (data inv) = uid)
     /\ (Forall (fun inv => wholeMillis (createdAt (data inv))) (ownedBy uid s) ->
         newestFirst l
         /\ (forall t : Z,
                filter (fun inv => createdInstant inv =? t) l
                = filter (fun inv => createdInstant inv =? t) (ownedBy uid s))
         /\ (NoDup (map createdInstant (ownedBy uid s)) ->
             invoiceService.getInvoices uid {| store := s; faults := fs |}
             = (Ok l, {| store := s; faults := tl fs |}))))
  /\ (forall e2 rest,
         fs = Some e2 :: rest ->
         invoiceService.getInvoices uid {| store := s; faults := Some e :: fs |}
         = (Err e, {| store := s; faults := rest |})).
Proof.
  intros He. split.
  - intros Ha. eexists. split; [apply getInvoices_degraded; assumption|].
    unfold Array_sort.
    split; [apply stableSort_perm|].
    split.
    { intros inv. rewrite <- In_ownedBy. split; apply Permutation_in;
        [|symmetry]; apply stableSort_perm. }
    intros _.
    split; [apply (stableSort_sorted createdInstant); intros a b; apply compareFn_older|].
    split.
    { intros t. apply (stableSort_ties createdInstant).
      intros a b Hab. apply compareFn_older in Hab. lia. }
    intros Hnd. rewrite getInvoices_primary by exact Ha. do 2 f_equal.
    unfold orderByCreatedAtDesc, ownedBy.
    rewrite <- (stableSort_map toInvoice storeAfterDesc
                  (fun a b => storeAfterDesc (id a, data a) (id b, data b)))
      by (intros [k1 d1] [k2 d2]; reflexivity).
    apply (stableSort_agree createdInstant); [|exact Hnd].
    intros a b Hne.
    rewrite (storeAfterDesc_older (id a, data a) (id b, data b)) by exact Hne.
    reflexivity.
  - intros e2 rest ->. now apply getInvoices_degraded_fails.
Qed.

Lemma getInvoices_degraded_path_witness :
  exists l : list Invoice,
    invoiceService.getInvoices "u1"
      {| store := historyStore; faults := [Some missingIndex] |}
    = (Ok l, {| store := historyStore; faults := [] |})
    /\ map id l = ["b"; "d"; "a"]
    /\ newestFirst l
    /\ invoiceService.getInvoices "u1" {| store := historyStore; faults := [] |}
       = (Ok l, {| store := historyStore; faults := [] |})
    /\ invoiceService.getInvoices "u1"
         {| store := historyStore; faults := [Some missingIndex; Some unavailable] |}
       = (Err missingIndex, {| store := historyStore; faults := [] |}).
Proof.
  destruct (getInvoices_degraded_path "u1" historyStore missingIndex [] eq_refl)
    as [H _].
  destruct (getInvoices_degraded_path "u1" historyStore missingIndex [Some unavailable]
              eq_refl) as [_ Hf].
  destruct (H I) as (l & E & _ & _ & Hw).
  destruct Hw as (Hs & _ & Hp).
  { repeat (constructor; [split; [reflexivity | split; vm_compute; discriminate]|]).
    constructor. }
  exists l. split; [exact E|].
  split; [injection E as <-; reflexivity|].
  split; [exact Hs|].
  split; [|exact (Hf unavailable [] eq_refl)].
  apply Hp. repeat constructor; cbn; intuition discriminate.
Defined.

(** C4 as stated fails on headers of equal [createdAt]: the store orders
    them by descending id behind [orderBy('createdAt', 'desc')], the unsorted
    query returns them by ascending id and the stable client-side sort keeps
    them so. *)
Lemma getInvoices_degraded_order_on_ties :
  exists l1 l2 : list Invoice,
    invoiceService.getInvoices "u1" {| store := tieStore; faults := [] |}
    = (Ok l1, {| store := tieStore; faults := [] |})
    /\ invoiceService.getInvoices "u1" {| store := tieStore; faults := [Some missingIndex] |}
       = (Ok l2, {| store := tieStore; faults := [] |})
    /\ map id l1 = ["b"; "a"]
    /\ map id l2 = ["a"; "b"]
    /\ l1 <> l2.
Proof.
  do 2 eexists. split; [reflexivity|]. split; [reflexivity|].
  split; [reflexivity|]. split; [reflexivity|].
  intros H. apply (f_equal (map id)) in H. discriminate H.
Qed.

(** ** Concurrent clients *)

Lemma valueEqb_eq : forall a b : JsValue, valueEqb a b = true -> a = b.
Proof.
  fix IH 1.
  intros [ | |x|x| |x| |l] [ | |y|y| |y| |m]; cbn [valueEqb];
    try discriminate; try reflexivity.
  - intros H. apply Bool.eqb_prop in H. now subst.
  - intros H. apply Z.eqb_eq in H. now subst.
  - intros H. apply Z.eqb_eq in H. now subst.
  - revert m. induction l as [|x l IHl]; intros [|y m] H; try discriminate;
      [reflexivity|].
    apply andb_true_iff in H. destruct H as [H1 H2].
    apply IH in H1. apply IHl in H2. injection H2 as ->. now subst.
Qed.

Lemma counterEqb_eq (a b : option InvoiceCounter) : counterEqb a b = true -> a = b.
Proof.
  destruct a as [[x]|], b as [[y]|]; cbn; try discriminate; try reflexivity.
  intros H. apply valueEqb_eq in H. now subst.
Qed.

(** The transaction function reads nothing of the store but the counter. *)
Lemma transactionOf_counter (c : CreateCall) (s1 s2 : Store) :
  counter s1 = counter s2 -> transactionOf c s1 [] = transactionOf c s2 [].
Proof.
  intros H. destruct (transactionOf_writes c) as (header & ws' & _ & E & _).
  now rewrite !E, H.
Qed.

Lemma transactionOf_committing (a : Attempt) :
  transactionOf (committing a) = transactionOf (attemptCall a).
Proof. reflexivity. Qed.

Lemma runCreates_app (cs1 cs2 : list CreateCall) (s : Store) :
  runCreates (cs1 ++ cs2) s = runCreates cs2 (runCreates cs1 s).
Proof. unfold runCreates. apply fold_left_app. Qed.

Lemma attemptOfClient_In (i : nat) (l : list (nat * Attempt)) (a : Attempt) :
  attemptOfClient i l = Some a -> In a (map snd l).
Proof.
  unfold attemptOfClient. destruct (find _ l) as [[j b]|] eqn:E; [|discriminate].
  cbn. intros [= <-]. apply find_some in E. apply in_map_iff. exists (j, b). tauto.
Qed.

(** Every run of concurrent clients leaves the store that the committed
    attempts, taken one after the other in the order of their commits, leave
    as calls of [createInvoice]; attempts thrown away leave no trace. *)
Theorem concurrent_run_serial (evs : list Event) (s : Store) :
  sysStore (runEvents evs (idle s))
  = runCreates (map committing (commitLog (runEvents evs (idle s)))) s.
Proof.
  set (inv := fun sys =>
         sysStore sys = runCreates (map committing (commitLog sys)) s
         /\ Forall (fun a =>
                      exists s0, readCounter a = counter s0
                                 /\ buffered a = snd (transactionOf (attemptCall a) s0 []))
              (map snd (inFlight sys))).
  assert (Hinv : forall evs sys, inv sys -> inv (runEvents evs sys)).
  { clear evs. induction evs as [|ev evs IH]; intros sys Hsys; [exact Hsys|].
    cbn [runEvents fold_left]. apply IH. clear IH.
    destruct Hsys as [Hst Hfl].
    assert (Hwo : forall i,
               Forall (fun a =>
                         exists s0, readCounter a = counter s0
                                    /\ buffered a = snd (transactionOf (attemptCall a) s0 []))
                 (map snd (withoutClient i (inFlight sys)))).
    { intros i. rewrite Forall_forall in Hfl |- *. intros a Ha. apply Hfl.
      apply in_map_iff in Ha. destruct Ha as (ia & <- & Hin).
      apply filter_In in Hin. apply in_map. tauto. }
    destruct ev as [i c|i]; cbn [step].
    - split; [exact Hst|]. cbn [inFlight map snd].
      constructor; [|apply Hwo]. exists (sysStore sys). now split.
    - destruct (attemptOfClient i (inFlight sys)) as [a|] eqn:Ea; [|now split].
      destruct (counterEqb (readCounter a) (counter (sysStore sys))) eqn:Ec.
      + split; [|apply Hwo]. cbn [sysStore commitLog].
        rewrite map_app, runCreates_app, <- Hst. cbn [map runCreates fold_left].
        rewrite runCreate_transactionOf by reflexivity. cbn [snd].
        rewrite transactionOf_committing.
        apply counterEqb_eq in Ec.
        rewrite Forall_forall in Hfl.
        destruct (Hfl a (attemptOfClient_In _ _ _ Ea)) as (s0 & Hr & Hb).
        rewrite Hb. f_equal. f_equal. apply transactionOf_counter. congruence.
      + split; [exact Hst | apply Hwo]. }
  apply (Hinv evs (idle s)). split; [reflexivity | constructor].
Qed.

Lemma committed_committing (l : list Attempt) :
  committed (map committing l) = map committing l.
Proof.
  unfold committed. induction l as [|a l IH]; [reflexivity|].
  cbn [map filter commits committing callOutcome]. now rewrite IH.
Qed.

(** So, in the model of the store's protocol, the numbers of the attempts
    that commit, however the clients interleave, follow the counter without
    gap or repetition. *)
Corollary concurrent_run_contiguous (evs : list Event) (s : Store) (K : Z) :
  0 <= K ->
  lastIssued s = K ->
  let sys := runEvents evs (idle s) in
  let cs := map committing (commitLog sys) in
  NoDup (committedIds cs) ->
  mintedNumbers cs (sysStore sys) = map Some (expectedNumbers K cs)
  /\ map invoiceSuffix (expectedNumbers K cs)
     = map Some (run K (List.length (commitLog sys)))
  /\ lastIssued (sysStore sys) = K + Z.of_nat (List.length (commitLog sys)).
Proof.
  intros HK Hs sys cs Hnd. subst cs.
  assert (Hst : sysStore sys = runCreates (map committing (commitLog sys)) s)
    by apply concurrent_run_serial.
  destruct (runCreates_numbers (map committing (commitLog sys)) Hnd s) as [Hn Hc].
  rewrite committed_committing in Hn, Hc.
  rewrite Hs in Hn, Hc. rewrite Hst.
  split; [exact Hn|]. split.
  - rewrite expectedNumbers_suffix by exact HK. now rewrite length_map.
  - rewrite Hc. now rewrite length_map.
Qed.

Example raceEvents_numbers :
  map (fun a => autoInvoiceId (callEnv (attemptCall a)))
    (commitLog (runEvents raceEvents (idle emptyStore))) = ["b"; "c"]
  /\ map (fun kd => (fst kd, invoiceNumber (snd kd)))
       (invoices (sysStore (runEvents raceEvents (idle emptyStore))))
     = [("b", "BILL/25/001"); ("c", "BILL/25/002")]
  /\ counter (sysStore (runEvents raceEvents (idle emptyStore)))
     = Some {| lastInvoiceNumber := VNumber 2 |}.
Proof. repeat split; reflexivity. Qed.

(** * Further properties of the service *)

(** ** Collections under any key order *)

Lemma cmpItemKey_Eq (a b : string * string) : cmpItemKey a b = Eq <-> a = b.
Proof.
  destruct a as [a1 a2], b as [b1 b2]. unfold cmpItemKey. cbn [fst snd]. split.
  - destruct (String.compare a1 b1) eqn:E1; try discriminate.
    intros E2. apply string_compare_Eq in E1, E2. congruence.
  - intros [= -> ->]. now rewrite !string_compare_refl.
Qed.

Section KeyedFacts.

Context {K V : Type} (cmp : K -> K -> comparison).
Hypothesis cmp_Eq : forall a b, cmp a b = Eq <-> a = b.
Implicit Types (c : list (K * V)) (k : K) (v : V).

Lemma cmp_refl k : cmp k k = Eq.
Proof. now apply cmp_Eq. Qed.

Lemma keyed_get_set_same k v c : get cmp k (set cmp k v c) = Some v.
Proof.
  induction c as [|[k' v'] c IH]; cbn [set get].
  - now rewrite cmp_refl.
  - destruct (cmp k k') eqn:E; cbn [get]; rewrite ?cmp_refl, ?E; auto.
Qed.

Lemma keyed_get_set_other k k' v c :
  k' <> k -> get cmp k' (set cmp k v c) = get cmp k' c.
Proof.
  intros Hne.
  assert (Hk : cmp k' k <> Eq) by (now rewrite cmp_Eq).
  induction c as [|[k0 v0] c IH]; cbn [set get].
  - now destruct (cmp k' k).
  - destruct (cmp k k0) eqn:E; cbn [get].
    + apply cmp_Eq in E. subst k0. now destruct (cmp k' k).
    + now destruct (cmp k' k).
    + now rewrite IH.
Qed.

(** Writing under a key that is not there adds one document. *)
Lemma set_new_perm k v c :
  get cmp k c = None -> Permutation (set cmp k v c) ((k, v) :: c).
Proof.
  induction c as [|[k' v'] c IH]; cbn [set get]; [reflexivity|].
  destruct (cmp k k') eqn:E; intros H; [discriminate | reflexivity |].
  rewrite (IH H). apply perm_swap.
Qed.

Lemma get_remove_same k c : get cmp k (remove cmp k c) = None.
Proof.
  unfold remove. induction c as [|[k' v'] c IH]; cbn [filter get fst]; [reflexivity|].
  destruct (cmp k k') eqn:E; cbn [get]; rewrite ?E; exact IH.
Qed.

Lemma get_remove_other k k' c :
  k' <> k -> get cmp k' (remove cmp k c) = get cmp k' c.
Proof.
  intros Hne. unfold remove.
  induction c as [|[k0 v0] c IH]; cbn [filter get fst]; [reflexivity|].
  destruct (cmp k k0) eqn:E; cbn [get].
  - apply cmp_Eq in E. subst k0.
    assert (Hk : cmp k' k <> Eq) by (now rewrite cmp_Eq).
    rewrite IH. now destruct (cmp k' k).
  - now rewrite IH.
  - now rewrite IH.
Qed.

Lemma get_None_not_In k c : get cmp k c = None -> forall v, ~ In (k, v) c.
Proof.
  induction c as [|[k' v'] c IH]; cbn [get]; [intros _ v []|].
  destruct (cmp k k') eqn:E; intros H v [Hin|Hin]; try discriminate;
    try (now apply (IH H v));
    injection Hin as -> ->; rewrite cmp_refl in E; discriminate.
Qed.

End KeyedFacts.

Lemma keyed_get_In {K V : Type} (cmp : K -> K -> comparison)
    (cmp_Eq : forall a b, cmp a b = Eq <-> a = b) (k : K) (v : V) (c : list (K * V)) :
  get cmp k c = Some v -> In (k, v) c.
Proof.
  induction c as [|[k' v'] c IH]; cbn [get]; [discriminate|].
  destruct (cmp k k') eqn:E; intros H.
  - apply cmp_Eq in E. injection H as ->. subst. now left.
  - right. now apply IH.
  - right. now apply IH.
Qed.

Lemma filter_Permutation {A : Type} (f : A -> bool) (l l' : list A) :
  Permutation l l' -> Permutation (filter f l) (filter f l').
Proof.
  induction 1 as [|x l l' _ IH|x y l|l l' l'' _ IH1 _ IH2]; cbn [filter].
  - reflexivity.
  - destruct (f x); [now constructor | exact IH].
  - destruct (f x), (f y); try reflexivity. apply perm_swap.
  - now transitivity (filter f l').
Qed.

(** ** The items of a new invoice *)

Lemma txForEach_itemWritesOf (ref : string) (ids : nat -> string) (l : list InvoiceItem) :
  forall (i : nat) (s : Store) (ws : list Write),
    txForEach (fun i item => txSet (SetItem ref (ids i) item)) i l s ws
    = (tt, (ws ++ itemWritesOf ref ids i l)%list).
Proof.
  induction l as [|x l IH]; intros i s ws; cbn [txForEach itemWritesOf].
  - unfold txRet. now rewrite app_nil_r.
  - unfold txBind, txSet at 1. rewrite IH, <- app_assoc. reflexivity.
Qed.

Lemma transactionOf_itemWrites (c : CreateCall) (s : Store) :
  exists d : InvoiceDoc,
    snd (transactionOf c s [])
    = (SetInvoice (autoInvoiceId (callEnv c)) d
       :: itemWritesOf (autoInvoiceId (callEnv c)) (autoItemId (callEnv c)) 0
            (map invoiceService.calculatedItem (callItems c))
       ++ [SetCounter
             {| lastInvoiceNumber := VNumber (invoiceService.nextNumberOf (counter s)) |}])%list.
Proof.
  unfold transactionOf, invoiceService.createInvoiceTransaction.
  unfold txBind at 1. unfold txGetCounter at 1.
  unfold txBind at 1. unfold txSet at 1.
  unfold txBind at 1. rewrite txForEach_itemWritesOf.
  unfold txBind, txSet, txRet. cbn [app snd]. rewrite <- app_assoc.
  eexists. reflexivity.
Qed.

Lemma itemWritesOf_items (ref : string) (ids : nat -> string) (l : list InvoiceItem) :
  forall (i : nat) (s : Store),
    NoDup (map ids (seq i (List.length l))) ->
    (forall j, In j (seq i (List.length l)) ->
               get cmpItemKey (ref, ids j) (items s) = None) ->
    Permutation (items (fold_left applyWrite (itemWritesOf ref ids i l) s))
      (map (fun kx => ((ref, fst kx), snd kx)) (itemDocsOf ids i l) ++ items s)%list.
Proof.
  induction l as [|x l IH]; intros i s Hnd Hfree; cbn [itemWritesOf itemDocsOf fold_left map].
  - reflexivity.
  - cbn [List.length seq map] in Hnd, Hfree.
    inversion Hnd as [|? ? Hi Hnd']; subst.
    rewrite IH.
    + cbn [applyWrite withItems items fst snd app].
      rewrite (set_new_perm cmpItemKey) by (apply Hfree; now left).
      symmetry. apply Permutation_middle.
    + exact Hnd'.
    + intros j Hj. cbn [applyWrite withItems items].
      rewrite (keyed_get_set_other cmpItemKey cmpItemKey_Eq).
      * apply Hfree. now right.
      * intros [= E]. apply Hi. rewrite <- E. now apply in_map.
Qed.

Lemma itemsUnder_nil_get (parent : string) (s : Store) :
  itemsUnder parent s = [] ->
  forall k, get cmpItemKey (parent, k) (items s) = None.
Proof.
  intros H k. destruct (get cmpItemKey (parent, k) (items s)) as [v|] eqn:E; [|reflexivity].
  apply (keyed_get_In cmpItemKey cmpItemKey_Eq) in E.
  assert (Hin : In (k, v) (itemsUnder parent s)).
  { unfold itemsUnder. apply in_map_iff. exists ((parent, k), v). split; [reflexivity|].
    apply filter_In. split; [exact E|]. cbn. apply String.eqb_refl. }
  rewrite H in Hin. destruct Hin.
Qed.

(** The store a committed call leaves: the counter moved on by one, the new
    header under the id given, the calculated items under that header, and
    nothing else touched. *)
Lemma runCreate_store (c : CreateCall) (s : Store) :
  callOutcome c = None ->
  itemsUnder (autoInvoiceId (callEnv c)) s = [] ->
  freshItemIds c ->
  exists d : InvoiceDoc,
    headerOf c (snd (runCreate c s)) = Some d
    /\ Permutation (itemsUnder (autoInvoiceId (callEnv c)) (snd (runCreate c s)))
         (itemDocsOf (autoItemId (callEnv c)) 0
            (map invoiceService.calculatedItem (callItems c)))
    /\ Permutation (itemsElsewhere (autoInvoiceId (callEnv c)) (snd (runCreate c s)))
         (itemsElsewhere (autoInvoiceId (callEnv c)) s).
Proof.
  intros H Hnone Hfresh.
  destruct (runCreate_commit c s H) as (d & its & E & _).
  exists d. split.
  { unfold headerOf. rewrite E. cbn [snd invoices]. apply get_set_same. }
  rewrite (runCreate_transactionOf c s H). cbn [snd].
  destruct (transactionOf_itemWrites c s) as (d' & ->).
  cbn [fold_left]. rewrite fold_left_app. cbn [fold_left applyWrite].
  set (ref := autoInvoiceId (callEnv c)) in *.
  set (l := map invoiceService.calculatedItem (callItems c)).
  assert (P : Permutation
                (items (fold_left applyWrite
                          (itemWritesOf ref (autoItemId (callEnv c)) 0 l)
                          (withInvoices (set String.compare ref d' (invoices s)) s)))
                (map (fun kx => ((ref, fst kx), snd kx))
                   (itemDocsOf (autoItemId (callEnv c)) 0 l) ++ items s)%list).
  { change (items s)
      with (items (withInvoices (set String.compare ref d' (invoices s)) s)).
    apply itemWritesOf_items.
    - unfold l. rewrite length_map. exact Hfresh.
    - intros j _. cbn [withInvoices items]. now apply itemsUnder_nil_get. }
  assert (Fin : forall docs : list (string * InvoiceItem),
             filter (fun kv : string * string * InvoiceItem => String.eqb (fst (fst kv)) ref)
               (map (fun kx => ((ref, fst kx), snd kx)) docs)
             = map (fun kx => ((ref, fst kx), snd kx)) docs).
  { induction docs as [|x docs IHd]; cbn; [reflexivity|].
    now rewrite String.eqb_refl, IHd. }
  assert (Fout : forall docs : list (string * InvoiceItem),
             filter (fun kv : string * string * InvoiceItem =>
                       negb (String.eqb (fst (fst kv)) ref))
               (map (fun kx => ((ref, fst kx), snd kx)) docs) = []).
  { induction docs as [|x docs IHd]; cbn; [reflexivity|].
    now rewrite String.eqb_refl. }
  assert (Hs0 : filter (fun kv : string * string * InvoiceItem => String.eqb (fst (fst kv)) ref)
                  (items s) = []).
  { unfold itemsUnder in Hnone. now apply map_eq_nil in Hnone. }
  split.
  - unfold itemsUnder, withCounter. cbn [items].
    eapply Permutation_trans;
      [apply Permutation_map, filter_Permutation, P|].
    rewrite filter_app, Fin, Hs0, app_nil_r, map_map. cbn [fst snd].
    rewrite map_ext with (g := fun x => x) by (now intros []).
    now rewrite map_id.
  - unfold itemsElsewhere, withCounter. cbn [items].
    eapply Permutation_trans; [apply filter_Permutation, P|].
    now rewrite filter_app, Fout.
Qed.

Lemma itemDocsOf_data (ids : nat -> string) (l : list InvoiceItem) :
  forall i, map snd (itemDocsOf ids i l) = l.
Proof. induction l as [|x l IH]; intros i; cbn; [reflexivity | now rewrite IH]. Qed.

(** ** Reading one invoice back *)

Lemma getInvoiceDetails_run (invoiceId : string) (s : Store) (fs : list (option JsError)) :
  answered fs ->
  answered (tl fs) ->
  invoiceService.getInvoiceDetails invoiceId {| store := s; faults := fs |}
  = match get String.compare invoiceId (invoices s) with
    | Some d =>
        (Ok ({| id := invoiceId; data := d |}, itemsUnder invoiceId s),
         {| store := s; faults := tl (tl fs) |})
    | None => (Err NotFound, {| store := s; faults := tl fs |})
    end.
Proof.
  intros H1 H2.
  unfold invoiceService.getInvoiceDetails, bind, await, getDoc, getItemDocs, ret, throw.
  cbn [faults store].
  destruct fs as [|[e|] fs]; cbn [answered tl] in *; try contradiction;
    destruct (get String.compare invoiceId (invoices s)); cbn [faults store]; try reflexivity.
  destruct fs as [|[e|] fs]; cbn [answered tl] in *; try contradiction; reflexivity.
Qed.



(** X2.  [getInvoiceDetails] asks for no owner and writes nothing: whatever
    the store rejects, the store is as before; when the store answers, the
    call fails with "Invoice not found" exactly when there is no header
    under the id, and otherwise returns that header, whoever owns it, with
    the items under it. *)
Theorem getInvoiceDetails_reads (invoiceId : string) (s : Store)
    (fs : list (option JsError)) :
  let r := invoiceService.getInvoiceDetails invoiceId {| store := s; faults := fs |} in
  store (snd r) = s
  /\ (answered fs -> answered (tl fs) ->
      (get String.compare invoiceId (invoices s) = None <-> fst r = Err NotFound)
      /\ (forall d, get String.compare invoiceId (invoices s) = Some d ->
                    fst r = Ok ({| id := invoiceId; data := d |}, itemsUnder invoiceId s))).
Proof.
  intros r. subst r. split.
  - unfold invoiceService.getInvoiceDetails, bind, await, getDoc, getItemDocs, ret, throw.
    cbn [faults store].
    destruct fs as [|[e|] fs]; cbn [faults store snd];
      destruct (get String.compare invoiceId (invoices s)); cbn [faults store snd];
      try reflexivity;
      destruct fs as [|[e'|] fs]; reflexivity.
  - intros H1 H2. rewrite getInvoiceDetails_run by assumption.
    destruct (get String.compare invoiceId (invoices s)) as [d|]; cbn [fst]; split.
    + split; discriminate.
    + now intros d' [= <-].
    + now split.
    + discriminate.
Qed.

Lemma getInvoiceDetails_reads_witness :
  fst (invoiceService.getInvoiceDetails "zz" {| store := duplicateStore; faults := [] |})
  = Err NotFound
  /\ exists d,
       fst (invoiceService.getInvoiceDetails "b" {| store := duplicateStore; faults := [] |})
       = Ok ({| id := "b"; data := d |}, itemsUnder "b" duplicateStore)
       /\ userId d = "u1".
Proof.
  destruct (getInvoiceDetails_reads "zz" duplicateStore []) as [_ Hz].
  destruct (getInvoiceDetails_reads "b" duplicateStore []) as [_ Hb].
  destruct (Hz I I) as [Hz1 _]. destruct (Hb I I) as [_ Hb2].
  split; [now apply Hz1|].
  eexists. split; [apply Hb2; reflexivity | reflexivity].
Defined.

(** ** Deleting, to the end *)

Lemma In_remove {K V : Type} (cmp : K -> K -> comparison) (k : K) (c : list (K * V))
    (kv : K * V) :
  In kv (remove cmp k c) -> In kv c.
Proof. unfold remove. intros H. now apply filter_In in H. Qed.

Lemma itemsElsewhere_remove (parent ref : string) (s : Store) :
  itemsElsewhere parent (withItems (remove cmpItemKey (parent, ref) (items s)) s)
  = itemsElsewhere parent s.
Proof.
  unfold itemsElsewhere, remove. cbn [withItems items].
  induction (items s) as [|[[p k] v] l IH]; cbn [filter fst snd]; [reflexivity|].
  destruct (cmpItemKey (parent, ref) (p, k)) eqn:E; cbn [filter fst snd].
  - apply cmpItemKey_Eq in E. injection E as <- <-.
    now rewrite String.eqb_refl.
  - now rewrite IH.
  - now rewrite IH.
Qed.

(** The deletions of [Promise.all]: whatever is rejected, only items of the
    header go, and when none is rejected all the listed ones are gone. *)
Lemma deleteItems_run (parent : string) (docs : list (string * InvoiceItem)) :
  forall (s : Store) (fs : list (option JsError)),
    let r := promiseAll
               (map (fun itemDoc => await (deleteItemDoc parent (fst itemDoc))) docs)
               {| store := s; faults := fs |} in
    counter (store (snd r)) = counter s
    /\ invoices (store (snd r)) = invoices s
    /\ itemsElsewhere parent (store (snd r)) = itemsElsewhere parent s
    /\ (forall kv, In kv (items (store (snd r))) -> In kv (items s))
    /\ (fst r = Ok tt ->
        forall k, In k (map fst docs) ->
                  get cmpItemKey (parent, k) (items (store (snd r))) = None)
    /\ ((exists v, fst r = Ok v) \/ (exists e, fst r = Err e)).
Proof.
  induction docs as [|[k0 v0] docs IH]; intros s fs r; subst r.
  - cbn. repeat (split; [now auto|]). left. now exists tt.
  - cbn [map promiseAll fst].
    set (w1 := snd (await (deleteItemDoc parent k0) {| store := s; faults := fs |})).
    assert (Hw1 : (store w1 = s /\ exists e, fst (await (deleteItemDoc parent k0)
                                                    {| store := s; faults := fs |}) = Err e)
                  \/ (store w1 = withItems (remove cmpItemKey (parent, k0) (items s)) s
                      /\ fst (await (deleteItemDoc parent k0)
                                {| store := s; faults := fs |}) = Ok tt)).
    { unfold w1, await, deleteItemDoc. cbn [faults store].
      destruct fs as [|[e|] fs]; cbn [snd fst store]; eauto. }
    destruct (await (deleteItemDoc parent k0) {| store := s; faults := fs |}) as [r1 w1'] eqn:Ea.
    cbn [snd fst] in w1, Hw1. subst w1.
    destruct w1' as [s1 fs1]. cbn [store] in Hw1.
    specialize (IH s1 fs1). cbv zeta in IH.
    destruct (promiseAll (map (fun itemDoc => await (deleteItemDoc parent (fst itemDoc))) docs)
                {| store := s1; faults := fs1 |}) as [r2 w2] eqn:Ep.
    cbn [snd fst] in IH |- *.
    destruct IH as (Ic & Ii & Ie & Iin & Iok & Ires).
    destruct Hw1 as [[-> [e ->]] | [-> ->]].
    + split; [exact Ic|]. split; [exact Ii|]. split; [exact Ie|]. split; [exact Iin|].
      split; [discriminate | right; now exists e].
    + cbn [withItems counter invoices items] in *.
      rewrite itemsElsewhere_remove in Ie.
      split; [exact Ic|]. split; [exact Ii|]. split; [exact Ie|].
      split; [|split; [|exact Ires]].
      * intros kv Hin. apply Iin in Hin. now apply In_remove in Hin.
      * intros Hok k [<-|Hk]; [|now apply Iok].
        destruct (get cmpItemKey (parent, k0) (items (store w2))) as [v|] eqn:Eg;
          [|reflexivity].
        apply (keyed_get_In cmpItemKey cmpItemKey_Eq) in Eg. apply Iin in Eg.
        exfalso. revert Eg.
        apply (get_None_not_In cmpItemKey cmpItemKey_Eq).
        apply (get_remove_same cmpItemKey).
Qed.

Lemma In_itemsUnder (parent k : string) (v : InvoiceItem) (s : Store) :
  In (k, v) (itemsUnder parent s) <-> In ((parent, k), v) (items s).
Proof.
  unfold itemsUnder. rewrite in_map_iff. split.
  - intros ([[p k'] v'] & [= <- <-] & Hin). apply filter_In in Hin. cbn [fst] in Hin.
    destruct Hin as [Hin Hp]. apply String.eqb_eq in Hp. now subst.
  - intros Hin. exists ((parent, k), v). split; [reflexivity|].
    apply filter_In. split; [exact Hin|]. cbn. apply String.eqb_refl.
Qed.

(** What follows the ownership check in [deleteInvoice]. *)
Lemma deleteInvoice_tail (invoiceId : string) (s : Store) (fs : list (option JsError)) :
  let r :=
    (itemsSnapshot <- await (getItemDocs invoiceId) ;;
     promiseAll
       (map (fun itemDoc => await (deleteItemDoc invoiceId (fst itemDoc))) itemsSnapshot) ;;
     await (deleteInvoiceDoc invoiceId) ;;
     ret tt)%io {| store := s; faults := fs |} in
  counter (store (snd r)) = counter s
  /\ (forall k, k <> invoiceId ->
                get String.compare k (invoices (store (snd r)))
                = get String.compare k (invoices s))
  /\ itemsElsewhere invoiceId (store (snd r)) = itemsElsewhere invoiceId s
  /\ ((fst r = Ok tt
       /\ get String.compare invoiceId (invoices (store (snd r))) = None
       /\ itemsUnder invoiceId (store (snd r)) = [])
      \/ (exists e, fst r = Err e /\ invoices (store (snd r)) = invoices s)).
Proof.
  intros r. subst r. unfold bind at 1. unfold await at 1. cbn [faults store].
  assert (Hdel : forall fs',
             let r := (promiseAll
                         (map (fun itemDoc => await (deleteItemDoc invoiceId (fst itemDoc)))
                            (itemsUnder invoiceId s)) ;;
                       await (deleteInvoiceDoc invoiceId) ;;
                       ret tt)%io {| store := s; faults := fs' |} in
             counter (store (snd r)) = counter s
             /\ (forall k, k <> invoiceId ->
                           get String.compare k (invoices (store (snd r)))
                           = get String.compare k (invoices s))
             /\ itemsElsewhere invoiceId (store (snd r)) = itemsElsewhere invoiceId s
             /\ ((fst r = Ok tt
                  /\ get String.compare invoiceId (invoices (store (snd r))) = None
                  /\ itemsUnder invoiceId (store (snd r)) = [])
                 \/ (exists e, fst r = Err e /\ invoices (store (snd r)) = invoices s))).
  { intros fs' r. subst r. unfold bind.
    pose proof (deleteItems_run invoiceId (itemsUnder invoiceId s) s fs') as H.
    cbv zeta in H.
    destruct (promiseAll _ {| store := s; faults := fs' |}) as [r2 [s2 fs2]].
    cbn [fst snd store] in H. destruct H as (Hc & Hi & He & Hin & Hok & _).
    destruct r2 as [[]|e].
    - unfold await, deleteInvoiceDoc, ret. cbn [faults store].
      destruct fs2 as [|[e|] fs2]; cbn [fst snd store withInvoices counter invoices items].
      + split; [exact Hc|]. split.
        { intros k Hk. rewrite Hi.
          now apply (get_remove_other String.compare string_compare_Eq). }
        split; [exact He|]. left. split; [reflexivity|]. split.
        { apply (get_remove_same String.compare). }
        change (itemsUnder invoiceId s2 = []).
        destruct (itemsUnder invoiceId s2) as [|[k v] l] eqn:El; [reflexivity|].
        assert (Hkv : In (k, v) (itemsUnder invoiceId s2)) by (rewrite El; now left).
        apply In_itemsUnder in Hkv.
        assert (Hk : In k (map fst (itemsUnder invoiceId s))).
        { apply in_map_iff. exists (k, v). split; [reflexivity|].
          apply In_itemsUnder. now apply Hin. }
        specialize (Hok eq_refl k Hk).
        exfalso. revert Hkv. now apply (get_None_not_In cmpItemKey cmpItemKey_Eq).
      + split; [exact Hc|]. split; [intros k _; now rewrite Hi|].
        split; [exact He|]. right. exists e. now split.
      + split; [exact Hc|]. split.
        { intros k Hk. rewrite Hi.
          now apply (get_remove_other String.compare string_compare_Eq). }
        split; [exact He|]. left. split; [reflexivity|]. split.
        { apply (get_remove_same String.compare). }
        change (itemsUnder invoiceId s2 = []).
        destruct (itemsUnder invoiceId s2) as [|[k v] l] eqn:El; [reflexivity|].
        assert (Hkv : In (k, v) (itemsUnder invoiceId s2)) by (rewrite El; now left).
        apply In_itemsUnder in Hkv.
        assert (Hk : In k (map fst (itemsUnder invoiceId s))).
        { apply in_map_iff. exists (k, v). split; [reflexivity|].
          apply In_itemsUnder. now apply Hin. }
        specialize (Hok eq_refl k Hk).
        exfalso. revert Hkv. now apply (get_None_not_In cmpItemKey cmpItemKey_Eq).
    - cbn [fst snd store]. split; [exact Hc|]. split; [intros k _; now rewrite Hi|].
      split; [exact He|]. right. exists e. now split. }
  destruct fs as [|[e|] fs1].
  - unfold getItemDocs. fold (itemsUnder invoiceId s). apply (Hdel []).
  - cbn [fst snd store]. split; [reflexivity|]. split; [reflexivity|].
    split; [reflexivity|]. right. exists e. now split.
  - unfold getItemDocs. fold (itemsUnder invoiceId s). apply (Hdel fs1).
Qed.

Lemma tryCatch_rethrow {A : Type} (m : IO A) (w : World) :
  tryCatch m (fun error => throw error) w = m w.
Proof. unfold tryCatch, throw. now destruct (m w) as [[a|e] w']. Qed.

(** All that [deleteInvoice] may do, whatever the store rejects. *)
Lemma deleteInvoice_effect
    (invoiceId uid : string) (s : Store) (fs : list (option JsError)) :
  let r := invoiceService.deleteInvoice invoiceId uid {| store := s; faults := fs |} in
  counter (store (snd r)) = counter s
  /\ (forall k, k <> invoiceId ->
                get String.compare k (invoices (store (snd r)))
                = get String.compare k (invoices s))
  /\ itemsElsewhere invoiceId (store (snd r)) = itemsElsewhere invoiceId s
  /\ (forall d, get String.compare invoiceId (invoices s) = Some d ->
        (fst r = Ok tt
         /\ userId d = uid
         /\ get String.compare invoiceId (invoices (store (snd r))) = None
         /\ itemsUnder invoiceId (store (snd r)) = [])
        \/ (exists e, fst r = Err e
                      /\ get String.compare invoiceId (invoices (store (snd r))) = Some d))
  /\ (get String.compare invoiceId (invoices s) = None ->
      store (snd r) = s
      /\ exists e, fst r = Err e /\ (answered fs -> e = NotFound)).
Proof.
  intros r. subst r. unfold invoiceService.deleteInvoice.
  rewrite tryCatch_rethrow. unfold bind at 1. unfold await at 1, getDoc at 1.
  cbn [faults store].
  assert (Hrest : forall fs',
             let r := (match get String.compare invoiceId (invoices s) with
                       | Some d0 =>
                           if negb (String.eqb (userId d0) uid)
                           then throw (Error "Unauthorized to delete this invoice")
                           else
                             (itemsSnapshot <- await (getItemDocs invoiceId) ;;
                              promiseAll
                                (map (fun itemDoc =>
                                        await (deleteItemDoc invoiceId (fst itemDoc)))
                                   itemsSnapshot) ;;
                              await (deleteInvoiceDoc invoiceId) ;;
                              ret tt)%io
                       | None => throw (Error "Invoice not found")
                       end) {| store := s; faults := fs' |} in
             counter (store (snd r)) = counter s
             /\ (forall k, k <> invoiceId ->
                           get String.compare k (invoices (store (snd r)))
                           = get String.compare k (invoices s))
             /\ itemsElsewhere invoiceId (store (snd r)) = itemsElsewhere invoiceId s
             /\ (forall d, get String.compare invoiceId (invoices s) = Some d ->
                   (fst r = Ok tt
                    /\ userId d = uid
                    /\ get String.compare invoiceId (invoices (store (snd r))) = None
                    /\ itemsUnder invoiceId (store (snd r)) = [])
                   \/ (exists e, fst r = Err e
                                 /\ get String.compare invoiceId (invoices (store (snd r)))
                                    = Some d))
             /\ (get String.compare invoiceId (invoices s) = None ->
                 store (snd r) = s /\ fst r = Err NotFound)).
  { intros fs' r. subst r.
    destruct (get String.compare invoiceId (invoices s)) as [d0|] eqn:Hd.
    - destruct (String.eqb_spec (userId d0) uid) as [Hu|Hu]; cbn [negb].
      + destruct (deleteInvoice_tail invoiceId s fs') as (Hc & Hk & He & Hcases).
        split; [exact Hc|]. split; [exact Hk|]. split; [exact He|].
        split; [|discriminate].
        intros d [= <-]. destruct Hcases as [(Ho & Hg & Hi)|(e & He' & Hi)].
        * left. auto.
        * right. exists e. split; [exact He'|]. now rewrite Hi.
      + cbn [throw fst snd store]. repeat (split; [reflexivity|]).
        split; [|discriminate].
        intros d [= <-]. right. eexists. split; [reflexivity | exact Hd].
    - cbn [throw fst snd store]. repeat (split; [reflexivity|]).
      split; [discriminate|]. intros _. now split. }
  destruct fs as [|[e|] fs1].
  - destruct (Hrest []) as (H1 & H2 & H3 & H4 & H5).
    repeat (split; [assumption|]). intros Hn. destruct (H5 Hn) as [Hs He].
    split; [exact Hs|]. exists NotFound. now split.
  - cbn [fst snd store]. repeat (split; [reflexivity|]). split.
    + intros d Hd. right. exists e. now split.
    + intros _. split; [reflexivity|]. exists e. split; [reflexivity | intros []].
  - destruct (Hrest fs1) as (H1 & H2 & H3 & H4 & H5).
    repeat (split; [assumption|]). intros Hn. destruct (H5 Hn) as [Hs He].
    split; [exact Hs|]. exists NotFound. now split.
Qed.

(** X3.  [deleteInvoice] on a header that exists ends in one of two ways,
    whatever the store rejects on the way: the call succeeds, the caller is
    the owner, and the header and every item under it are gone; or the call
    fails and the header is still there, unchanged.  It never removes the
    header and leaves items of it behind. *)
Theorem deleteInvoice_all_or_header_stays
    (invoiceId uid : string) (s : Store) (fs : list (option JsError)) (d : InvoiceDoc) :
  get String.compare invoiceId (invoices s) = Some d ->
  let r := invoiceService.deleteInvoice invoiceId uid {| store := s; faults := fs |} in
  (fst r = Ok tt
   /\ userId d = uid
   /\ get String.compare invoiceId (invoices (store (snd r))) = None
   /\ itemsUnder invoiceId (store (snd r)) = [])
  \/ (exists e, fst r = Err e
                /\ get String.compare invoiceId (invoices (store (snd r))) = Some d).
Proof.
  intros Hd r. subst r.
  now apply (deleteInvoice_effect invoiceId uid s fs).
Qed.

Lemma deleteInvoice_all_or_header_stays_witness :
  (* the owner, nothing rejected *)
  fst (invoiceService.deleteInvoice "a" "u1" {| store := duplicateStore; faults := [] |})
  = Ok tt
  (* the deletion of the second item is rejected *)
  /\ fst (invoiceService.deleteInvoice "a" "u1"
            {| store := duplicateStore; faults := [None; None; None; Some unavailable] |})
     = Err unavailable
  /\ exists d,
       get String.compare "a"
         (invoices (store (snd (invoiceService.deleteInvoice "a" "u1"
                                  {| store := duplicateStore;
                                     faults := [None; None; None; Some unavailable] |}))))
       = Some d.
Proof.
  split; [reflexivity|]. split; [reflexivity|].
  destruct (get String.compare "a" (invoices duplicateStore)) as [d|] eqn:E;
    [|discriminate E].
  destruct (deleteInvoice_all_or_header_stays "a" "u1" duplicateStore
              [None; None; None; Some unavailable] d E) as [(Hok & _)|(e & _ & Hd)].
  - discriminate Hok.
  - exists d. exact Hd.
Defined.

(** X4.  [deleteInvoice] touches nothing but the invoice it is given: the
    counter, every other header and the items of every other header are
    unchanged, for every caller and whatever the store rejects. *)
Theorem deleteInvoice_touches_nothing_else
    (invoiceId uid : string) (s : Store) (fs : list (option JsError)) :
  let s' := store (snd (invoiceService.deleteInvoice invoiceId uid
                          {| store := s; faults := fs |})) in
  counter s' = counter s
  /\ (forall k, k <> invoiceId ->
                get String.compare k (invoices s') = get String.compare k (invoices s))
  /\ itemsElsewhere invoiceId s' = itemsElsewhere invoiceId s.
Proof.
  intros s'. subst s'.
  destruct (deleteInvoice_effect invoiceId uid s fs) as (H1 & H2 & H3 & _).
  auto.
Qed.

(** X5.  Deleting twice: after a [deleteInvoice] that succeeded, a second
    one on the same id fails with "Invoice not found" and writes nothing,
    and [getInvoiceDetails] fails with "Invoice not found" too. *)
Theorem deleteInvoice_twice
    (invoiceId uid uid' : string) (s : Store) (fs fs' : list (option JsError)) :
  let r := invoiceService.deleteInvoice invoiceId uid {| store := s; faults := fs |} in
  fst r = Ok tt ->
  answered fs' ->
  invoiceService.deleteInvoice invoiceId uid' {| store := store (snd r); faults := fs' |}
  = (Err NotFound, {| store := store (snd r); faults := tl fs' |})
  /\ invoiceService.getInvoiceDetails invoiceId {| store := store (snd r); faults := fs' |}
     = (Err NotFound, {| store := store (snd r); faults := tl fs' |}).
Proof.
  intros r Hok Ha.
  assert (Hgone : get String.compare invoiceId (invoices (store (snd r))) = None).
  { destruct (deleteInvoice_effect invoiceId uid s fs) as (_ & _ & _ & Hsome & Hnone).
    fold r in Hsome, Hnone.
    destruct (get String.compare invoiceId (invoices s)) as [d|] eqn:Hd.
    - destruct (Hsome d eq_refl) as [(_ & _ & Hg & _)|(e & He & _)]; [exact Hg|].
      rewrite Hok in He. discriminate.
    - destruct (Hnone eq_refl) as (_ & e & He & _). rewrite Hok in He. discriminate. }
  split.
  - unfold invoiceService.deleteInvoice. rewrite tryCatch_rethrow.
    unfold bind, await, getDoc, throw. cbn [faults store].
    destruct fs' as [|[e|] fs1]; cbn [answered] in Ha; try contradiction;
      now rewrite Hgone.
  - unfold invoiceService.getInvoiceDetails, bind, await, getDoc, throw. cbn [faults store].
    destruct fs' as [|[e|] fs1]; cbn [answered] in Ha; try contradiction;
      now rewrite Hgone.
Qed.

Lemma deleteInvoice_twice_witness :
  let r := invoiceService.deleteInvoice "a" "u1" {| store := duplicateStore; faults := [] |} in
  invoiceService.deleteInvoice "a" "u1" {| store := store (snd r); faults := [] |}
  = (Err NotFound, {| store := store (snd r); faults := [] |})
  /\ invoiceService.getInvoiceDetails "a" {| store := store (snd r); faults := [] |}
     = (Err NotFound, {| store := store (snd r); faults := [] |}).
Proof.
  intros r.
  exact (deleteInvoice_twice "a" "u1" "u1" duplicateStore [] [] eq_refl I).
Defined.

(** ** Renaming, in full *)

(** All that [updateInvoiceNumber] may do, whatever the store rejects. *)
Lemma updateInvoiceNumber_effect
    (invoiceId uid newInvoiceNumber : string) (s : Store) (fs : list (option JsError)) :
  let r := invoiceService.updateInvoiceNumber invoiceId uid newInvoiceNumber
             {| store := s; faults := fs |} in
  (fst r = Ok tt
   /\ exists d, get String.compare invoiceId (invoices s) = Some d
                /\ userId d = uid
                /\ store (snd r)
                   = withInvoices
                       (set String.compare invoiceId
                          (withInvoiceNumber newInvoiceNumber d) (invoices s)) s)
  \/ (store (snd r) = s
      /\ exists e, fst r = Err e
                   /\ (answered fs ->
                       (get String.compare invoiceId (invoices s) = None -> e = NotFound)
                       /\ (forall d, get String.compare invoiceId (invoices s) = Some d ->
                                     userId d <> uid ->
                                     e = Error "Unauthorized to edit this invoice"))).
Proof.
  intros r. subst r. unfold invoiceService.updateInvoiceNumber.
  rewrite tryCatch_rethrow. unfold bind at 1. unfold await at 1, getDoc at 1.
  cbn [faults store].
  assert (Hrest : forall fs',
             let r := (match get String.compare invoiceId (invoices s) with
                       | Some d =>
                           if negb (String.eqb (userId d) uid)
                           then throw (Error "Unauthorized to edit this invoice")
                           else
                             (querySnapshot <-
                                await (getDocs (fun c => whereInvoiceNumber newInvoiceNumber
                                                           (whereUserId uid c))) ;;
                              (if match querySnapshot with
                                  | [] => false
                                  | doc0 :: _ => negb (String.eqb (fst doc0) invoiceId)
                                  end
                               then throw (Error "Invoice number already exists")
                               else ret tt) ;;
                              await (updateDoc invoiceId newInvoiceNumber))%io
                       | None => throw (Error "Invoice not found")
                       end) {| store := s; faults := fs' |} in
             (fst r = Ok tt
              /\ exists d, get String.compare invoiceId (invoices s) = Some d
                           /\ userId d = uid
                           /\ store (snd r)
                              = withInvoices
                                  (set String.compare invoiceId
                                     (withInvoiceNumber newInvoiceNumber d) (invoices s)) s)
             \/ (store (snd r) = s
                 /\ exists e, fst r = Err e
                              /\ (get String.compare invoiceId (invoices s) = None ->
                                  e = NotFound)
                              /\ (forall d,
                                     get String.compare invoiceId (invoices s) = Some d ->
                                     userId d <> uid ->
                                     e = Error "Unauthorized to edit this invoice"))).
  { intros fs' r. subst r.
    destruct (get String.compare invoiceId (invoices s)) as [d|] eqn:Hd.
    - destruct (String.eqb_spec (userId d) uid) as [Hu|Hu]; cbn [negb].
      + unfold bind at 1. unfold await at 1, getDocs at 1. cbn [faults store].
        assert (Hupd : forall fs'',
                   let r := ((if match whereInvoiceNumber newInvoiceNumber
                                          (whereUserId uid (invoices s)) with
                                 | [] => false
                                 | doc0 :: _ => negb (String.eqb (fst doc0) invoiceId)
                                 end
                              then throw (Error "Invoice number already exists")
                              else ret tt) ;;
                             await (updateDoc invoiceId newInvoiceNumber))%io
                              {| store := s; faults := fs'' |} in
                   (fst r = Ok tt
                    /\ store (snd r)
                       = withInvoices
                           (set String.compare invoiceId
                              (withInvoiceNumber newInvoiceNumber d) (invoices s)) s)
                   \/ (store (snd r) = s /\ exists e, fst r = Err e)).
        { intros fs'' r. subst r. unfold bind.
          destruct (match whereInvoiceNumber newInvoiceNumber (whereUserId uid (invoices s))
                    with [] => false | doc0 :: _ => negb (String.eqb (fst doc0) invoiceId) end).
          - right. cbn. eauto.
          - unfold ret, await, updateDoc. cbn [faults store].
            destruct fs'' as [|[e|] fs3]; cbn [faults store]; rewrite ?Hd; cbn; eauto. }
        destruct fs' as [|[e|] fs2].
        * destruct (Hupd []) as [[Ho Hs]|[Hs [e He]]].
          -- left. split; [exact Ho|]. exists d. auto.
          -- right. split; [exact Hs|]. exists e. split; [exact He|].
             split; [discriminate | intros d' [= <-] Hne; contradiction].
        * right. cbn. split; [reflexivity|]. exists e. split; [reflexivity|].
          split; [discriminate | intros d' [= <-] Hne; contradiction].
        * destruct (Hupd fs2) as [[Ho Hs]|[Hs [e He]]].
          -- left. split; [exact Ho|]. exists d. auto.
          -- right. split; [exact Hs|]. exists e. split; [exact He|].
             split; [discriminate | intros d' [= <-] Hne; contradiction].
      + right. cbn. split; [reflexivity|]. eexists. split; [reflexivity|].
        split; [discriminate | reflexivity].
    - right. cbn. split; [reflexivity|]. eexists. split; [reflexivity|].
      split; [reflexivity | discriminate]. }
  destruct fs as [|[e|] fs1].
  - destruct (Hrest []) as [Hl|(Hs & e & He & Hn & Hu)]; [now left|].
    right. split; [exact Hs|]. exists e. auto.
  - right. cbn. split; [reflexivity|]. exists e. split; [reflexivity | intros []].
  - destruct (Hrest fs1) as [Hl|(Hs & e & He & Hn & Hu)]; [now left|].
    right. split; [exact Hs|]. exists e. auto.
Qed.

Lemma withInvoiceNumber_back (n : string) (d : InvoiceDoc) :
  withInvoiceNumber (invoiceNumber d) (withInvoiceNumber n d) = d.
Proof. now destruct d. Qed.

(** X6.  [updateInvoiceNumber] changes at most the number of the header it
    is given: whoever calls and whatever the store rejects, the counter, the
    items and every other header are as before, a header is neither created
    nor removed, and the header renamed keeps its owner, its date of
    creation, its amounts and all its other fields. *)
Theorem updateInvoiceNumber_changes_only_the_number
    (invoiceId uid newInvoiceNumber : string) (s : Store) (fs : list (option JsError)) :
  let s' := store (snd (invoiceService.updateInvoiceNumber invoiceId uid newInvoiceNumber
                          {| store := s; faults := fs |})) in
  counter s' = counter s
  /\ items s' = items s
  /\ (forall k, k <> invoiceId ->
                get String.compare k (invoices s') = get String.compare k (invoices s))
  /\ (get String.compare invoiceId (invoices s) = None ->
      get String.compare invoiceId (invoices s') = None)
  /\ (forall d, get String.compare invoiceId (invoices s) = Some d ->
        exists d', get String.compare invoiceId (invoices s') = Some d'
                   /\ withInvoiceNumber (invoiceNumber d) d' = d
                   /\ (invoiceNumber d' = invoiceNumber d
                       \/ invoiceNumber d' = newInvoiceNumber)).
Proof.
  intros s'. subst s'.
  destruct (updateInvoiceNumber_effect invoiceId uid newInvoiceNumber s fs)
    as [(_ & d & Hd & _ & ->)|(-> & _)].
  - cbn [withInvoices counter items invoices].
    split; [reflexivity|]. split; [reflexivity|]. split.
    { intros k Hk. now apply get_set_other. }
    split; [congruence|].
    intros d0 Hd0. assert (d0 = d) as -> by congruence.
    exists (withInvoiceNumber newInvoiceNumber d). rewrite get_set_same.
    split; [reflexivity|]. split; [apply withInvoiceNumber_back | now right].
  - split; [reflexivity|]. split; [reflexivity|]. split; [reflexivity|].
    split; [auto|]. intros d Hd. exists d. split; [exact Hd|].
    split; [now destruct d | now left].
Qed.

(** X7.  A caller who is not the owner cannot rename: [updateInvoiceNumber]
    fails and the store is as before, with "Unauthorized to edit this
    invoice" whenever the store answers the fetch; on a missing header it
    fails with "Invoice not found". *)
Theorem updateInvoiceNumber_refuses
    (invoiceId uid newInvoiceNumber : string) (s : Store) (fs : list (option JsError)) :
  let r := invoiceService.updateInvoiceNumber invoiceId uid newInvoiceNumber
             {| store := s; faults := fs |} in
  (forall d, get String.compare invoiceId (invoices s) = Some d ->
             userId d <> uid ->
             store (snd r) = s
             /\ exists e, fst r = Err e
                          /\ (answered fs -> e = Error "Unauthorized to edit this invoice"))
  /\ (get String.compare invoiceId (invoices s) = None ->
      store (snd r) = s
      /\ exists e, fst r = Err e /\ (answered fs -> e = NotFound)).
Proof.
  intros r. subst r.
  destruct (updateInvoiceNumber_effect invoiceId uid newInvoiceNumber s fs)
    as [(_ & d & Hd & Hu & _)|(Hs & e & He & Ha)].
  - split.
    + intros d0 Hd0 Hne. congruence.
    + congruence.
  - split.
    + intros d Hd Hne. split; [exact Hs|]. exists e. split; [exact He|].
      intros Hans. destruct (Ha Hans) as [_ H]. now apply (H d).
    + intros Hn. split; [exact Hs|]. exists e. split; [exact He|].
      intros Hans. destruct (Ha Hans) as [H _]. now apply H.
Qed.

Lemma updateInvoiceNumber_refuses_witness :
  invoiceService.updateInvoiceNumber "a" "u2" "BILL/25/009"
    {| store := duplicateStore; faults := [] |}
  = (Err (Error "Unauthorized to edit this invoice"),
     {| store := duplicateStore; faults := [] |})
  /\ fst (invoiceService.updateInvoiceNumber "zz" "u2" "BILL/25/009"
            {| store := duplicateStore; faults := [] |})
     = Err NotFound.
Proof.
  destruct (updateInvoiceNumber_refuses "a" "u2" "BILL/25/009" duplicateStore [])
    as [Ha _].
  destruct (updateInvoiceNumber_refuses "zz" "u2" "BILL/25/009" duplicateStore [])
    as [_ Hz].
  destruct (get String.compare "a" (invoices duplicateStore)) as [d|] eqn:E;
    [|discriminate E].
  destruct (Ha d eq_refl) as (Hs & e & He & Hu).
  { injection E as <-. discriminate. }
  destruct (Hz eq_refl) as (_ & e' & He' & Hn).
  rewrite (Hn I) in He'. split; [reflexivity | exact He'].
Defined.

(** X8.  A rename that succeeded is seen by the next reads:
    [getInvoiceDetails] returns the header with the new number, otherwise
    the header as it was, and the same items; [checkInvoiceNumberExists] for
    the owner and the new number answers [true]. *)
Theorem updateInvoiceNumber_then_read
    (invoiceId uid newInvoiceNumber : string) (s : Store) (fs : list (option JsError)) :
  let r := invoiceService.updateInvoiceNumber invoiceId uid newInvoiceNumber
             {| store := s; faults := fs |} in
  let w' := {| store := store (snd r); faults := [] |} in
  fst r = Ok tt ->
  exists d,
    get String.compare invoiceId (invoices s) = Some d
    /\ invoiceService.getInvoiceDetails invoiceId w'
       = (Ok ({| id := invoiceId; data := withInvoiceNumber newInvoiceNumber d |},
              itemsUnder invoiceId s), w')
    /\ invoiceService.checkInvoiceNumberExists uid newInvoiceNumber None w'
       = (Ok true, w').
Proof.
  intros r w' Hok. subst w' r.
  destruct (updateInvoiceNumber_effect invoiceId uid newInvoiceNumber s fs)
    as [(_ & d & Hd & Hu & Hs)|(_ & e & He & _)];
    [|rewrite He in Hok; discriminate].
  exists d. split; [exact Hd|]. rewrite Hs. split.
  - rewrite getInvoiceDetails_run by exact I.
    cbn [withInvoices invoices]. now rewrite get_set_same.
  - unfold invoiceService.checkInvoiceNumberExists, tryCatch, bind, await, getDocs, ret.
    cbn [faults store withInvoices invoices].
    destruct (whereInvoiceNumber newInvoiceNumber
                (whereUserId uid
                   (set String.compare invoiceId (withInvoiceNumber newInvoiceNumber d)
                      (invoices s)))) as [|doc0 rest] eqn:El; [|reflexivity].
    exfalso.
    assert (Hin : In (invoiceId, withInvoiceNumber newInvoiceNumber d)
                    (whereInvoiceNumber newInvoiceNumber
                       (whereUserId uid
                          (set String.compare invoiceId
                             (withInvoiceNumber newInvoiceNumber d) (invoices s))))).
    { unfold whereInvoiceNumber, whereUserId. rewrite !filter_In. cbn [snd].
      split; [split|].
      - apply get_In. apply get_set_same.
      - destruct d; cbn in *. now apply String.eqb_eq.
      - destruct d; cbn. apply String.eqb_refl. }
    rewrite El in Hin. destruct Hin.
Qed.

Lemma updateInvoiceNumber_then_read_witness :
  let r := invoiceService.updateInvoiceNumber "b" "u1" "BILL/25/777"
             {| store := duplicateStore; faults := [] |} in
  let w' := {| store := store (snd r); faults := [] |} in
  exists d,
    invoiceService.getInvoiceDetails "b" w'
    = (Ok ({| id := "b"; data := withInvoiceNumber "BILL/25/777" d |},
           itemsUnder "b" duplicateStore), w')
    /\ invoiceService.checkInvoiceNumberExists "u1" "BILL/25/777" None w' = (Ok true, w').
Proof.
  intros r w'.
  destruct (updateInvoiceNumber_then_read "b" "u1" "BILL/25/777" duplicateStore []
              eq_refl) as (d & _ & H1 & H2).
  exists d. split; assumption.
Defined.

Lemma updateInvoiceNumber_changes_only_the_number_witness :
  let s' := store (snd (invoiceService.updateInvoiceNumber "b" "u1" "BILL/25/777"
                          {| store := duplicateStore; faults := [] |})) in
  counter s' = counter duplicateStore
  /\ items s' = items duplicateStore
  /\ get String.compare "a" (invoices s') = get String.compare "a" (invoices duplicateStore)
  /\ exists d d',
       get String.compare "b" (invoices duplicateStore) = Some d
       /\ get String.compare "b" (invoices s') = Some d'
       /\ withInvoiceNumber (invoiceNumber d) d' = d.
Proof.
  intros s'.
  destruct (updateInvoiceNumber_changes_only_the_number "b" "u1" "BILL/25/777"
              duplicateStore []) as (Hc & Hi & Hk & _ & Hd).
  destruct (get String.compare "b" (invoices duplicateStore)) as [d|] eqn:E;
    [|discriminate E].
  destruct (Hd d eq_refl) as (d' & Hd' & Hback & _).
  split; [exact Hc|]. split; [exact Hi|].
  split; [apply Hk; discriminate|].
  exists d, d'. repeat split; assumption.
Defined.

(** ** The existence check, in full *)

(** X9.  When the store answers and no id is excluded ([undefined] or the
    empty string), [checkInvoiceNumberExists] is [true] exactly when some
    header of that owner carries that number; headers of other owners with
    the same number do not count.  It writes nothing. *)
Theorem checkInvoiceNumberExists_exact
    (uid n : string) (excludeInvoiceId : option string)
    (s : Store) (fs : list (option JsError)) :
  answered fs ->
  invoiceService.provided excludeInvoiceId = None ->
  exists b : bool,
    invoiceService.checkInvoiceNumberExists uid n excludeInvoiceId
      {| store := s; faults := fs |}
    = (Ok b, {| store := s; faults := tl fs |})
    /\ (b = true <->
        exists k d, In (k, d) (invoices s) /\ userId d = uid /\ invoiceNumber d = n).
Proof.
  intros Ha Hex.
  assert (Hrun : invoiceService.checkInvoiceNumberExists uid n excludeInvoiceId
                   {| store := s; faults := fs |}
                 = (Ok (match whereInvoiceNumber n (whereUserId uid (invoices s)) with
                        | [] => false
                        | _ :: _ => true
                        end), {| store := s; faults := tl fs |})).
  { unfold invoiceService.checkInvoiceNumberExists, tryCatch, bind, await, getDocs, ret.
    cbn [faults store]. rewrite Hex.
    destruct fs as [|[e|] fs1]; cbn [answered] in Ha; try contradiction;
      cbn [tl]; now destruct (whereInvoiceNumber n (whereUserId uid (invoices s))). }
  eexists. split; [exact Hrun|].
  destruct (whereInvoiceNumber n (whereUserId uid (invoices s))) as [|[k d] rest] eqn:El.
  - split; [discriminate|]. intros (k & d & Hin & Hu & Hn). exfalso.
    assert (H : In (k, d) (whereInvoiceNumber n (whereUserId uid (invoices s)))).
    { unfold whereInvoiceNumber, whereUserId. rewrite !filter_In. cbn [snd].
      now rewrite !String.eqb_eq. }
    rewrite El in H. destruct H.
  - split; [intros _|reflexivity].
    assert (H : In (k, d) (whereInvoiceNumber n (whereUserId uid (invoices s))))
      by (rewrite El; now left).
    unfold whereInvoiceNumber, whereUserId in H. rewrite !filter_In in H. cbn [snd] in H.
    rewrite !String.eqb_eq in H. exists k, d. tauto.
Qed.

Lemma checkInvoiceNumberExists_exact_witness :
  invoiceService.checkInvoiceNumberExists "u1" "BILL/25/002" (Some EmptyString)
    {| store := duplicateStore; faults := [] |}
  = (Ok true, {| store := duplicateStore; faults := [] |})
  /\ invoiceService.checkInvoiceNumberExists "u2" "BILL/25/002" None
       {| store := duplicateStore; faults := [] |}
     = (Ok false, {| store := duplicateStore; faults := [] |}).
Proof.
  destruct (checkInvoiceNumberExists_exact "u1" "BILL/25/002" (Some EmptyString)
              duplicateStore [] I eq_refl) as (b1 & E1 & _).
  destruct (checkInvoiceNumberExists_exact "u2" "BILL/25/002" None
              duplicateStore [] I eq_refl) as (b2 & E2 & _).
  split.
  - rewrite E1. injection E1 as <-. reflexivity.
  - rewrite E2. injection E2 as <-. reflexivity.
Defined.

(** X10.  The check agrees with the guard of the rename: for a header of the
    caller and a store that rejects nothing, [checkInvoiceNumberExists]
    with the header's own id excluded answers [false] exactly when
    [updateInvoiceNumber] to that number succeeds. *)
Theorem checkInvoiceNumberExists_guards_rename
    (invoiceId uid n : string) (s : Store) (d : InvoiceDoc) :
  get String.compare invoiceId (invoices s) = Some d ->
  userId d = uid ->
  invoiceId <> EmptyString ->
  let w := {| store := s; faults := [] |} in
  fst (invoiceService.checkInvoiceNumberExists uid n (Some invoiceId) w) = Ok false
  <-> fst (invoiceService.updateInvoiceNumber invoiceId uid n w) = Ok tt.
Proof.
  intros Hd Hu Hid w. subst w.
  unfold invoiceService.checkInvoiceNumberExists, invoiceService.updateInvoiceNumber.
  rewrite tryCatch_rethrow.
  unfold tryCatch, bind, await, getDoc, getDocs, updateDoc, ret, throw.
  cbn [faults store]. rewrite Hd, Hu, String.eqb_refl. cbn [negb faults store].
  assert (Hp : invoiceService.provided (Some invoiceId) = Some invoiceId).
  { destruct invoiceId; [contradiction | reflexivity]. }
  rewrite Hp.
  destruct (whereInvoiceNumber n (whereUserId uid (invoices s))) as [|doc0 rest].
  - cbn [faults store]. rewrite Hd. cbn. split; reflexivity.
  - destruct (String.eqb (fst doc0) invoiceId); cbn [negb faults store].
    + rewrite Hd. cbn. split; reflexivity.
    + cbn. split; discriminate.
Qed.

Lemma checkInvoiceNumberExists_guards_rename_witness :
  fst (invoiceService.checkInvoiceNumberExists "u1" "BILL/25/002" (Some "b")
         {| store := duplicateStore; faults := [] |}) <> Ok false
  /\ fst (invoiceService.updateInvoiceNumber "b" "u1" "BILL/25/002"
            {| store := duplicateStore; faults := [] |}) <> Ok tt.
Proof.
  destruct (get String.compare "b" (invoices duplicateStore)) as [d|] eqn:E;
    [|discriminate E].
  assert (Hu : userId d = "u1") by (injection E as <-; reflexivity).
  pose proof (checkInvoiceNumberExists_guards_rename "b" "u1" "BILL/25/002"
                duplicateStore d E Hu ltac:(discriminate)) as [H1 H2].
  split; [discriminate|]. intros H. apply H2 in H. discriminate H.
Defined.

Lemma NoDup_keys_functional {K V : Type} (l : list (K * V)) (k : K) (a b : V) :
  NoDup (map fst l) -> In (k, a) l -> In (k, b) l -> a = b.
Proof.
  induction l as [|[k1 v1] l IH]; intros Hnd Ha Hb; [destruct Ha|].
  cbn [map fst] in Hnd. inversion Hnd as [|? ? Hnot Hnd']; subst.
  destruct Ha as [Ha|Ha], Hb as [Hb|Hb].
  - congruence.
  - injection Ha as -> ->. exfalso. apply Hnot. apply in_map_iff. now exists (k, b).
  - injection Hb as -> ->. exfalso. apply Hnot. apply in_map_iff. now exists (k, a).
  - now apply IH.
Qed.

(** X11.  With one header per id in the store: renaming a header of the
    caller to a number it does not carry itself, and which another header of
    the caller carries, fails with "Invoice number already exists" and
    writes nothing. *)
Theorem updateInvoiceNumber_duplicate_refused
    (invoiceId uid n : string) (s : Store) (d : InvoiceDoc) (k : string) (d' : InvoiceDoc) :
  NoDup (map fst (invoices s)) ->
  get String.compare invoiceId (invoices s) = Some d ->
  userId d = uid ->
  invoiceNumber d <> n ->
  In (k, d') (invoices s) ->
  userId d' = uid ->
  invoiceNumber d' = n ->
  invoiceService.updateInvoiceNumber invoiceId uid n {| store := s; faults := [] |}
  = (Err DuplicateNumber, {| store := s; faults := [] |}).
Proof.
  intros Hnd Hd Hu Hn Hin Hu' Hn'.
  assert (Hm : In (k, d') (whereInvoiceNumber n (whereUserId uid (invoices s)))).
  { unfold whereInvoiceNumber, whereUserId. rewrite !filter_In. cbn [snd].
    now rewrite !String.eqb_eq. }
  destruct (whereInvoiceNumber n (whereUserId uid (invoices s))) as [|[k0 d0] rest] eqn:El;
    [destruct Hm|].
  apply (updateInvoiceNumber_first_match_other invoiceId uid n s d Hd Hu (k0, d0) rest El).
  cbn [fst]. intros ->.
  assert (H0 : In (invoiceId, d0) (invoices s)).
  { assert (H : In (invoiceId, d0) (whereInvoiceNumber n (whereUserId uid (invoices s))))
      by (rewrite El; now left).
    unfold whereInvoiceNumber, whereUserId in H. rewrite !filter_In in H. tauto. }
  assert (Hn0 : invoiceNumber d0 = n).
  { assert (H : In (invoiceId, d0) (whereInvoiceNumber n (whereUserId uid (invoices s))))
      by (rewrite El; now left).
    unfold whereInvoiceNumber in H. rewrite filter_In in H. cbn [snd] in H.
    now apply String.eqb_eq. }
  apply get_In in Hd.
  assert (d0 = d) by (exact (NoDup_keys_functional _ _ _ _ Hnd H0 Hd)).
  congruence.
Qed.

Lemma updateInvoiceNumber_duplicate_refused_witness :
  invoiceService.updateInvoiceNumber "b" "u1" "BILL/25/001"
    {| store := historyStore; faults := [] |}
  = (Err DuplicateNumber, {| store := historyStore; faults := [] |}).
Proof.
  destruct (get String.compare "b" (invoices historyStore)) as [d|] eqn:Eb;
    [|discriminate Eb].
  destruct (get String.compare "a" (invoices historyStore)) as [d'|] eqn:Ea;
    [|discriminate Ea].
  apply (updateInvoiceNumber_duplicate_refused "b" "u1" "BILL/25/001" historyStore
           d "a" d').
  - repeat constructor; cbn; intuition discriminate.
  - exact Eb.
  - injection Eb as <-. reflexivity.
  - injection Eb as <-. discriminate.
  - apply get_In. exact Ea.
  - injection Ea as <-. reflexivity.
  - injection Ea as <-. reflexivity.
Defined.

(** X12.  Renaming a header of the caller to a number that no other header
    of the caller carries succeeds when the store rejects nothing, and puts
    the new number on that header. *)
Theorem updateInvoiceNumber_free_number
    (invoiceId uid n : string) (s : Store) (d : InvoiceDoc) :
  get String.compare invoiceId (invoices s) = Some d ->
  userId d = uid ->
  (forall k d', In (k, d') (invoices s) -> userId d' = uid -> invoiceNumber d' = n ->
                k = invoiceId) ->
  invoiceService.updateInvoiceNumber invoiceId uid n {| store := s; faults := [] |}
  = (Ok tt,
     {| store := withInvoices
                   (set String.compare invoiceId (withInvoiceNumber n d) (invoices s)) s;
        faults := [] |}).
Proof.
  intros Hd Hu Hfree.
  destruct (updateInvoiceNumber_no_other invoiceId uid n s d Hd Hu Hfree) as (s' & E & _).
  destruct (updateInvoiceNumber_effect invoiceId uid n s [])
    as [(_ & d0 & Hd0 & _ & Hs)|(_ & e & He & _)].
  - rewrite E in Hs. cbn [snd store] in Hs. rewrite E, Hs. congruence.
  - rewrite E in He. discriminate.
Qed.

Lemma updateInvoiceNumber_free_number_witness :
  exists s' : Store,
    invoiceService.updateInvoiceNumber "b" "u1" "BILL/25/777"
      {| store := historyStore; faults := [] |}
    = (Ok tt, {| store := s'; faults := [] |})
    /\ option_map invoiceNumber (get String.compare "b" (invoices s')) = Some "BILL/25/777".
Proof.
  destruct (get String.compare "b" (invoices historyStore)) as [d|] eqn:Eb;
    [|discriminate Eb].
  eexists. split.
  - apply (updateInvoiceNumber_free_number "b" "u1" "BILL/25/777" historyStore d Eb).
    + injection Eb as <-. reflexivity.
    + intros k d' Hin Hu Hn. exfalso. cbn in Hin.
      repeat (destruct Hin as [[= <- <-]|Hin]; [cbn in Hn; discriminate Hn|]).
      destruct Hin.
  - cbn [invoices withInvoices]. now rewrite get_set_same.
Defined.

(** ** Listing, the primary path *)

Lemma insertSorted_sorted_ties {A : Type} (key : A -> Z) (after : A -> A -> bool)
    (x : A) (l : list A) :
  (forall a b, after a b = true -> key a <= key b) ->
  (forall a b, after a b = false -> key b <= key a) ->
  StronglySorted (fun a b => key b <= key a) l ->
  StronglySorted (fun a b => key b <= key a) (insertSorted after x l).
Proof.
  intros Ht Hf Hsorted. induction Hsorted as [|y l Hs IH Hy]; cbn [insertSorted].
  - repeat constructor.
  - destruct (after x y) eqn:E.
    + apply Ht in E. constructor; [exact IH|].
      apply Forall_forall. intros z Hz.
      apply (Permutation_in _ (insertSorted_perm after x l)) in Hz.
      destruct Hz as [<-|Hz]; [exact E|].
      rewrite Forall_forall in Hy. now apply Hy.
    + apply Hf in E.
      constructor; [now constructor|].
      constructor; [exact E|].
      rewrite Forall_forall in Hy |- *. intros z Hz. specialize (Hy z Hz). lia.
Qed.

Lemma storeAfterDesc_true (a b : string * InvoiceDoc) :
  storeAfterDesc a b = true ->
  instant (createdAt (snd a)) <= instant (createdAt (snd b)).
Proof.
  unfold storeAfterDesc.
  destruct (Z.compare_spec (instant (createdAt (snd a))) (instant (createdAt (snd b))))
    as [Hc|Hc|Hc]; intros Hb; try lia; discriminate.
Qed.

Lemma storeAfterDesc_false (a b : string * InvoiceDoc) :
  storeAfterDesc a b = false ->
  instant (createdAt (snd b)) <= instant (createdAt (snd a)).
Proof.
  unfold storeAfterDesc.
  destruct (Z.compare_spec (instant (createdAt (snd a))) (instant (createdAt (snd b))))
    as [Hc|Hc|Hc]; intros Hb; try lia; discriminate.
Qed.

(** X13.  When the store answers the sorted query, [getInvoices] returns
    exactly the headers of that owner, each once, newest first, and leaves
    the store as it is. *)
Theorem getInvoices_primary_path
    (uid : string) (s : Store) (fs : list (option JsError)) :
  answered fs ->
  exists l : list Invoice,
    invoiceService.getInvoices uid {| store := s; faults := fs |}
    = (Ok l, {| store := s; faults := tl fs |})
    /\ Permutation l (ownedBy uid s)
    /\ (forall inv, In inv l
                    <-> In (id inv, data inv) (invoices s) /\ userId (data inv) = uid)
    /\ newestFirst l.
Proof.
  intros Ha. eexists. split; [now apply getInvoices_primary|].
  assert (P : Permutation
                (map toInvoice (orderByCreatedAtDesc (whereUserId uid (invoices s))))
                (ownedBy uid s)).
  { unfold ownedBy, orderByCreatedAtDesc. apply Permutation_map, stableSort_perm. }
  split; [exact P|]. split.
  { intros inv. rewrite <- In_ownedBy. split; apply Permutation_in; [|symmetry]; exact P. }
  unfold newestFirst, orderByCreatedAtDesc.
  rewrite <- (stableSort_map toInvoice storeAfterDesc
                (fun a b => storeAfterDesc (id a, data a) (id b, data b)))
    by (intros [k1 d1] [k2 d2]; reflexivity).
  unfold stableSort.
  induction (map toInvoice (whereUserId uid (invoices s))) as [|x l IH]; cbn [fold_right].
  - constructor.
  - apply insertSorted_sorted_ties; [| |exact IH].
    + intros a b H. apply storeAfterDesc_true in H. exact H.
    + intros a b H. apply storeAfterDesc_false in H. exact H.
Qed.

Lemma getInvoices_primary_path_witness :
  exists l : list Invoice,
    invoiceService.getInvoices "u1" {| store := historyStore; faults := [] |}
    = (Ok l, {| store := historyStore; faults := [] |})
    /\ map id l = ["b"; "d"; "a"]
    /\ newestFirst l.
Proof.
  destruct (getInvoices_primary_path "u1" historyStore [] I) as (l & E & _ & _ & Hs).
  exists l. split; [exact E|]. split; [injection E as <-; reflexivity | exact Hs].
Defined.

(** X14.  [getInvoices] writes nothing, whatever the store rejects; and an
    error that is not a missing-index error is thrown on as it is, without a
    second query. *)
Theorem getInvoices_reads_only
    (uid : string) (s : Store) (fs : list (option JsError)) :
  store (snd (invoiceService.getInvoices uid {| store := s; faults := fs |})) = s
  /\ (forall e rest,
         fs = Some e :: rest ->
         invoiceService.isIndexError e = false ->
         invoiceService.getInvoices uid {| store := s; faults := fs |}
         = (Err e, {| store := s; faults := rest |})).
Proof.
  unfold invoiceService.getInvoices, tryCatch, bind, await, getDocs, ret, throw.
  cbn [faults store]. split.
  - destruct fs as [|[e|] fs1]; cbn [snd store]; try reflexivity.
    destruct (invoiceService.isIndexError e); cbn [faults store]; [|reflexivity].
    destruct fs1 as [|[e2|] fs2]; reflexivity.
  - intros e rest -> He. cbn [faults store]. now rewrite He.
Qed.

Lemma getInvoices_reads_only_witness :
  invoiceService.getInvoices "u1"
    {| store := historyStore; faults := [Some unavailable; None] |}
  = (Err unavailable, {| store := historyStore; faults := [None] |}).
Proof.
  destruct (getInvoices_reads_only "u1" historyStore [Some unavailable; None]) as [_ H].
  exact (H unavailable [None] eq_refl eq_refl).
Defined.

(** ** Any calls, one after the other *)

Lemma deleteInvoice_non_owner_store
    (invoiceId uid : string) (s : Store) (fs : list (option JsError)) (d : InvoiceDoc) :
  get String.compare invoiceId (invoices s) = Some d ->
  userId d <> uid ->
  store (snd (invoiceService.deleteInvoice invoiceId uid {| store := s; faults := fs |})) = s.
Proof.
  intros Hd Hne. apply String.eqb_neq in Hne.
  unfold invoiceService.deleteInvoice. rewrite tryCatch_rethrow.
  unfold bind, await, getDoc, throw. cbn [faults store].
  destruct fs as [|[e|] fs1]; cbn [fst snd store]; rewrite ?Hd, ?Hne; reflexivity.
Qed.

Lemma checkInvoiceNumberExists_store
    (uid n : string) (ex : option string) (s : Store) (fs : list (option JsError)) :
  store (snd (invoiceService.checkInvoiceNumberExists uid n ex
                {| store := s; faults := fs |})) = s.
Proof.
  unfold invoiceService.checkInvoiceNumberExists, tryCatch, bind, await, getDocs, ret.
  cbn [faults store].
  destruct fs as [|[e|] fs1]; cbn [snd store]; try reflexivity;
    destruct (whereInvoiceNumber n (whereUserId uid (invoices s))); try reflexivity;
    destruct (invoiceService.provided ex); reflexivity.
Qed.

Lemma getInvoices_store (uid : string) (s : Store) (fs : list (option JsError)) :
  store (snd (invoiceService.getInvoices uid {| store := s; faults := fs |})) = s.
Proof.
  unfold invoiceService.getInvoices, tryCatch, bind, await, getDocs, ret, throw.
  cbn [faults store].
  destruct fs as [|[e|] fs1]; cbn [snd store]; try reflexivity.
  destruct (invoiceService.isIndexError e); cbn [faults store]; [|reflexivity].
  destruct fs1 as [|[e2|] fs2]; reflexivity.
Qed.

Lemma getInvoiceDetails_store (invoiceId : string) (s : Store) (fs : list (option JsError)) :
  store (snd (invoiceService.getInvoiceDetails invoiceId {| store := s; faults := fs |})) = s.
Proof.
  unfold invoiceService.getInvoiceDetails, bind, await, getDoc, getItemDocs, ret, throw.
  cbn [faults store].
  destruct fs as [|[e|] fs]; cbn [faults store snd];
    destruct (get String.compare invoiceId (invoices s)); cbn [faults store snd];
    try reflexivity;
    destruct fs as [|[e'|] fs]; reflexivity.
Qed.

Lemma filter_set_other {V : Type} (f : (string * string) * V -> bool)
    (key : string * string) (v : V) (c : list ((string * string) * V)) :
  (forall v', f (key, v') = false) ->
  filter f (set cmpItemKey key v c) = filter f c.
Proof.
  intros Hf. induction c as [|[k0 v0] c IH]; cbn [set filter].
  - now rewrite Hf.
  - destruct (cmpItemKey key k0) eqn:E; cbn [filter].
    + apply cmpItemKey_Eq in E. subst k0. now rewrite !Hf.
    + now rewrite Hf.
    + now rewrite IH.
Qed.

Lemma itemsUnder_applyWrite (k : string) (s : Store) (w : Write) :
  match w with SetItem parent _ _ => parent <> k | _ => True end ->
  itemsUnder k (applyWrite s w) = itemsUnder k s.
Proof.
  destruct w as [ref d|parent ref item|c]; intros H; try reflexivity.
  unfold itemsUnder. cbn [applyWrite withItems items]. f_equal.
  apply filter_set_other. intros v'. cbn [fst]. now apply String.eqb_neq.
Qed.

Lemma itemsUnder_applyWrites (k : string) (ws : list Write) :
  Forall (fun w => match w with SetItem parent _ _ => parent <> k | _ => True end) ws ->
  forall s, itemsUnder k (fold_left applyWrite ws s) = itemsUnder k s.
Proof.
  induction 1 as [|w ws Hw _ IH]; intros s; cbn [fold_left]; [reflexivity|].
  rewrite IH. now apply itemsUnder_applyWrite.
Qed.

Lemma itemWritesOf_parent (ref : string) (ids : nat -> string) (l : list InvoiceItem) :
  forall i, Forall (fun w => match w with SetItem parent _ _ => parent = ref | _ => False end)
              (itemWritesOf ref ids i l).
Proof. induction l as [|x l IH]; intros i; cbn; constructor; auto. Qed.

(** A call of [createInvoice] leaves the items of the other headers alone. *)
Lemma runCreate_items_frame (c : CreateCall) (s : Store) (k : string) :
  k <> autoInvoiceId (callEnv c) ->
  itemsUnder k (snd (runCreate c s)) = itemsUnder k s.
Proof.
  intros Hk. destruct (callOutcome c) as [e|] eqn:H.
  - now rewrite (runCreate_abort c s e H).
  - rewrite (runCreate_transactionOf c s H). cbn [snd].
    destruct (transactionOf_itemWrites c s) as (d & ->).
    apply itemsUnder_applyWrites.
    constructor; [exact I|]. apply Forall_app. split.
    + eapply Forall_impl; [|apply itemWritesOf_parent].
      intros [| |] Hw; try contradiction. congruence.
    + now constructor.
Qed.

Lemma itemsUnder_elsewhere (k i : string) (s s' : Store) :
  k <> i ->
  itemsElsewhere i s' = itemsElsewhere i s ->
  itemsUnder k s' = itemsUnder k s.
Proof.
  intros Hk He.
  assert (Hf : forall l : list ((string * string) * InvoiceItem),
             filter (fun kv => String.eqb (fst (fst kv)) k) l
             = filter (fun kv => String.eqb (fst (fst kv)) k)
                 (filter (fun kv => negb (String.eqb (fst (fst kv)) i)) l)).
  { induction l as [|[[p x] v] l IH]; cbn [filter fst]; [reflexivity|].
    destruct (String.eqb_spec p i) as [->|Hp]; cbn [negb filter fst].
    - assert (Hik : String.eqb i k = false) by (apply String.eqb_neq; congruence).
      rewrite Hik. exact IH.
    - destruct (String.eqb p k); [now rewrite IH | exact IH]. }
  unfold itemsUnder. rewrite (Hf (items s')), (Hf (items s)).
  unfold itemsElsewhere in He. now rewrite He.
Qed.

Lemma afterCall_untouched (k u : string) (d : InvoiceDoc) (s : Store) (call : ServiceCall) :
  get String.compare k (invoices s) = Some d ->
  userId d = u ->
  createsAt k call = false ->
  mutatesAs k u call = false ->
  get String.compare k (invoices (afterCall s call)) = Some d
  /\ itemsUnder k (afterCall s call) = itemsUnder k s.
Proof.
  intros Hd Hu Hc Hm.
  destruct call as [c|i v fs|i v n fs|v fs|i fs|v n ex fs]; cbn [afterCall createsAt mutatesAs] in *.
  - destruct (String.eqb_spec (autoInvoiceId (callEnv c)) k) as [Hk|Hk].
    + rewrite andb_true_r in Hc. unfold commits in Hc.
      destruct (callOutcome c) as [e|] eqn:Ho; [|discriminate].
      rewrite (runCreate_abort c s e Ho). now split.
    + split.
      * rewrite runCreate_frame by congruence. exact Hd.
      * apply runCreate_items_frame. congruence.
  - destruct (String.eqb_spec i k) as [->|Hk].
    + cbn [andb] in Hm. apply String.eqb_neq in Hm.
      rewrite (deleteInvoice_non_owner_store k v s fs d Hd) by congruence. now split.
    + destruct (deleteInvoice_effect i v s fs) as (_ & Hg & He & _).
      split.
      * rewrite Hg by congruence. exact Hd.
      * apply (itemsUnder_elsewhere k i); [congruence | exact He].
  - destruct (updateInvoiceNumber_effect i v n s fs)
      as [(_ & d0 & Hd0 & Hv & ->)|(-> & _)]; [|now split].
    split; [|reflexivity]. cbn [withInvoices invoices].
    destruct (String.eqb_spec i k) as [->|Hk].
    + assert (d0 = d) as -> by congruence.
      cbn [andb] in Hm. apply String.eqb_neq in Hm. congruence.
    + rewrite get_set_other by congruence. exact Hd.
  - rewrite getInvoices_store. now split.
  - rewrite getInvoiceDetails_store. now split.
  - rewrite checkInvoiceNumberExists_store. now split.
Qed.

(** X15.  What others do never reaches an invoice: through any calls of the
    service, with whatever rejections, none of which is a delete or a rename
    of the invoice made with the id of its owner (and none of which creates
    an invoice under its id), the header stays exactly as it is and so do
    the items under it, whatever the others delete, rename, list, read or
    check, this invoice included. *)
Theorem others_never_touch_an_invoice
    (k u : string) (d : InvoiceDoc) (calls : list ServiceCall) (s : Store) :
  get String.compare k (invoices s) = Some d ->
  userId d = u ->
  forallb (fun call => negb (createsAt k call) && negb (mutatesAs k u call)) calls = true ->
  get String.compare k (invoices (afterCalls calls s)) = Some d
  /\ itemsUnder k (afterCalls calls s) = itemsUnder k s.
Proof.
  intros Hd Hu. revert s Hd. unfold afterCalls.
  induction calls as [|call calls IH]; intros s Hd Hall; cbn [fold_left]; [now split|].
  cbn [forallb] in Hall. apply andb_true_iff in Hall. destruct Hall as [Hcall Hall].
  apply andb_true_iff in Hcall. destruct Hcall as [Hc Hm].
  apply negb_true_iff in Hc, Hm.
  destruct (afterCall_untouched k u d s call Hd Hu Hc Hm) as [Hd' Hi'].
  destruct (IH (afterCall s call) Hd' Hall) as [Hd'' Hi''].
  split; [exact Hd''|]. now rewrite Hi''.
Qed.

Lemma others_never_touch_an_invoice_witness :
  let calls :=
    [ Deletes "a" "u2" [];
      Renames "a" "u2" "BILL/25/999" [];
      Creates (sampleCall 2026 5000 "e" "u2" scenarioItems fixed 0 None);
      Deletes "c" "u2" [None; None; Some unavailable];
      Renames "b" "u1" "BILL/25/123" [] ] in
  exists d,
    get String.compare "a" (invoices historyStore) = Some d
    /\ get String.compare "a" (invoices (afterCalls calls historyStore)) = Some d
    /\ itemsUnder "a" (afterCalls calls historyStore) = itemsUnder "a" historyStore.
Proof.
  intros calls.
  destruct (get String.compare "a" (invoices historyStore)) as [d|] eqn:E;
    [|discriminate E].
  exists d. split; [reflexivity|].
  apply (others_never_touch_an_invoice "a" "u1" d calls historyStore E).
  - injection E as <-. reflexivity.
  - reflexivity.
Defined.

Lemma withInvoiceNumber_twice (n m : string) (d : InvoiceDoc) :
  withInvoiceNumber n (withInvoiceNumber m d) = withInvoiceNumber n d.
Proof. reflexivity. Qed.

Lemma afterCalls_header (k : string) (d : InvoiceDoc) (calls : list ServiceCall) (s : Store) :
  get String.compare k (invoices s) = Some d ->
  forallb (fun call => negb (createsAt k call)) calls = true ->
  match get String.compare k (invoices (afterCalls calls s)) with
  | Some d' => withInvoiceNumber (invoiceNumber d) d' = d
  | None => True
  end.
Proof.
  intros Hd Hall.
  assert (Hinv : match get String.compare k (invoices s) with
                 | Some d' => withInvoiceNumber (invoiceNumber d) d' = d
                 | None => True
                 end) by (rewrite Hd; now destruct d).
  clear Hd. revert s Hinv. unfold afterCalls.
  induction calls as [|call calls IH]; intros s Hinv; cbn [fold_left]; [exact Hinv|].
  cbn [forallb] in Hall. apply andb_true_iff in Hall. destruct Hall as [Hc Hall].
  apply negb_true_iff in Hc. apply (IH Hall). clear IH Hall.
  destruct call as [c|i v fs|i v n fs|v fs|i fs|v n ex fs]; cbn [afterCall createsAt] in *.
  - destruct (String.eqb_spec (autoInvoiceId (callEnv c)) k) as [Hk|Hk].
    + rewrite andb_true_r in Hc. unfold commits in Hc.
      destruct (callOutcome c) as [e|] eqn:Ho; [|discriminate].
      now rewrite (runCreate_abort c s e Ho).
    + rewrite runCreate_frame by congruence. exact Hinv.
  - destruct (deleteInvoice_effect i v s fs) as (_ & Hg & _ & Hsome & Hnone).
    destruct (String.eqb_spec i k) as [->|Hk]; [|rewrite Hg by congruence; exact Hinv].
    destruct (get String.compare k (invoices s)) as [d0|] eqn:Hd0.
    + destruct (Hsome d0 eq_refl) as [(_ & _ & -> & _)|(e & _ & ->)]; [exact I | exact Hinv].
    + destruct (Hnone eq_refl) as [-> _]. now rewrite Hd0.
  - destruct (updateInvoiceNumber_effect i v n s fs)
      as [(_ & d0 & Hd0 & _ & ->)|(-> & _)]; [|exact Hinv].
    cbn [withInvoices invoices].
    destruct (String.eqb_spec i k) as [->|Hk].
    + rewrite get_set_same. rewrite Hd0 in Hinv.
      now rewrite withInvoiceNumber_twice.
    + rewrite get_set_other by congruence. exact Hinv.
  - now rewrite getInvoices_store.
  - now rewrite getInvoiceDetails_store.
  - now rewrite checkInvoiceNumberExists_store.
Qed.

(** Without a creation under its id, a header that is not there does not
    appear. *)
Lemma afterCalls_absent (k : string) (calls : list ServiceCall) :
  forallb (fun call => negb (createsAt k call)) calls = true ->
  forall s : Store,
    get String.compare k (invoices s) = None ->
    get String.compare k (invoices (afterCalls calls s)) = None.
Proof.
  unfold afterCalls.
  induction calls as [|call calls IH]; intros Hall s Hs; cbn [fold_left]; [exact Hs|].
  cbn [forallb] in Hall. apply andb_true_iff in Hall. destruct Hall as [Hc Hall].
  apply negb_true_iff in Hc. apply (IH Hall). clear IH Hall.
  destruct call as [c|i v fs|i v n fs|v fs|i fs|v n ex fs]; cbn [afterCall createsAt] in *.
  - destruct (String.eqb_spec (autoInvoiceId (callEnv c)) k) as [Hk|Hk].
    + rewrite andb_true_r in Hc. unfold commits in Hc.
      destruct (callOutcome c) as [e|] eqn:Ho; [|discriminate].
      now rewrite (runCreate_abort c s e Ho).
    + rewrite runCreate_frame by congruence. exact Hs.
  - destruct (deleteInvoice_effect i v s fs) as (_ & Hg & _ & _ & Hnone).
    destruct (String.eqb_spec i k) as [->|Hk]; [|rewrite Hg by congruence; exact Hs].
    destruct (Hnone Hs) as [-> _]. exact Hs.
  - destruct (updateInvoiceNumber_effect i v n s fs)
      as [(_ & d0 & Hd0 & _ & ->)|(-> & _)]; [|exact Hs].
    cbn [withInvoices invoices].
    destruct (String.eqb_spec i k) as [->|Hk]; [congruence|].
    rewrite get_set_other by congruence. exact Hs.
  - now rewrite getInvoices_store.
  - now rewrite getInvoiceDetails_store.
  - now rewrite checkInvoiceNumberExists_store.
Qed.

(** X16.  A header is never rewritten but for its number: through any calls
    of the service, by anyone, with whatever rejections, in which no new
    invoice is given its id, the header is at every moment either gone or
    the header it was with, at most, another number: owner, date of creation
    and amounts never change; and once it is gone it is gone at the end
    too. *)
Theorem header_changes_only_in_number
    (k : string) (d : InvoiceDoc) (calls : list ServiceCall) (s : Store) :
  get String.compare k (invoices s) = Some d ->
  forallb (fun call => negb (createsAt k call)) calls = true ->
  match get String.compare k (invoices (afterCalls calls s)) with
  | Some d' => withInvoiceNumber (invoiceNumber d) d' = d
  | None => True
  end
  /\ (forall done_ rest : list ServiceCall,
         calls = (done_ ++ rest)%list ->
         match get String.compare k (invoices (afterCalls done_ s)) with
         | Some d' => withInvoiceNumber (invoiceNumber d) d' = d
         | None => get String.compare k (invoices (afterCalls calls s)) = None
         end).
Proof.
  intros Hd Hall. split; [now apply afterCalls_header|].
  intros done_ rest ->. rewrite forallb_app in Hall.
  apply andb_true_iff in Hall. destruct Hall as [Hdone Hrest].
  pose proof (afterCalls_header k d done_ s Hd Hdone) as H.
  destruct (get String.compare k (invoices (afterCalls done_ s))) eqn:E; [exact H|].
  unfold afterCalls. rewrite fold_left_app. now apply afterCalls_absent.
Qed.

Lemma header_changes_only_in_number_witness :
  let calls :=
    [ Renames "b" "u1" "BILL/25/123" [];
      Renames "b" "u2" "BILL/25/999" [];
      Lists "u1" [Some missingIndex];
      Creates (sampleCall 2026 5000 "e" "u2" scenarioItems fixed 0 None) ] in
  exists d d',
    get String.compare "b" (invoices historyStore) = Some d
    /\ get String.compare "b" (invoices (afterCalls calls historyStore)) = Some d'
    /\ invoiceNumber d' = "BILL/25/123"
    /\ withInvoiceNumber (invoiceNumber d) d' = d.
Proof.
  intros calls.
  destruct (get String.compare "b" (invoices historyStore)) as [d|] eqn:E;
    [|discriminate E].
  pose proof (proj1 (header_changes_only_in_number "b" d calls historyStore E eq_refl))
    as H.
  destruct (get String.compare "b" (invoices (afterCalls calls historyStore)))
    as [d'|] eqn:E'; [|discriminate E'].
  exists d, d'. split; [reflexivity|]. split; [reflexivity|].
  split; [injection E' as <-; reflexivity | injection E' as <-; exact H].
Defined.

Lemma afterCalls_lastIssued (calls : list ServiceCall) (s : Store) :
  lastIssued (afterCalls calls s) = lastIssued s + Z.of_nat (committedCreates calls).
Proof.
  revert s. unfold afterCalls, committedCreates.
  induction calls as [|call calls IH]; intros s; cbn [fold_left filter]; [cbn; lia|].
  rewrite IH.
  assert (Hsame : forall s', counter s' = counter s -> lastIssued s' = lastIssued s).
  { intros s' H. unfold lastIssued. now rewrite H. }
  destruct call as [c|i v fs|i v n fs|v fs|i fs|v n ex fs]; cbn [afterCall].
  - destruct (commits c) eqn:Hc.
    + apply commits_None in Hc. rewrite lastIssued_commit by exact Hc.
      cbn [List.length]. lia.
    + unfold commits in Hc. destruct (callOutcome c) as [e|] eqn:Ho; [|discriminate].
      rewrite (runCreate_abort c s e Ho). reflexivity.
  - rewrite (Hsame _ (proj1 (deleteInvoice_effect i v s fs))). reflexivity.
  - destruct (updateInvoiceNumber_effect i v n s fs)
      as [(_ & d0 & _ & _ & ->)|(-> & _)]; reflexivity.
  - now rewrite getInvoices_store.
  - now rewrite getInvoiceDetails_store.
  - now rewrite checkInvoiceNumberExists_store.
Qed.

(** X17.  Only a [createInvoice] that commits moves the counter: through any
    calls of the service, with whatever rejections, that keep the counter
    within [2^53] on either side, where adding 1 to a double is exact, the
    counter has grown by the number of creations that committed; deleting
    an invoice gives no number back. *)
Theorem counter_counts_committed_creates (calls : list ServiceCall) (s : Store) :
  - JS.twoTo53 <= lastIssued s ->
  lastIssued s + Z.of_nat (committedCreates calls) <= JS.twoTo53 ->
  lastIssued (afterCalls calls s) = lastIssued s + Z.of_nat (committedCreates calls).
Proof. intros _ _. apply afterCalls_lastIssued. Qed.

Lemma counter_counts_committed_creates_witness :
  let calls :=
    [ Creates (sampleCall 2025 1000 "a" "u1" scenarioItems fixed 0 None);
      Deletes "a" "u1" [];
      Creates (sampleCall 2025 1500 "x" "u2" scenarioItems fixed 0 (Some unavailable));
      Creates (sampleCall 2025 2000 "b" "u1" scenarioItems fixed 0 None) ] in
  lastIssued (afterCalls calls emptyStore) = 2.
Proof.
  intros calls.
  apply (counter_counts_committed_creates calls emptyStore).
  - vm_compute. discriminate.
  - vm_compute. discriminate.
Defined.

Example deleted_number_not_reused :
  let calls :=
    [ Creates (sampleCall 2025 1000 "a" "u1" scenarioItems fixed 0 None);
      Deletes "a" "u1" [];
      Creates (sampleCall 2025 2000 "b" "u1" scenarioItems fixed 0 None) ] in
  map (fun kd => (fst kd, invoiceNumber (snd kd))) (invoices (afterCalls calls emptyStore))
  = [("b", "BILL/25/002")].
Proof. reflexivity. Qed.

(** * The form, the application and the print template *)

(** ** The rows of the form *)

Lemma filterIndex_length (l : list InvoiceForm.FormItem) :
  forall from index : nat,
    List.length (InvoiceForm.filterIndex from index l)
    = if ((from <=? index) && (index <? from + List.length l))%nat
      then pred (List.length l) else List.length l.
Proof.
  induction l as [|x l IH]; intros from index; cbn [InvoiceForm.filterIndex List.length].
  - now destruct ((from <=? index) && (index <? from + 0))%nat.
  - destruct (Nat.eqb_spec from index) as [->|Hne].
    + rewrite IH.
      destruct (Nat.leb_spec (S index) index); [lia|]. cbn [andb].
      destruct (Nat.leb_spec index index); [|lia].
      destruct (Nat.ltb_spec index (index + S (List.length l))); [|lia].
      reflexivity.
    + cbn [List.length]. rewrite IH.
      destruct (Nat.leb_spec (S from) index), (Nat.leb_spec from index);
        destruct (Nat.ltb_spec index (S from + List.length l)),
                 (Nat.ltb_spec index (from + S (List.length l)));
        cbn [andb pred]; try lia.
Qed.

Lemma setNth_length (f : InvoiceForm.FormItem -> InvoiceForm.FormItem)
    (l : list InvoiceForm.FormItem) :
  forall index, List.length (InvoiceForm.setNth index f l) = List.length l.
Proof.
  induction l as [|x l IH]; intros [|i]; cbn [InvoiceForm.setNth List.length]; auto.
Qed.

Lemma removeItem_length (index : nat) (st : InvoiceForm.FormState) :
  List.length (InvoiceForm.fItems (InvoiceForm.removeItem index st))
  = if ((1 <? List.length (InvoiceForm.fItems st))
        && (index <? List.length (InvoiceForm.fItems st)))%nat
    then pred (List.length (InvoiceForm.fItems st))
    else List.length (InvoiceForm.fItems st).
Proof.
  unfold InvoiceForm.removeItem.
  destruct (1 <? List.length (InvoiceForm.fItems st))%nat; [|reflexivity].
  cbn [InvoiceForm.withItemsOf InvoiceForm.fItems andb].
  rewrite filterIndex_length. reflexivity.
Qed.

Lemma afterRowAction_rows (st : InvoiceForm.FormState) (a : RowAction) :
  (1 <= List.length (InvoiceForm.fItems st))%nat ->
  (1 <= List.length (InvoiceForm.fItems (afterRowAction st a)))%nat.
Proof.
  intros H. destruct a as [|i|i f v]; cbn [afterRowAction].
  - unfold InvoiceForm.addItem. cbn [InvoiceForm.withItemsOf InvoiceForm.fItems].
    rewrite length_app. cbn [List.length]. lia.
  - rewrite removeItem_length.
    destruct (Nat.ltb_spec 1 (List.length (InvoiceForm.fItems st)));
      destruct (i <? List.length (InvoiceForm.fItems st))%nat; cbn [andb]; lia.
  - unfold InvoiceForm.updateItem.
    destruct (nth_error (InvoiceForm.fItems st) i); [|exact H].
    cbn [InvoiceForm.withItemsOf InvoiceForm.fItems]. now rewrite setNth_length.
Qed.

(** X19.  The form never loses its last row: from a form with a row, after
    any additions, removals and edits of rows there is still a row, so what
    is submitted has at least one item; [removeItem] takes away exactly one
    row when there are several and the index is of one of them, and nothing
    otherwise. *)
Theorem form_keeps_a_row (acts : list RowAction) (st : InvoiceForm.FormState) :
  (1 <= List.length (InvoiceForm.fItems st))%nat ->
  (1 <= List.length (InvoiceForm.fItems (afterRowActions acts st)))%nat
  /\ (forall Number_,
         (1 <= List.length (InvoiceForm.formattedItems Number_ (afterRowActions acts st)))%nat)
  /\ (forall index,
         List.length (InvoiceForm.fItems (InvoiceForm.removeItem index st))
         = if ((1 <? List.length (InvoiceForm.fItems st))
               && (index <? List.length (InvoiceForm.fItems st)))%nat
           then pred (List.length (InvoiceForm.fItems st))
           else List.length (InvoiceForm.fItems st)).
Proof.
  intros H.
  assert (Hrows : (1 <= List.length (InvoiceForm.fItems (afterRowActions acts st)))%nat).
  { revert st H. unfold afterRowActions.
    induction acts as [|a acts IH]; intros st H; cbn [fold_left]; [exact H|].
    apply IH. now apply afterRowAction_rows. }
  split; [exact Hrows|]. split.
  - intros Number_. unfold InvoiceForm.formattedItems. now rewrite length_map.
  - intros index. apply removeItem_length.
Qed.

Lemma form_keeps_a_row_witness :
  (1 <= List.length
          (InvoiceForm.fItems
             (afterRowActions
                [RemovesRow 0; AddsRow; RemovesRow 0; RemovesRow 0;
                 UpdatesRow 0 InvoiceForm.FDescription "work"; RemovesRow 5]
                (InvoiceForm.initialState "2025-03-01"))))%nat.
Proof.
  apply (form_keeps_a_row
           [RemovesRow 0; AddsRow; RemovesRow 0; RemovesRow 0;
            UpdatesRow 0 InvoiceForm.FDescription "work"; RemovesRow 5]
           (InvoiceForm.initialState "2025-03-01")).
  cbn. lia.
Defined.

(** ** The totals shown and the totals stored *)

Lemma eqv_refl (a : jsnum) : (a ~= a)%js.
Proof. destruct a; cbn; [apply Qeq_refl | exact I]. Qed.

Lemma eqv_sym (a b : jsnum) : (a ~= b)%js -> (b ~= a)%js.
Proof. destruct a, b; cbn; auto. apply Qeq_sym. Qed.

Lemma add_eqv (a a' b b' : jsnum) :
  (a ~= a')%js -> (b ~= b')%js -> (a + b ~= a' + b')%js.
Proof.
  destruct a, a', b, b'; cbn; try tauto. intros H1 H2. now rewrite H1, H2.
Qed.

Lemma sub_eqv (a a' b b' : jsnum) :
  (a ~= a')%js -> (b ~= b')%js -> (a - b ~= a' - b')%js.
Proof.
  destruct a, a', b, b'; cbn; try tauto. intros H1 H2. now rewrite H1, H2.
Qed.

Lemma mul_eqv (a a' b b' : jsnum) :
  (a ~= a')%js -> (b ~= b')%js -> (a * b ~= a' * b')%js.
Proof.
  destruct a, a', b, b'; cbn; try tauto. intros H1 H2. now rewrite H1, H2.
Qed.

Lemma div_100_eqv (a a' : jsnum) :
  (a ~= a')%js -> (a / Num 100 ~= a' / Num 100)%js.
Proof.
  destruct a, a'; cbn; try tauto. intros H1. now rewrite H1.
Qed.

Lemma max_eqv (a a' b b' : jsnum) :
  (a ~= a')%js -> (b ~= b')%js -> (Num.max a b ~= Num.max a' b')%js.
Proof.
  destruct a, a', b, b'; cbn; try tauto. intros H1 H2. now rewrite H1, H2.
Qed.

Lemma or_zero_eqv (a : jsnum) : a <> NaN -> (Num.or a (Num 0) ~= a)%js.
Proof.
  destruct a as [x|]; [intros _|congruence]. unfold Num.or, Num.truthy.
  destruct (Qeq_bool x 0) eqn:E; cbn [negb Num.eqv].
  - apply Qeq_bool_iff in E. now apply Qeq_sym.
  - apply Qeq_refl.
Qed.

(** With numbers in every row the sum of the service is the sum of the form. *)
Lemma sumTotals_form (Number_ : string -> jsnum) (rows : list InvoiceForm.FormItem) :
  Forall (fun i => numeric Number_ (InvoiceForm.itemQuantity i)
                   /\ numeric Number_ (InvoiceForm.itemPrice i)) rows ->
  forall acc acc' : jsnum,
    (acc ~= acc')%js ->
    (fold_left (fun a curr => (a + total curr)%js)
       (map invoiceService.calculatedItem
          (map (fun i =>
                  {| description := InvoiceForm.itemDescription i;
                     quantity := Number_ (InvoiceForm.itemQuantity i);
                     price := Number_ (InvoiceForm.itemPrice i);
                     total := (Number_ (InvoiceForm.itemQuantity i)
                               * Number_ (InvoiceForm.itemPrice i))%js |}) rows)) acc
     ~= fold_left (fun a item =>
                     (a + Number_ (InvoiceForm.itemQuantity item)
                          * Number_ (InvoiceForm.itemPrice item))%js) rows acc')%js.
Proof.
  induction 1 as [|i rows [Hq Hp] _ IH]; intros acc acc' Ha; cbn [map fold_left].
  - exact Ha.
  - apply IH. apply add_eqv; [exact Ha|].
    cbn [invoiceService.calculatedItem total quantity price].
    apply mul_eqv; now apply or_zero_eqv.
Qed.

(** A row that is not a number makes the sum of the form [NaN]. *)
Lemma fold_NaN (Number_ : string -> jsnum) (rows : list InvoiceForm.FormItem) :
  fold_left (fun a item =>
               (a + Number_ (InvoiceForm.itemQuantity item)
                    * Number_ (InvoiceForm.itemPrice item))%js) rows NaN = NaN.
Proof. induction rows as [|i rows IH]; cbn [fold_left]; [reflexivity | exact IH]. Qed.

Lemma sumTotals_form_NaN (Number_ : string -> jsnum) (rows : list InvoiceForm.FormItem) :
  Exists (fun i => Number_ (InvoiceForm.itemQuantity i) = NaN
                   \/ Number_ (InvoiceForm.itemPrice i) = NaN) rows ->
  forall acc : jsnum,
    fold_left (fun a item =>
                 (a + Number_ (InvoiceForm.itemQuantity item)
                      * Number_ (InvoiceForm.itemPrice item))%js) rows acc = NaN.
Proof.
  induction 1 as [i rows [Hq|Hp]|i rows _ IH]; intros acc; cbn [fold_left].
  - rewrite Hq. cbn [Num.mul]. destruct acc; cbn [Num.add]; apply fold_NaN.
  - rewrite Hp. destruct (Number_ (InvoiceForm.itemQuantity i)); cbn [Num.mul];
      destruct acc; cbn [Num.add]; apply fold_NaN.
  - apply IH.
Qed.

Lemma transactionOf_header (c : CreateCall) :
  exists itemWrites : list Write,
    Forall (fun w => match w with SetItem _ _ _ => True | _ => False end) itemWrites
    /\ forall s,
         transactionOf c s []
         = (autoInvoiceId (callEnv c),
            SetInvoice (autoInvoiceId (callEnv c))
              (headerWritten c (invoiceService.nextNumberOf (counter s)))
            :: itemWrites
            ++ [SetCounter
                  {| lastInvoiceNumber :=
                       VNumber (invoiceService.nextNumberOf (counter s)) |}])%list.
Proof.
  destruct (txForEach_items (autoInvoiceId (callEnv c)) (autoItemId (callEnv c))
              (map invoiceService.calculatedItem (callItems c)) 0)
    as (ws' & F & E).
  exists ws'. split; [exact F|].
  intros s. unfold transactionOf, invoiceService.createInvoiceTransaction.
  unfold txBind at 1. unfold txGetCounter at 1.
  unfold txBind at 1. unfold txSet at 1.
  unfold txBind at 1. rewrite E.
  unfold txBind, txSet, txRet. cbn [app]. rewrite <- app_assoc. reflexivity.
Qed.

(** The header a committed call leaves under its id. *)
Lemma runCreate_header (c : CreateCall) (s : Store) :
  callOutcome c = None ->
  headerOf c (snd (runCreate c s))
  = Some (headerWritten c (invoiceService.nextNumberOf (counter s))).
Proof.
  intros H. rewrite (runCreate_transactionOf c s H).
  destruct (transactionOf_header c) as (ws' & F & E).
  rewrite E. cbn [fst snd fold_left]. rewrite fold_left_app. cbn [fold_left].
  match goal with
  | |- context [fold_left applyWrite ws' ?s0] =>
      destruct (applyWrite_items ws' F s0) as [Ec Ei]; set (s1 := s0) in *
  end.
  unfold headerOf. cbn [applyWrite]. unfold withCounter. cbn [invoices]. rewrite Ei.
  subst s1. cbn [applyWrite withInvoices invoices]. apply get_set_same.
Qed.

(** X20.  What the form shows is what is stored: when every quantity, every
    price and the discount value read as numbers, the header a committed
    submit of a signed-in user stores has the subtotal, the discount amount
    and the grand total the form shows, as numbers. *)
Theorem form_totals_are_stored
    (Number_ : string -> jsnum) (uid : string) (env : Env)
    (st : InvoiceForm.FormState) (s : Store) :
  numericRows Number_ st ->
  numeric Number_ (InvoiceForm.fDiscountValue st) ->
  let c := callOfForm Number_ uid env st None in
  exists d : InvoiceDoc,
    headerOf c (snd (runCreate c s)) = Some d
    /\ (subTotal d ~= fst (fst (InvoiceForm.totals Number_ st)))%js
    /\ (discountAmount d ~= snd (fst (InvoiceForm.totals Number_ st)))%js
    /\ (grandTotal d ~= snd (InvoiceForm.totals Number_ st))%js.
Proof.
  intros Hrows Hdv c.
  exists (headerWritten c (invoiceService.nextNumberOf (counter s))).
  split; [now apply runCreate_header|].
  assert (Hsub : (invoiceService.sumTotals
                    (map invoiceService.calculatedItem (callItems c))
                  ~= fst (fst (InvoiceForm.totals Number_ st)))%js).
  { unfold InvoiceForm.totals. cbn [fst]. unfold invoiceService.sumTotals.
    apply sumTotals_form; [exact Hrows | apply eqv_refl]. }
  assert (Hdisc : (invoiceService.discountOf
                     (invoiceService.sumTotals
                        (map invoiceService.calculatedItem (callItems c)))
                     (callDiscountType c) (callDiscountValue c)
                   ~= snd (fst (InvoiceForm.totals Number_ st)))%js).
  { unfold InvoiceForm.totals in *. cbn [fst snd] in *.
    cbn [callDiscountType callDiscountValue c callOfForm].
    unfold invoiceService.discountOf.
    destruct (InvoiceForm.fDiscountType st).
    - apply eqv_sym. now apply or_zero_eqv.
    - apply mul_eqv; [exact Hsub|]. apply div_100_eqv. apply eqv_sym.
      now apply or_zero_eqv. }
  cbn [headerWritten subTotal discountAmount grandTotal].
  split; [exact Hsub|]. split; [exact Hdisc|].
  unfold InvoiceForm.totals in *. cbn [fst snd] in *.
  apply max_eqv; [apply eqv_refl|]. now apply sub_eqv.
Qed.

Lemma form_totals_are_stored_witness :
  let c := callOfForm sampleNumber "u1" (sampleEnv 2025 1000 "a") (sampleForm sampleRows)
             None in
  exists d : InvoiceDoc,
    headerOf c (snd (runCreate c emptyStore)) = Some d
    /\ (subTotal d ~= Num 250)%js
    /\ (discountAmount d ~= Num 25)%js
    /\ (grandTotal d ~= Num 225)%js.
Proof.
  intros c.
  destruct (form_totals_are_stored sampleNumber "u1" (sampleEnv 2025 1000 "a")
              (sampleForm sampleRows) emptyStore) as (d & Hd & H1 & H2 & H3).
  - repeat constructor; discriminate.
  - discriminate.
  - exists d. split; [exact Hd|]. repeat split.
    + destruct (subTotal d); [|exact H1]. cbn in H1 |- *. rewrite H1. reflexivity.
    + destruct (discountAmount d); [|exact H2]. cbn in H2 |- *. rewrite H2. reflexivity.
    + destruct (grandTotal d); [|exact H3]. cbn in H3 |- *. rewrite H3. reflexivity.
Defined.

(** X21.  What the form shows and what is stored part when a quantity or a
    price of a row does not read as a number: the form shows [NaN] as
    subtotal and grand total, while a committed submit of a signed-in user
    (the id new to the items, the item ids pairwise different) stores, row
    by row, items whose quantity and price are never [NaN], with 0 in the
    place of what did not read. *)
Theorem form_totals_not_a_number
    (Number_ : string -> jsnum) (uid : string) (env : Env)
    (st : InvoiceForm.FormState) (s : Store) :
  Exists (fun i => Number_ (InvoiceForm.itemQuantity i) = NaN
                   \/ Number_ (InvoiceForm.itemPrice i) = NaN)
    (InvoiceForm.fItems st) ->
  itemsUnder (autoInvoiceId env) s = [] ->
  NoDup (map (autoItemId env) (seq 0 (List.length (InvoiceForm.fItems st)))) ->
  let c := callOfForm Number_ uid env st None in
  fst (fst (InvoiceForm.totals Number_ st)) = NaN
  /\ snd (InvoiceForm.totals Number_ st) = NaN
  /\ exists stored : list InvoiceItem,
       Permutation (map snd (itemsUnder (autoInvoiceId env) (snd (runCreate c s)))) stored
       /\ Forall2 (fun row item =>
                     description item = InvoiceForm.itemDescription row
                     /\ quantity item <> NaN
                     /\ price item <> NaN
                     /\ (Number_ (InvoiceForm.itemQuantity row) = NaN ->
                         quantity item = Num 0)
                     /\ (Number_ (InvoiceForm.itemPrice row) = NaN ->
                         price item = Num 0))
            (InvoiceForm.fItems st) stored.
Proof.
  intros Hex Hnone Hfresh c. unfold InvoiceForm.totals. cbn [fst snd].
  rewrite (sumTotals_form_NaN Number_ _ Hex). cbn [Num.sub Num.max].
  split; [reflexivity|]. split; [reflexivity|].
  exists (map invoiceService.calculatedItem (callItems c)). split.
  - assert (Hf : freshItemIds c).
    { unfold freshItemIds. cbn [callItems callEnv c callOfForm].
      unfold InvoiceForm.formattedItems. now rewrite length_map. }
    destruct (runCreate_store c s eq_refl Hnone Hf) as (d & _ & Pin & _).
    rewrite <- (itemDocsOf_data (autoItemId (callEnv c))
                  (map invoiceService.calculatedItem (callItems c)) 0).
    now apply Permutation_map.
  - cbn [callItems c callOfForm]. unfold InvoiceForm.formattedItems.
    clear. induction (InvoiceForm.fItems st) as [|row rows IH]; cbn [map];
      constructor; [|exact IH].
    cbn [invoiceService.calculatedItem description quantity price].
    destruct (or_zero_Num (Number_ (InvoiceForm.itemQuantity row))) as (q & Eq & _).
    destruct (or_zero_Num (Number_ (InvoiceForm.itemPrice row))) as (p0 & Ep & _).
    split; [reflexivity|]. split; [rewrite Eq; discriminate|].
    split; [rewrite Ep; discriminate|].
    split; intros ->; reflexivity.
Qed.

Lemma form_totals_not_a_number_witness :
  let st := sampleForm [sampleRow "work" "two" "100"; sampleRow "more" "1" "50"] in
  let c := callOfForm sampleNumber "u1" (sampleEnv 2025 1000 "a") st None in
  fst (fst (InvoiceForm.totals sampleNumber st)) = NaN
  /\ exists (first : InvoiceItem) (rest : list InvoiceItem),
       Permutation
         (map snd (itemsUnder "a" (snd (runCreate c emptyStore)))) (first :: rest)
       /\ description first = "work"
       /\ quantity first = Num 0.
Proof.
  intros st c.
  destruct (form_totals_not_a_number sampleNumber "u1" (sampleEnv 2025 1000 "a") st
              emptyStore) as (H1 & _ & stored & P & F).
  - constructor. left. reflexivity.
  - reflexivity.
  - repeat constructor; cbn; intuition discriminate.
  - split; [exact H1|].
    inversion F as [|r1 i1 rs1 is1 (Hd1 & _ & _ & Hq1 & _) F1]; subst.
    exists i1, is1. split; [exact P|]. split; [exact Hd1 | exact (Hq1 eq_refl)].
Defined.

(** ** Submitting the form *)

Lemma orString_filled (a b : string) : InvoiceForm.isEmpty a = false -> JS.orString a b = a.
Proof. now destruct a. Qed.

Lemma orString_empty (a : string) : JS.orString a EmptyString = a.
Proof. now destruct a. Qed.

(** X22.  A submit by a signed-in user.  Without a customer name or with a
    row without description nothing is asked of the store and the form shows
    its message.  Otherwise [createInvoice] is called once: when it commits,
    [onSuccess] gets the id of the new header, which carries the name, the
    address, the phone, the currency and the date as typed (never the
    stand-in name) and the user as owner; when the store gives the call up,
    the form shows the message of the error, or its own when the error has
    none, [onSuccess] is not called and the store is as before. *)
Theorem handleSubmit_signed_in
    (Number_ : string -> jsnum) (uid : string) (env : Env) (dateNow : Z)
    (st : InvoiceForm.FormState) (s : Store) (o : option JsError) :
  let c := callOfForm Number_ uid env st o in
  let w := {| store := s; faults := [o] |} in
  let r := InvoiceForm.handleSubmit Number_ (FirebaseUser uid) env dateNow st w in
  (filledIn st = false ->
   r = (Ok (InvoiceForm.withOutcome
              (Some "Please fill in customer name and all item descriptions.")
              (InvoiceForm.fIsSubmitting st) st, None), w))
  /\ (filledIn st = true ->
      match o with
      | None =>
          fst r = Ok (InvoiceForm.withOutcome None false st, Some (autoInvoiceId env, None))
          /\ store (snd r) = snd (runCreate c s)
          /\ exists d : InvoiceDoc,
               headerOf c (store (snd r)) = Some d
               /\ customerName d = InvoiceForm.fCustomerName st
               /\ customerAddress d = InvoiceForm.fCustomerAddress st
               /\ customerPhone d = InvoiceForm.fCustomerPhone st
               /\ currencySymbol d = InvoiceForm.fCurrencySymbol st
               /\ invoiceDate d = InvoiceForm.fInvoiceDate st
               /\ userId d = uid
      | Some e =>
          fst r = Ok (InvoiceForm.withOutcome
                        (Some (JS.orUndefString (message e) "Failed to create invoice."))
                        false st, None)
          /\ store (snd r) = s
      end).
Proof.
  intros c w r. subst r. unfold InvoiceForm.handleSubmit, filledIn.
  destruct (InvoiceForm.isEmpty (InvoiceForm.fCustomerName st)
            || existsb (fun i => InvoiceForm.isEmpty (InvoiceForm.itemDescription i))
                 (InvoiceForm.fItems st)) eqn:Hv; cbn [negb].
  { split; [reflexivity | discriminate]. }
  split; [discriminate|]. intros _.
  apply orb_false_iff in Hv. destruct Hv as [Hname _].
  unfold tryCatch, bind.
  pose proof (eq_refl (runCreate c s)) as Hrun. unfold runCreate at 1 in Hrun.
  cbn [callEnv callUser callCustomer callDate callItems callDiscountType
       callDiscountValue callAddress callPhone callCurrency callOutcome c callOfForm]
    in Hrun.
  fold w in Hrun.
  destruct (invoiceService.createInvoice env uid (InvoiceForm.fCustomerName st)
              (InvoiceForm.fInvoiceDate st) (InvoiceForm.formattedItems Number_ st)
              (InvoiceForm.fDiscountType st) (Number_ (InvoiceForm.fDiscountValue st))
              (Some (InvoiceForm.fCustomerAddress st))
              (Some (InvoiceForm.fCustomerPhone st))
              (Some (InvoiceForm.fCurrencySymbol st)) w) as [res w'] eqn:E.
  destruct o as [e|].
  - rewrite (runCreate_abort c s e eq_refl) in Hrun.
    injection Hrun as Hres Hst. subst res. unfold ret. cbn [fst snd]. now split.
  - destruct (runCreate_commit c s eq_refl) as (d0 & its & Ec & _).
    pose proof (runCreate_header c s eq_refl) as Hh.
    rewrite <- Hrun in Ec. injection Ec as Hres Hst. subst res.
    unfold ret. cbn [fst snd]. split; [reflexivity|].
    rewrite <- Hrun. cbn [snd]. split; [reflexivity|].
    rewrite <- Hrun in Hh. cbn [snd] in Hh.
    eexists. split; [exact Hh|].
    cbn [headerWritten customerName customerAddress customerPhone currencySymbol
         invoiceDate userId callCustomer callAddress callPhone callCurrency callDate
         callUser c callOfForm JS.orUndefString].
    rewrite orString_filled by exact Hname. rewrite !orString_empty.
    repeat split; reflexivity.
Qed.

Lemma handleSubmit_signed_in_witness :
  let st := sampleForm sampleRows in
  let env := sampleEnv 2025 1000 "a" in
  let r := InvoiceForm.handleSubmit sampleNumber (FirebaseUser "u1") env 1000 st
             {| store := emptyStore; faults := [None] |} in
  fst r = Ok (InvoiceForm.withOutcome None false st, Some ("a", None))
  /\ exists d : InvoiceDoc,
       get String.compare "a" (invoices (store (snd r))) = Some d
       /\ customerName d = "Acme"
       /\ userId d = "u1".
Proof.
  intros st env r.
  destruct (handleSubmit_signed_in sampleNumber "u1" env 1000 st emptyStore None)
    as [_ H].
  destruct (H eq_refl) as (Hr & _ & d & Hd & Hn & _ & _ & _ & _ & Hu).
  split; [exact Hr|]. exists d. split; [exact Hd|]. split; assumption.
Defined.

Example handleSubmit_unavailable :
  fst (InvoiceForm.handleSubmit sampleNumber (FirebaseUser "u1") (sampleEnv 2025 1000 "a")
         1000 (sampleForm sampleRows)
         {| store := emptyStore; faults := [Some unavailable] |})
  = Ok (InvoiceForm.withOutcome (Some "The service is currently unavailable.") false
          (sampleForm sampleRows), None).
Proof. reflexivity. Qed.

(** ** The invoices of a guest *)

(** A guest's handlers never ask the store for anything. *)
Lemma guestHandler_offline (a : GuestAction) (st : App.AppState) (w : World) :
  exists st', guestHandler a st w = (Ok st', w)
              /\ forall w', guestHandler a st w' = (Ok st', w').
Proof.
  destruct a as [i gd year dateNow|i|i n]; cbn [guestHandler].
  - eexists. split; [reflexivity | intros w'; reflexivity].
  - eexists. split; [reflexivity | intros w'; reflexivity].
  - unfold App.handleEditInvoiceNumber, tryCatch.
    destruct (find _ (App.appGuestInvoices st));
      (eexists; split; [reflexivity | intros w'; reflexivity]).
Qed.

Lemma afterGuestAction_creates (st : App.AppState) (i : string) (gd : GuestData)
    (year dateNow : Z) :
  App.appGuestInvoices (afterGuestAction st (GuestCreates i gd year dateNow))
  = {| guestId := i;
       guestInvoiceNumber := guestNumber year (S (List.length (App.appGuestInvoices st)));
       guestData := gd;
       guestCreatedAt := dateNow;
       guestUserId := "guest_session" |} :: App.appGuestInvoices st.
Proof.
  unfold afterGuestAction, afterGuestActionOn, guestNumber. cbn.
  unfold invoiceService.formatInvoiceNumber.
  replace (Z.of_nat (List.length (App.appGuestInvoices st)) + 1)
    with (Z.pos (Pos.of_succ_nat (List.length (App.appGuestInvoices st)))) by lia.
  reflexivity.
Qed.

Lemma afterGuestAction_deletes (st : App.AppState) (i : string) :
  App.appGuestInvoices (afterGuestAction st (GuestDeletes i))
  = filter (fun inv => negb (String.eqb (guestId inv) i)) (App.appGuestInvoices st).
Proof. reflexivity. Qed.

Lemma guestNumber_inj (year : Z) (n m : nat) :
  (0 < n)%nat -> (0 < m)%nat -> guestNumber year n = guestNumber year m -> n = m.
Proof.
  intros Hn Hm H. unfold guestNumber in H.
  assert (E : invoiceSuffix (invoiceService.formatInvoiceNumber year (Z.of_nat n))
              = invoiceSuffix (invoiceService.formatInvoiceNumber year (Z.of_nat m)))
    by now rewrite H.
  rewrite !invoiceSuffix_format in E by lia. injection E. lia.
Qed.

Lemma guestNumbers_sequence (year : Z) (acts : list GuestAction) :
  Forall (createsIn year) acts ->
  forall st,
    guestNumbers (afterGuestActions acts st)
    = (List.rev (map (guestNumber year)
              (seq (S (List.length (App.appGuestInvoices st))) (List.length acts)))
       ++ guestNumbers st)%list.
Proof.
  unfold afterGuestActions.
  induction 1 as [|a acts Ha _ IH]; intros st; cbn [fold_left List.length seq map List.rev].
  - reflexivity.
  - destruct a as [i gd y dateNow| |]; cbn [createsIn] in Ha; try contradiction. subst y.
    rewrite IH. unfold guestNumbers.
    rewrite afterGuestAction_creates. cbn [List.length map guestInvoiceNumber].
    now rewrite <- app_assoc.
Qed.

(** X23.  The numbers of a guest count the invoices of the session: after
    any creations in one year, starting without invoices, the numbers are
    [BILL/yy/001], [BILL/yy/002], ... in the order of creation (the newest
    first in the list), all different; the store is never asked. *)
Theorem guest_numbers_in_sequence
    (year : Z) (acts : list GuestAction) (st : App.AppState) :
  Forall (createsIn year) acts ->
  App.appGuestInvoices st = [] ->
  guestNumbers (afterGuestActions acts st)
  = List.rev (map (fun n => invoiceService.formatInvoiceNumber year (Z.of_nat n))
           (seq 1 (List.length acts)))
  /\ NoDup (guestNumbers (afterGuestActions acts st))
  /\ Forall (fun a => forall st0 w, snd (guestHandler a st0 w) = w) acts.
Proof.
  intros Hc Hempty.
  assert (E : guestNumbers (afterGuestActions acts st)
              = List.rev (map (guestNumber year) (seq 1 (List.length acts)))).
  { rewrite (guestNumbers_sequence year acts Hc st), Hempty.
    unfold guestNumbers at 1. rewrite Hempty. cbn [List.length map]. apply app_nil_r. }
  split; [exact E|]. split.
  - rewrite E. apply NoDup_rev.
    apply (NoDup_map_inv invoiceSuffix). rewrite map_map.
    rewrite map_ext_in with (g := fun n => Some (Z.of_nat n)).
    + apply Finite.Injective_map_NoDup; [|apply seq_NoDup].
      intros a b [= H]. lia.
    + intros n Hn. apply in_seq in Hn. unfold guestNumber.
      apply invoiceSuffix_format. lia.
  - apply Forall_forall. intros a _ st0 w.
    destruct (guestHandler_offline a st0 w) as (st' & -> & _). reflexivity.
Qed.

Lemma guest_numbers_in_sequence_witness :
  guestNumbers
    (afterGuestActions
       [ GuestCreates "guest_1000" sampleGuestData 2025 1000;
         GuestCreates "guest_2000" sampleGuestData 2025 2000;
         GuestCreates "guest_3000" sampleGuestData 2025 3000 ] emptyApp)
  = ["BILL/25/003"; "BILL/25/002"; "BILL/25/001"].
Proof.
  apply (guest_numbers_in_sequence 2025
           [ GuestCreates "guest_1000" sampleGuestData 2025 1000;
             GuestCreates "guest_2000" sampleGuestData 2025 2000;
             GuestCreates "guest_3000" sampleGuestData 2025 3000 ] emptyApp).
  - repeat constructor.
  - reflexivity.
Defined.

Lemma filter_other_ids (i : string) (l : list GuestInvoice) :
  ~ In i (map guestId l) ->
  filter (fun inv => negb (String.eqb (guestId inv) i)) l = l.
Proof.
  induction l as [|x l IH]; intros Hn; cbn [filter]; [reflexivity|].
  cbn [map] in Hn.
  destruct (String.eqb_spec (guestId x) i) as [E|E]; cbn [negb].
  - exfalso. apply Hn. now left.
  - f_equal. apply IH. intros H. apply Hn. now right.
Qed.

Lemma filter_one_id (old : GuestInvoice) (l : list GuestInvoice) :
  NoDup (map guestId l) ->
  In old l ->
  List.length (filter (fun inv => negb (String.eqb (guestId inv) (guestId old))) l)
  = pred (List.length l).
Proof.
  induction l as [|x l IH]; intros Hnd Hin; [destruct Hin|].
  cbn [map] in Hnd. inversion Hnd as [|? ? Hx Hl]; subst.
  cbn [filter List.length pred].
  destruct (String.eqb_spec (guestId x) (guestId old)) as [E|E]; cbn [negb].
  - rewrite filter_other_ids; [reflexivity|]. now rewrite <- E.
  - destruct Hin as [->|Hin]; [congruence|].
    cbn [List.length]. rewrite IH by assumption.
    destruct l; [destruct Hin | reflexivity].
Qed.

(** X24.  A guest's number is used again after a delete: when the newest
    invoice has the number of the count of the invoices (as after creations
    alone) and an older one is deleted, the next invoice created in the same
    year gets the number of that newest invoice, and both stay in the
    list. *)
Theorem guest_number_repeats_after_delete
    (st : App.AppState) (newest old : GuestInvoice) (rest : list GuestInvoice)
    (year dateNow : Z) (i : string) (gd : GuestData) :
  App.appGuestInvoices st = newest :: rest ->
  guestInvoiceNumber newest
  = invoiceService.formatInvoiceNumber year (Z.of_nat (List.length (newest :: rest))) ->
  NoDup (guestIds st) ->
  In old rest ->
  exists (new : GuestInvoice) (rest' : list GuestInvoice),
    App.appGuestInvoices
      (afterGuestActions [GuestDeletes (guestId old); GuestCreates i gd year dateNow] st)
    = new :: newest :: rest'
    /\ guestId new = i
    /\ guestInvoiceNumber new = guestInvoiceNumber newest.
Proof.
  intros Hl Hnum Hnd Hin. unfold guestIds in Hnd. rewrite Hl in Hnd.
  cbn [map] in Hnd. inversion Hnd as [|? ? Hnew Hrest]; subst.
  unfold afterGuestActions. cbn [fold_left].
  rewrite afterGuestAction_creates, afterGuestAction_deletes, Hl. cbn [filter].
  destruct (String.eqb_spec (guestId newest) (guestId old)) as [E|E]; cbn [negb].
  { exfalso. apply Hnew. rewrite E. now apply in_map. }
  eexists. eexists. split; [reflexivity|]. split; [reflexivity|].
  cbn [guestInvoiceNumber List.length]. rewrite Hnum. unfold guestNumber.
  rewrite (filter_one_id old rest Hrest Hin). cbn [List.length].
  destruct rest; [destruct Hin | reflexivity].
Qed.

Lemma guest_number_repeats_after_delete_witness :
  guestNumbers
    (afterGuestActions
       [ GuestDeletes "guest_1000";
         GuestCreates "guest_3000" sampleGuestData 2025 3000 ]
       (afterGuestActions
          [ GuestCreates "guest_1000" sampleGuestData 2025 1000;
            GuestCreates "guest_2000" sampleGuestData 2025 2000 ] emptyApp))
  = ["BILL/25/002"; "BILL/25/002"].
Proof.
  destruct (guest_number_repeats_after_delete
              (afterGuestActions
                 [ GuestCreates "guest_1000" sampleGuestData 2025 1000;
                   GuestCreates "guest_2000" sampleGuestData 2025 2000 ] emptyApp)
              {| guestId := "guest_2000"; guestInvoiceNumber := "BILL/25/002";
                 guestData := sampleGuestData; guestCreatedAt := 2000;
                 guestUserId := "guest_session" |}
              {| guestId := "guest_1000"; guestInvoiceNumber := "BILL/25/001";
                 guestData := sampleGuestData; guestCreatedAt := 1000;
                 guestUserId := "guest_session" |}
              [ {| guestId := "guest_1000"; guestInvoiceNumber := "BILL/25/001";
                   guestData := sampleGuestData; guestCreatedAt := 1000;
                   guestUserId := "guest_session" |} ]
              2025 3000 "guest_3000" sampleGuestData)
    as (new & rest' & E & _ & Hn).
  - reflexivity.
  - reflexivity.
  - repeat constructor; cbn; intuition discriminate.
  - now left.
  - reflexivity.
Defined.

Lemma map_renamed_other (i n : string) (l : list GuestInvoice) :
  ~ In i (map guestId l) ->
  map (fun inv => if String.eqb (guestId inv) i then App.renamed n inv else inv) l = l.
Proof.
  induction l as [|x l IH]; intros Hn; cbn [map]; [reflexivity|].
  cbn [map] in Hn.
  destruct (String.eqb_spec (guestId x) i) as [E|E].
  - exfalso. apply Hn. now left.
  - f_equal. apply IH. intros H. apply Hn. now right.
Qed.

Lemma map_renamed_ids (i n : string) (l : list GuestInvoice) :
  map guestId
    (map (fun inv => if String.eqb (guestId inv) i then App.renamed n inv else inv) l)
  = map guestId l.
Proof.
  rewrite map_map. apply map_ext. intros inv.
  now destruct (String.eqb (guestId inv) i).
Qed.

Lemma map_renamed_numbers (i n : string) (l : list GuestInvoice) :
  NoDup (map guestId l) ->
  NoDup (map guestInvoiceNumber l) ->
  (forall inv, In inv l -> guestInvoiceNumber inv = n -> guestId inv = i) ->
  NoDup (map guestInvoiceNumber
           (map (fun inv => if String.eqb (guestId inv) i then App.renamed n inv else inv)
              l)).
Proof.
  induction l as [|x l IH]; intros Hids Hnums Hfree; cbn [map]; [constructor|].
  cbn [map] in Hids, Hnums.
  inversion Hids as [|? ? Hx Hl]; subst. inversion Hnums as [|? ? Hxn Hln]; subst.
  destruct (String.eqb_spec (guestId x) i) as [E|E].
  - rewrite map_renamed_other by (now rewrite <- E).
    constructor; [|exact Hln]. cbn [App.renamed guestInvoiceNumber].
    intros Hin. apply in_map_iff in Hin. destruct Hin as (y & Hy & Hyin).
    apply Hx. rewrite E, <- (Hfree y (or_intror Hyin) Hy). now apply in_map.
  - constructor.
    + intros Hin. apply in_map_iff in Hin. destruct Hin as (y' & Hy' & Hin).
      apply in_map_iff in Hin. destruct Hin as (y & <- & Hyin).
      destruct (String.eqb_spec (guestId y) i) as [Ey|Ey].
      * cbn [App.renamed guestInvoiceNumber] in Hy'.
        apply E. apply Hfree; [now left | now symmetry].
      * apply Hxn. rewrite <- Hy'. now apply in_map.
    + apply IH; [exact Hl | exact Hln|]. intros inv Hin. apply Hfree. now right.
Qed.

(** X25.  A guest's rename looks at every invoice of the session: when the
    ids and the numbers are pairwise different before, the numbers are
    pairwise different after, whatever number is asked for.  The rename is
    refused with an alert, the list staying as it is, exactly when another
    invoice has the number; otherwise the invoice of the id, if there is
    one, has the new number and the others keep theirs. *)
Theorem guest_rename_keeps_numbers_apart
    (st : App.AppState) (i n : string) :
  NoDup (guestIds st) ->
  NoDup (guestNumbers st) ->
  let st' := afterGuestAction st (GuestRenames i n) in
  NoDup (guestNumbers st')
  /\ guestIds st' = guestIds st
  /\ ((exists inv, In inv (App.appGuestInvoices st)
                   /\ guestInvoiceNumber inv = n /\ guestId inv <> i) ->
      App.appGuestInvoices st' = App.appGuestInvoices st
      /\ App.appAlerts st'
         = (App.appAlerts st
            ++ ["Invoice number already exists. Please use a different number."])%list)
  /\ ((forall inv, In inv (App.appGuestInvoices st) ->
                   guestInvoiceNumber inv = n -> guestId inv = i) ->
      App.appAlerts st' = App.appAlerts st
      /\ App.appGuestInvoices st'
         = map (fun inv => if String.eqb (guestId inv) i then App.renamed n inv else inv)
             (App.appGuestInvoices st)).
Proof.
  intros Hids Hnums st'. subst st'.
  unfold afterGuestAction, afterGuestActionOn. cbn [guestHandler].
  unfold App.handleEditInvoiceNumber, tryCatch.
  destruct (find (fun inv => String.eqb (guestInvoiceNumber inv) n
                             && negb (String.eqb (guestId inv) i))
              (App.appGuestInvoices st)) as [other|] eqn:Ef.
  - apply find_some in Ef. destruct Ef as [Hin Hb].
    apply andb_true_iff in Hb. destruct Hb as [Hn Hi].
    apply String.eqb_eq in Hn. apply negb_true_iff, String.eqb_neq in Hi.
    cbn [ret fst]. unfold guestNumbers, guestIds. cbn [App.alert App.appGuestInvoices
                                                       App.appAlerts].
    split; [exact Hnums|]. split; [reflexivity|]. split; [now split|].
    intros Hfree. exfalso. apply Hi. now apply Hfree.
  - assert (Hfree : forall inv, In inv (App.appGuestInvoices st) ->
                                guestInvoiceNumber inv = n -> guestId inv = i).
    { intros inv Hin Hn. pose proof (find_none _ _ Ef inv Hin) as Hb. cbn beta in Hb.
      apply andb_false_iff in Hb. destruct Hb as [Hb|Hb].
      - apply String.eqb_neq in Hb. contradiction.
      - apply negb_false_iff in Hb. now apply String.eqb_eq. }
    cbn [ret fst]. unfold guestNumbers, guestIds.
    cbn [App.setGuestInvoices App.appGuestInvoices App.appAlerts].
    split; [now apply map_renamed_numbers|]. split; [apply map_renamed_ids|].
    split.
    + intros (inv & Hin & Hn & Hi). exfalso. apply Hi. now apply Hfree.
    + intros _. now split.
Qed.

Lemma guest_rename_keeps_numbers_apart_witness :
  let st := afterGuestActions
              [ GuestCreates "guest_1000" sampleGuestData 2025 1000;
                GuestCreates "guest_2000" sampleGuestData 2025 2000 ] emptyApp in
  NoDup (guestNumbers (afterGuestAction st (GuestRenames "guest_1000" "BILL/25/002")))
  /\ guestNumbers (afterGuestAction st (GuestRenames "guest_1000" "BILL/25/007"))
     = ["BILL/25/002"; "BILL/25/007"].
Proof.
  intros st. split.
  - apply (guest_rename_keeps_numbers_apart st "guest_1000" "BILL/25/002").
    + repeat constructor; cbn; intuition discriminate.
    + repeat constructor; cbn; intuition discriminate.
  - reflexivity.
Defined.

(** ** The application of a signed-in user *)

(** A refresh of the list: whatever [getInvoices] does, the refresh does not
    reject; it shows the list returned, or keeps the list shown. *)
Lemma fetchInvoices_run (uid : string) (st : App.AppState) (w : World) :
  uid <> "guest_session" ->
  App.fetchInvoices uid st w
  = match invoiceService.getInvoices uid w with
    | (Ok data_, w') =>
        (Ok (App.setInvoicesLoading false
               (App.setInvoices data_ (App.setInvoicesLoading true st))), w')
    | (Err _, w') =>
        (Ok (App.setInvoicesLoading false (App.setInvoicesLoading true st)), w')
    end.
Proof.
  intros Hu. unfold App.fetchInvoices.
  destruct (String.eqb_spec uid "guest_session") as [E|_]; [contradiction|].
  unfold bind, tryCatch, ret.
  now destruct (invoiceService.getInvoices uid w) as [[l|e] w'].
Qed.

(** Whatever path [getInvoices] takes, a list it returns is the owner's
    headers in some order. *)
Lemma getInvoices_lists_owned (uid : string) (s : Store) (fs : list (option JsError))
    (l : list Invoice) :
  fst (invoiceService.getInvoices uid {| store := s; faults := fs |}) = Ok l ->
  Permutation l (ownedBy uid s).
Proof.
  unfold invoiceService.getInvoices, tryCatch, bind, await, getDocs, ret, throw.
  cbn [faults store].
  assert (P : Permutation
                (map toInvoice (orderByCreatedAtDesc (whereUserId uid (invoices s))))
                (ownedBy uid s)).
  { unfold ownedBy, orderByCreatedAtDesc. apply Permutation_map, stableSort_perm. }
  destruct fs as [|[e|] fs1]; cbn [fst].
  - intros [= <-]. exact P.
  - destruct (invoiceService.isIndexError e); cbn [faults store]; [|discriminate].
    destruct fs1 as [|[e2|] fs2]; cbn [fst]; try discriminate;
      intros [= <-]; apply stableSort_perm.
  - intros [= <-]. exact P.
Qed.

Lemma fetchInvoices_effect (uid : string) (st : App.AppState) (s : Store)
    (fs : list (option JsError)) :
  uid <> "guest_session" ->
  exists st',
    fst (App.fetchInvoices uid st {| store := s; faults := fs |}) = Ok st'
    /\ store (snd (App.fetchInvoices uid st {| store := s; faults := fs |})) = s
    /\ App.appGuestInvoices st' = App.appGuestInvoices st
    /\ App.appSelectedInvoice st' = App.appSelectedInvoice st
    /\ App.appAutoPrintMode st' = App.appAutoPrintMode st
    /\ App.appAlerts st' = App.appAlerts st
    /\ App.appInvoicesLoading st' = false
    /\ match fst (invoiceService.getInvoices uid {| store := s; faults := fs |}) with
       | Ok l => App.appInvoices st' = l /\ Permutation l (ownedBy uid s)
       | Err _ => App.appInvoices st' = App.appInvoices st
       end.
Proof.
  intros Hu. rewrite fetchInvoices_run by exact Hu.
  pose proof (getInvoices_store uid s fs) as Hs.
  pose proof (getInvoices_lists_owned uid s fs) as Hl.
  destruct (invoiceService.getInvoices uid {| store := s; faults := fs |})
    as [[l|e] w'] eqn:E; cbn [fst snd] in *;
    (eexists; split; [reflexivity|]); cbn;
    repeat (split; [first [reflexivity | exact Hs]|]).
  - now apply Hl.
  - reflexivity.
Qed.

(** X26.  A delete by a signed-in user never rejects.  Declined in the
    dialogue it does nothing.  Confirmed, when [deleteInvoice] fails its
    message is alerted (or the handler's own when the error has none) and
    the state is otherwise as before; when it succeeds the header is gone
    from the store and [getInvoices] is called, without alert: when that
    returns a list, this list is shown, and it is the owner's headers in
    the store, none of them the deleted one; when that fails, the list that
    was shown stays.  The invoice selected and the guest's invoices are
    never changed. *)
Theorem handleDeleteInvoice_signed_in
    (uid invoiceId : string) (st : App.AppState) (s : Store)
    (fs : list (option JsError)) :
  uid <> "guest_session" ->
  let w := {| store := s; faults := fs |} in
  let r := App.handleDeleteInvoice (Some (FirebaseUser uid)) true invoiceId st w in
  let del := invoiceService.deleteInvoice invoiceId uid w in
  App.handleDeleteInvoice (Some (FirebaseUser uid)) false invoiceId st w = (Ok st, w)
  /\ exists st',
       fst r = Ok st'
       /\ App.appGuestInvoices st' = App.appGuestInvoices st
       /\ App.appSelectedInvoice st' = App.appSelectedInvoice st
       /\ match fst del with
          | Ok _ =>
              store (snd r) = store (snd del)
              /\ get String.compare invoiceId (invoices (store (snd r))) = None
              /\ App.appAlerts st' = App.appAlerts st
              /\ App.appInvoicesLoading st' = false
              /\ match fst (invoiceService.getInvoices uid (snd del)) with
                 | Ok l =>
                     App.appInvoices st' = l
                     /\ Permutation l (ownedBy uid (store (snd r)))
                     /\ forall inv, In inv l -> id inv <> invoiceId
                 | Err _ => App.appInvoices st' = App.appInvoices st
                 end
          | Err e =>
              snd r = snd del
              /\ st' = App.alert (JS.orUndefString (message e) "Failed to delete invoice") st
          end.
Proof.
  intros Hu w r del. split; [reflexivity|].
  subst r. unfold App.handleDeleteInvoice. cbn [negb]. unfold tryCatch, bind.
  fold del.
  pose proof (deleteInvoice_effect invoiceId uid s fs) as Heff. cbn zeta in Heff.
  fold w in Heff. fold del in Heff.
  destruct Heff as (_ & _ & _ & Hsome & Hnone).
  destruct del as [[[]|e] [s1 fs1]] eqn:Edel; cbn [fst snd store] in *.
  - assert (Hgone : get String.compare invoiceId (invoices s1) = None).
    { destruct (get String.compare invoiceId (invoices s)) as [d|] eqn:Eg.
      - destruct (Hsome d eq_refl) as [(_ & _ & Hg & _)|(e & He & _)];
          [exact Hg | discriminate].
      - destruct (Hnone eq_refl) as (_ & e & He & _). discriminate. }
    destruct (fetchInvoices_effect uid st s1 fs1 Hu)
      as (st' & Hr & Hst & Hg & Hsel & _ & Hal & Hload & Hlist).
    destruct (App.fetchInvoices uid st {| store := s1; faults := fs1 |})
      as [[a|e2] w2]; cbn [fst snd] in *; [injection Hr as ->|discriminate].
    exists st'. split; [reflexivity|]. split; [exact Hg|]. split; [exact Hsel|].
    rewrite Hst. split; [reflexivity|]. split; [exact Hgone|].
    split; [exact Hal|]. split; [exact Hload|].
    destruct (fst (invoiceService.getInvoices uid {| store := s1; faults := fs1 |}))
      as [l|e3]; [|exact Hlist].
    destruct Hlist as [Hshown P]. split; [exact Hshown|]. split; [exact P|].
    intros inv Hin Hid. apply (Permutation_in _ P) in Hin.
    apply In_ownedBy in Hin. destruct Hin as [Hin _]. rewrite Hid in Hin.
    exact (get_None_not_In String.compare string_compare_Eq _ _ Hgone _ Hin).
  - eexists. split; [reflexivity|]. cbn [ret snd fst].
    repeat split; reflexivity.
Qed.

Lemma handleDeleteInvoice_signed_in_witness :
  let r := App.handleDeleteInvoice (Some (FirebaseUser "u1")) true "b" emptyApp
             {| store := historyStore; faults := [] |} in
  exists st',
    fst r = Ok st'
    /\ map id (App.appInvoices st') = ["d"; "a"]
    /\ map fst (invoices (store (snd r))) = ["a"; "c"; "d"]
    /\ App.appAlerts st' = [].
Proof.
  intros r.
  assert (Hu : "u1" <> "guest_session") by discriminate.
  destruct (handleDeleteInvoice_signed_in "u1" "b" emptyApp historyStore [] Hu)
    as (_ & st' & Hr & _).
  exists st'. split; [exact Hr|].
  vm_compute in Hr. injection Hr as <-. repeat split; reflexivity.
Defined.

Example handleDeleteInvoice_not_the_owner :
  App.handleDeleteInvoice (Some (FirebaseUser "u2")) true "b" emptyApp
    {| store := historyStore; faults := [] |}
  = (Ok (App.alert "Unauthorized to delete this invoice" emptyApp),
     {| store := historyStore; faults := [] |}).
Proof. reflexivity. Qed.

(** X27.  A rename by a signed-in user never rejects.  When
    [updateInvoiceNumber] fails the store is as before and one message is
    alerted: the text about the history for the error "Invoice number
    already exists", else the message of the error, or the handler's own
    when the error has none.  When it succeeds [getInvoices] is called,
    without alert: when that returns a list, this list is shown, and it is
    the owner's headers in the store; when that fails, the list that was
    shown stays. *)
Theorem handleEditInvoiceNumber_signed_in
    (uid invoiceId newNumber : string) (st : App.AppState) (s : Store)
    (fs : list (option JsError)) :
  uid <> "guest_session" ->
  let w := {| store := s; faults := fs |} in
  let r := App.handleEditInvoiceNumber (Some (FirebaseUser uid)) invoiceId newNumber st w in
  let ren := invoiceService.updateInvoiceNumber invoiceId uid newNumber w in
  exists st',
    fst r = Ok st'
    /\ App.appGuestInvoices st' = App.appGuestInvoices st
    /\ App.appSelectedInvoice st' = App.appSelectedInvoice st
    /\ match fst ren with
       | Ok _ =>
           store (snd r) = store (snd ren)
           /\ App.appAlerts st' = App.appAlerts st
           /\ App.appInvoicesLoading st' = false
           /\ match fst (invoiceService.getInvoices uid (snd ren)) with
              | Ok l =>
                  App.appInvoices st' = l
                  /\ Permutation l (ownedBy uid (store (snd r)))
              | Err _ => App.appInvoices st' = App.appInvoices st
              end
       | Err e =>
           store (snd r) = s
           /\ App.appInvoices st' = App.appInvoices st
           /\ App.appAlerts st'
              = (App.appAlerts st
                 ++ [if match message e with
                        | Some m => String.eqb m "Invoice number already exists"
                        | None => false
                        end
                     then "This invoice number already exists in your history. Please use a different number."
                     else JS.orUndefString (message e) "Failed to update invoice number"])%list
       end.
Proof.
  intros Hu w r ren.
  subst r. unfold App.handleEditInvoiceNumber. unfold tryCatch, bind.
  fold ren.
  pose proof (updateInvoiceNumber_effect invoiceId uid newNumber s fs) as Heff.
  cbn zeta in Heff. fold w in Heff. fold ren in Heff.
  destruct ren as [[[]|e] [s1 fs1]] eqn:Eren; cbn [fst snd store] in *.
  - destruct (fetchInvoices_effect uid st s1 fs1 Hu)
      as (st' & Hr & Hst & Hg & Hsel & _ & Hal & Hload & Hlist).
    destruct (App.fetchInvoices uid st {| store := s1; faults := fs1 |})
      as [[a|e2] w2]; cbn [fst snd] in *; [injection Hr as ->|discriminate].
    exists st'. split; [reflexivity|]. split; [exact Hg|]. split; [exact Hsel|].
    rewrite Hst. repeat (split; [first [reflexivity | assumption]|]). exact Hlist.
  - destruct Heff as [(Hok & _)|(Hs & _)]; [discriminate|]. subst s1.
    destruct (message e) as [m|] eqn:Em.
    + destruct (String.eqb_spec m "Invoice number already exists") as [->|Hm].
      * eexists. split; [reflexivity|]. cbn. repeat split; reflexivity.
      * assert (Hr : (match m with
                      | "Invoice number already exists" =>
                          ret (App.alert "This invoice number already exists in your history. Please use a different number." st)
                      | _ => ret (App.alert (JS.orUndefString (Some m) "Failed to update invoice number") st)
                      end) {| store := s; faults := fs1 |}
                     = (Ok (App.alert (JS.orUndefString (Some m) "Failed to update invoice number") st),
                        {| store := s; faults := fs1 |})).
        { apply String.eqb_neq in Hm.
          repeat (match goal with
                  | |- context [match ?x with _ => _ end] =>
                      first [is_var x | fail 1]; destruct x; try reflexivity
                  end);
          try (cbn in Hm; discriminate Hm). }
        apply String.eqb_neq in Hm. rewrite Hr. cbn [fst snd store].
        eexists. split; [reflexivity|]. cbn [App.alert App.appGuestInvoices
          App.appSelectedInvoice App.appInvoices App.appAlerts].
        repeat split; reflexivity.
    + eexists. split; [reflexivity|]. cbn. repeat split; reflexivity.
Qed.

Lemma handleEditInvoiceNumber_signed_in_witness :
  let r := App.handleEditInvoiceNumber (Some (FirebaseUser "u1")) "b" "BILL/25/001" emptyApp
             {| store := historyStore; faults := [] |} in
  exists st',
    fst r = Ok st'
    /\ store (snd r) = historyStore
    /\ App.appAlerts st'
       = ["This invoice number already exists in your history. Please use a different number."].
Proof.
  intros r.
  assert (Hu : "u1" <> "guest_session") by discriminate.
  destruct (handleEditInvoiceNumber_signed_in "u1" "b" "BILL/25/001" emptyApp
              historyStore [] Hu) as (st' & Hr & _).
  exists st'. split; [exact Hr|].
  vm_compute in Hr. injection Hr as <-. split; reflexivity.
Defined.

Lemma handleInvoiceSuccess_signed_in (uid : string) (year dateNow : Z)
    (invoiceId : string) (guestData_ : option GuestData) (st : App.AppState) :
  App.handleInvoiceSuccess (Some (FirebaseUser uid)) year dateNow invoiceId guestData_ st
  = (details <- invoiceService.getInvoiceDetails invoiceId ;;
     App.fetchInvoices uid
       (App.setSelectedInvoice (Some (App.SelectedStored details))
          (App.setAutoPrintMode false st)))%io.
Proof. now destruct guestData_. Qed.

(** X28.  After a committed [createInvoice] of a signed-in user (the id new
    to the items, the item ids pairwise different), [handleInvoiceSuccess]
    with the id returned selects the stored header with exactly the
    calculated items, turns the automatic print off and refreshes the list,
    which then holds the new invoice and is ordered newest first.  When the
    store rejects the read of the header, the handler rejects with that
    error: it has no handler of its own. *)
Theorem handleInvoiceSuccess_shows_the_created
    (c : CreateCall) (s : Store) (st : App.AppState) (year dateNow : Z)
    (guestData_ : option GuestData) :
  callOutcome c = None ->
  itemsUnder (autoInvoiceId (callEnv c)) s = [] ->
  freshItemIds c ->
  callUser c <> "guest_session" ->
  let s' := snd (runCreate c s) in
  let handler :=
    App.handleInvoiceSuccess (Some (FirebaseUser (callUser c))) year dateNow
      (autoInvoiceId (callEnv c)) guestData_ st in
  (exists (st' : App.AppState) (d : InvoiceDoc) (its : list (string * InvoiceItem)),
      handler {| store := s'; faults := [] |} = (Ok st', {| store := s'; faults := [] |})
      /\ headerOf c s' = Some d
      /\ App.appSelectedInvoice st'
         = Some (App.SelectedStored ({| id := autoInvoiceId (callEnv c); data := d |}, its))
      /\ Permutation (map snd its) (map invoiceService.calculatedItem (callItems c))
      /\ In {| id := autoInvoiceId (callEnv c); data := d |} (App.appInvoices st')
      /\ newestFirst (App.appInvoices st')
      /\ App.appAutoPrintMode st' = false
      /\ App.appInvoicesLoading st' = false
      /\ App.appAlerts st' = App.appAlerts st)
  /\ (forall e fs,
         handler {| store := s'; faults := Some e :: fs |}
         = (Err e, {| store := s'; faults := fs |})).
Proof.
  intros H Hnone Hfresh Hu s' handler. subst handler.
  split.
  - destruct (runCreate_store c s H Hnone Hfresh) as (d & Hd & Pin & _).
    fold s' in Hd, Pin.
    exists (App.setInvoicesLoading false
              (App.setInvoices
                 (map toInvoice
                    (orderByCreatedAtDesc (whereUserId (callUser c) (invoices s'))))
                 (App.setInvoicesLoading true
                    (App.setSelectedInvoice
                       (Some (App.SelectedStored
                                ({| id := autoInvoiceId (callEnv c); data := d |},
                                 itemsUnder (autoInvoiceId (callEnv c)) s')))
                       (App.setAutoPrintMode false st))))),
      d, (itemsUnder (autoInvoiceId (callEnv c)) s').
    split.
    { rewrite handleInvoiceSuccess_signed_in.
      unfold bind. rewrite getInvoiceDetails_run by exact I.
      unfold headerOf in Hd. rewrite Hd. cbn [tl].
      rewrite fetchInvoices_run by exact Hu.
      now rewrite getInvoices_primary by exact I. }
    split; [exact Hd|]. split; [reflexivity|]. split.
    { rewrite <- (itemDocsOf_data (autoItemId (callEnv c))
                    (map invoiceService.calculatedItem (callItems c)) 0).
      now apply Permutation_map. }
    cbn [App.setInvoicesLoading App.setInvoices App.setSelectedInvoice
         App.setAutoPrintMode App.appInvoices App.appAutoPrintMode
         App.appInvoicesLoading App.appAlerts].
    assert (P : Permutation
                  (map toInvoice
                     (orderByCreatedAtDesc (whereUserId (callUser c) (invoices s'))))
                  (ownedBy (callUser c) s')).
    { unfold ownedBy, orderByCreatedAtDesc. apply Permutation_map, stableSort_perm. }
    split.
    { apply (Permutation_in _ (Permutation_sym P)). apply In_ownedBy. cbn [id data].
      split; [now apply get_In|].
      destruct (runCreate_commit c s H) as (d0 & its0 & E & _ & _ & _ & _ & _ & _ & _ & Hown).
      unfold headerOf in Hd. subst s'. rewrite E in Hd. cbn [snd invoices] in Hd.
      rewrite get_set_same in Hd. congruence. }
    split; [|repeat split; reflexivity].
    unfold newestFirst, orderByCreatedAtDesc.
    rewrite <- (stableSort_map toInvoice storeAfterDesc
                  (fun a b => storeAfterDesc (id a, data a) (id b, data b)))
      by (intros [k1 d1] [k2 d2]; reflexivity).
    unfold stableSort.
    induction (map toInvoice (whereUserId (callUser c) (invoices s'))) as [|x l IH];
      cbn [fold_right].
    + constructor.
    + apply insertSorted_sorted_ties; [| |exact IH].
      * intros a b Hab. apply storeAfterDesc_true in Hab. exact Hab.
      * intros a b Hab. apply storeAfterDesc_false in Hab. exact Hab.
  - intros e fs. rewrite handleInvoiceSuccess_signed_in. reflexivity.
Qed.

Lemma handleInvoiceSuccess_shows_the_created_witness :
  let c := sampleCall 2025 5000 "e" "u1" scenarioItems percentage 10 None in
  let s' := snd (runCreate c historyStore) in
  exists st',
    App.handleInvoiceSuccess (Some (FirebaseUser "u1")) 2025 5000 "e" None emptyApp
      {| store := s'; faults := [] |}
    = (Ok st', {| store := s'; faults := [] |})
    /\ map id (App.appInvoices st') = ["e"; "b"; "d"; "a"].
Proof.
  intros c s'.
  destruct (handleInvoiceSuccess_shows_the_created c historyStore emptyApp 2025 5000 None)
    as [(st' & d & its & E & _) _].
  - reflexivity.
  - reflexivity.
  - repeat constructor; cbn; intuition discriminate.
  - discriminate.
  - exists st'. split; [exact E|].
    vm_compute in E. injection E as <-. reflexivity.
Defined.

(** ** The name of the printed file *)

Lemma string_length_append (a b : string) :
  String.length (a ++ b) = (String.length a + String.length b)%nat.
Proof. induction a as [|c a IH]; cbn; [reflexivity | now rewrite IH]. Qed.

Lemma append_cancel_r (t : string) :
  forall a b : string, a ++ t = b ++ t -> a = b.
Proof.
  induction a as [|c a IH]; intros [|c' b] H; cbn in H.
  - reflexivity.
  - apply (f_equal String.length) in H. cbn in H. rewrite string_length_append in H. lia.
  - apply (f_equal String.length) in H. cbn in H. rewrite string_length_append in H. lia.
  - injection H as -> H. f_equal. now apply IH.
Qed.

Lemma replaceSlashes_append (a b : string) :
  InvoicePrintTemplate.replaceSlashes (a ++ b)
  = InvoicePrintTemplate.replaceSlashes a ++ InvoicePrintTemplate.replaceSlashes b.
Proof.
  induction a as [|c a IH]; cbn [append InvoicePrintTemplate.replaceSlashes];
    [reflexivity | now rewrite IH].
Qed.

Lemma replaceSlashes_no_slash (s : string) (c : ascii) :
  In c (list_ascii_of_string (InvoicePrintTemplate.replaceSlashes s)) -> c <> "/"%char.
Proof.
  induction s as [|a s IH]; cbn [InvoicePrintTemplate.replaceSlashes list_ascii_of_string];
    [intros []|].
  intros [<-|Hin]; [|now apply IH].
  destruct (Ascii.eqb_spec a "/"); [discriminate | assumption].
Qed.

Lemma replaceSlashes_inj :
  forall a b : string,
    ~ In "-"%char (list_ascii_of_string a) ->
    ~ In "-"%char (list_ascii_of_string b) ->
    InvoicePrintTemplate.replaceSlashes a = InvoicePrintTemplate.replaceSlashes b ->
    a = b.
Proof.
  induction a as [|c a IH]; intros [|c' b] Ha Hb H;
    cbn [InvoicePrintTemplate.replaceSlashes list_ascii_of_string] in *;
    try discriminate; [reflexivity|].
  injection H as Hc H.
  assert (c = c') as ->.
  { destruct (Ascii.eqb_spec c "/") as [->|Hn], (Ascii.eqb_spec c' "/") as [->|Hn'];
      try reflexivity; try assumption.
    - exfalso. apply Hb. left. now symmetry.
    - exfalso. apply Ha. now left. }
  f_equal. apply IH; [intros Hin; apply Ha; now right | intros Hin; apply Hb; now right
                      | exact H].
Qed.

(** X29.  The name of the printed file has no slash, whatever the invoice
    number; two numbers without a dash that give the same name are the same
    number; a slash and a dash at the same place give the same name. *)
Theorem fileName_without_slash (n1 n2 : string) :
  (forall c, In c (list_ascii_of_string (InvoicePrintTemplate.fileName n1)) ->
             c <> "/"%char)
  /\ (~ In "-"%char (list_ascii_of_string n1) ->
      ~ In "-"%char (list_ascii_of_string n2) ->
      InvoicePrintTemplate.fileName n1 = InvoicePrintTemplate.fileName n2 ->
      n1 = n2)
  /\ InvoicePrintTemplate.fileName (n1 ++ "/" ++ n2)
     = InvoicePrintTemplate.fileName (n1 ++ "-" ++ n2).
Proof.
  unfold InvoicePrintTemplate.fileName. split; [|split].
  - intros c Hin.
    change ("Invoice_" ++ InvoicePrintTemplate.replaceSlashes n1 ++ ".pdf")
      with (InvoicePrintTemplate.replaceSlashes "Invoice_"
            ++ InvoicePrintTemplate.replaceSlashes n1
            ++ InvoicePrintTemplate.replaceSlashes ".pdf") in Hin.
    rewrite <- !replaceSlashes_append in Hin.
    now apply replaceSlashes_no_slash in Hin.
  - intros H1 H2 H. cbn [append] in H. injection H as H.
    apply append_cancel_r in H. now apply replaceSlashes_inj.
  - rewrite !replaceSlashes_append. reflexivity.
Qed.

Lemma fileName_without_slash_witness :
  InvoicePrintTemplate.fileName "BILL/25/001" = "Invoice_BILL-25-001.pdf"
  /\ (forall c, In c (list_ascii_of_string (InvoicePrintTemplate.fileName "BILL/25/001")) ->
                c <> "/"%char)
  /\ InvoicePrintTemplate.fileName "BILL/25" = InvoicePrintTemplate.fileName "BILL-25".
Proof.
  split; [reflexivity|].
  destruct (fileName_without_slash "BILL/25/001" "BILL/25/001") as (H1 & _ & _).
  destruct (fileName_without_slash "BILL" "25") as (_ & _ & H3).
  split; [exact H1 | exact H3].
Defined.
